(** * Finite-fault discretisation and the seismic Green's function library

    A shallow embedding of [src/src/ffi.py] (package [beat]): the
    [FaultOrdering] and [FaultGeometry] classes, [discretize_sources], the
    [SeismicGFLibrary] class and the allocation step of
    [seis_construct_gf_linear], followed by the properties proved about them.

    Conventions of the embedding.
    - Python integers are [Z]; lengths and positions inside lists are [nat].
    - Sample values, slips and lengths in metres are floating point numbers in
      the source.  They are idealised here as exact rationals [Q]; a cast such
      as [astype(floatX)] is the identity on them.  The one place where a
      result of the module depends on the rounding of a single operation is
      the quotient of two lengths: there the values are double precision
      numbers and the quotient is rounded to the nearest one ([round64]).
    - A Python call that may raise returns a [result]; a method that also
      mutates its object is a function from the object to a [result] paired
      with the object as the call leaves it (also when it raised).
    - numpy arrays referred to from several places (the attribute
      [_gfmatrix] and the entries of [_stack_switch]) live in a store of
      arrays inside the library object and are referred to by position, so
      that in-place writes are seen through every reference. *)

From Stdlib Require Import ZArith QArith Qround Qpower Lia Lqa.
From Stdlib Require PrimFloat FloatOps SpecFloat.
From stdpp Require Import base option list vector gmap strings pretty.

(** ** Exceptions and results *)

Inductive exn :=
| TypeError
| ValueError
| KeyError
| IndexError
| AttributeError
| ZeroDivisionError
| OverflowError
| NameError
| GFLibraryError
| FaultGeometryError.

Inductive result (A : Type) :=
| Ok (a : A)
| Raise (e : exn).
Arguments Ok {A} a.
Arguments Raise {A} e.

#[global] Instance result_ret : MRet result := @Ok.
#[global] Instance result_bind : MBind result := fun A B f m =>
  match m with
  | Ok a => f a
  | Raise e => Raise e
  end.
#[global] Instance result_fmap : FMap result := fun A B f m =>
  match m with
  | Ok a => Ok (f a)
  | Raise e => Raise e
  end.

Definition is_Ok {A} (r : result A) : Prop := exists a, r = Ok a.
Definition is_Raise {A} (r : result A) : Prop := exists e, r = Raise e.

(** [d[k]] on a dictionary, [KeyError] when the key is missing. *)
Definition dict_get `{Countable K} {V} (d : gmap K V) (k : K) : result V :=
  match d !! k with
  | Some v => Ok v
  | None => Raise KeyError
  end.

(** [l[i]] on a Python list or along one axis of an array of extent
    [length l]: a negative index counts from the end, anything outside
    [-n, n) is an [IndexError]. *)
Definition norm_index (n : nat) (i : Z) : result nat :=
  if (0 <=? i)%Z && (i <? Z.of_nat n)%Z then Ok (Z.to_nat i)
  else if (- Z.of_nat n <=? i)%Z && (i <? 0)%Z then Ok (Z.to_nat (i + Z.of_nat n))
  else Raise IndexError.

Definition list_get {A} (l : list A) (i : Z) : result A :=
  k ← norm_index (length l) i;
  match l !! k with
  | Some x => Ok x
  | None => Raise IndexError
  end.

(** [x in l] for a list of strings. *)
Definition str_in (x : string) (l : list string) : bool := bool_decide (x ∈ l).

(** [for x in l: acc = f(acc, x)], leaving at the first exception. *)
Fixpoint foldM {A B} (f : A -> B -> result A) (a : A) (l : list B) : result A :=
  match l with
  | [] => Ok a
  | x :: l' => a' ← f a x; foldM f a' l'
  end.

(** ** PatchMap and slices *)

(** [slice(start, stop)] *)
Record slice := { start : Z; stop : Z }.

(** The flat indexes a slice selects, [range(start, stop)]. *)
Definition slice_range (s : slice) : list Z := seqZ (start s) (stop s - start s).

Module PatchMap.
(** [PatchMap = namedtuple('PatchMap', 'count, slc, shp, npatches')] *)
Record t := { count : Z; slc : slice; shp : Z * Z; npatches : Z }.
End PatchMap.

(** ** FaultOrdering *)

Module FaultOrdering.

Record t := { vmap : list PatchMap.t; npatches : Z }.

(** One turn of the loop of [__init__] on the loop variables
    [(self.vmap, dim, count)]. *)
Definition step (acc : list PatchMap.t * Z * Z) (p : Z * Z) : list PatchMap.t * Z * Z :=
  let '(vmap, dim, count) := acc in
  let '(npl, npw) := p in
  let npatches := (npl * npw)%Z in
  let slc := {| start := dim; stop := (dim + npatches)%Z |} in
  let shp := (npw, npl) in
  (vmap ++ [PatchMap.Build_t count slc shp npatches], (dim + npatches)%Z, (count + 1)%Z).

(** [FaultOrdering(npls, npws)]; [zip] stops at the shorter list. *)
Definition __init__ (npls npws : list Z) : result t :=
  let '(vmap, dim, _) := foldl step ([], 0%Z, 0%Z) (zip npls npws) in
  Ok {| vmap := vmap; npatches := dim |}.

End FaultOrdering.

(** ** Rectangular sources *)

Module RectangularSource.

(** The attributes of a pyrocko [RectangularSource] that the module reads or
    sets: the two dimensions in metres and the focal-mechanism parameters
    changed per slip component. *)
Record t := { length : Q; width : Q; rake : Q; slip : Q; opening : Q }.

(** Modelled from the spec: [RectangularSource.patches(nl, nw, datatype)] is
    a method of the source class of [beat.heart], which is not part of the
    sources at hand.  The spec describes it as the subdivision of an extended
    source into its patch grid, each patch of size
    [extended_dimension / patch_count]: one patch per cell of the
    [nw] x [nl] grid, in row order. *)
Definition patches (s : t) (nl nw : Z) (datatype : option string) : list t :=
  _ ← seqZ 0 nw;
  _ ← seqZ 0 nl;
  [ {| length := length s / inject_Z nl; width := width s / inject_Z nw;
       rake := rake s; slip := slip s; opening := opening s |} ].

(** [s.update] called with the keyword arguments of an entry of
    [slip_directions]: ['slip'], ['rake'] and, for some, ['opening']. *)
Definition update (s : t) (slip' rake' : Q) (opening' : option Q) : t :=
  {| length := length s; width := width s; rake := rake';
     slip := slip'; opening := default (opening s) opening' |}.

End RectangularSource.

(** ** Double precision division

    The lengths the module divides are Python floats, IEEE 754 double
    precision numbers.  A finite double is the rational it denotes; the
    quotient of two of them is the exact quotient rounded to the nearest
    double, a tie going to the even significand. *)

(** [floor (log2 q)] of a positive rational. *)
Definition ilog2 (q : Q) : Z :=
  let e := (Z.log2 (Qnum q) - Z.log2 (Zpos (Qden q)))%Z in
  if Qle_bool (2 ^ e) q then e else (e - 1)%Z.

(** The integer nearest to [r], a tie going to the even one. *)
Definition round_half_even (r : Q) : Z :=
  let f := Qfloor r in
  match (r - inject_Z f ?= 1 # 2)%Q with
  | Lt => f
  | Gt => (f + 1)%Z
  | Eq => if Z.even f then f else (f + 1)%Z
  end.

(** The double nearest to a positive rational [q]: a significand of 53 bits
    at the exponent of [q], or at the smallest exponent [-1074] for a
    subnormal result; [None] on overflow, where the result is an infinity. *)
Definition round64_pos (q : Q) : option Q :=
  let s := Z.max (ilog2 q - 52) (-1074) in
  let m := round_half_even (q / 2 ^ s) in
  let r := (inject_Z m * 2 ^ s)%Q in
  if Qle_bool (2 ^ 1024) r then None else Some r.

Definition round64 (q : Q) : option Q :=
  match (q ?= 0)%Q with
  | Eq => Some 0%Q
  | Gt => round64_pos q
  | Lt => Qopp <$> round64_pos (- q)
  end.

(** For comparison with the division of the machine: the hardware double
    of significand [m] and exponent [e], and the rational a finite hardware
    double denotes ([None] for an infinity or a NaN). *)
Definition double (m : positive) (e : Z) : PrimFloat.float :=
  FloatOps.SF2Prim (SpecFloat.S754_finite false m e).

Definition float_value (f : PrimFloat.float) : option Q :=
  match FloatOps.Prim2SF f with
  | SpecFloat.S754_zero _ => Some 0%Q
  | SpecFloat.S754_finite s m e =>
      Some ((if s then Qopp else id) (inject_Z (Zpos m) * 2 ^ e))%Q
  | _ => None
  end.

(** [x / y] on two floats: Python raises on a zero divisor, and an
    overflowing quotient is an infinity ([None]). *)
Definition float_div (x y : Q) : result (option Q) :=
  if Qeq_bool y 0 then Raise ZeroDivisionError else Ok (round64 (x / y)).

(** The float a Python integer is converted to when it meets a float in a
    division: the integer itself up to [2 ^ 53], the nearest double above,
    and an [OverflowError] beyond the doubles. *)
Definition int_to_float (n : Z) : result Q :=
  if (Z.abs n <=? 2 ^ 53)%Z then Ok (inject_Z n)
  else match round64 (inject_Z n) with
       | Some r => Ok r
       | None => Raise OverflowError
       end.

(** ** FaultGeometry *)

Module FaultGeometry.

Record t := {
  datatypes : list string;
  components : list string;
  _ext_sources : gmap string RectangularSource.t;
  ordering : FaultOrdering.t
}.

Definition __init__ (datatypes components : list string) (ordering : FaultOrdering.t) : t :=
  {| datatypes := datatypes; components := components;
     _ext_sources := ∅; ordering := ordering |}.

Definition nsubfaults (self : t) : Z :=
  Z.of_nat (length (FaultOrdering.vmap (ordering self))).

Definition nsubpatches (self : t) : Z := FaultOrdering.npatches (ordering self).

Definition _check_datatype (self : t) (datatype : string) : result unit :=
  if str_in datatype (datatypes self) then Ok tt else Raise TypeError.

Definition _check_component (self : t) (component : string) : result unit :=
  if str_in component (components self) then Ok tt else Raise TypeError.

Definition _check_index (self : t) (index : Z) : result unit :=
  if (nsubfaults self - 1 <? index)%Z then Raise TypeError else Ok tt.

Definition get_subfault_key (self : t) (index : Z) (datatype component : option string)
  : result string :=
  datatype ← match datatype with
             | Some d => _ ← _check_datatype self d; Ok d
             | None => list_get (datatypes self) 0
             end;
  component ← match component with
              | Some c => _ ← _check_component self c; Ok c
              | None => list_get (components self) 0
              end;
  _ ← _check_index self index;
  Ok (datatype +:+ "_" +:+ component +:+ "_" +:+ pretty index).

(** The loop of [setup_subfaults] mutates [_ext_sources] entry by entry; an
    exception leaves the entries written so far in place. *)
Fixpoint setup_loop (self : t) (datatype component : string) (replace : bool)
    (i : Z) (ext_sources : list RectangularSource.t) : result unit * t :=
  match ext_sources with
  | [] => (Ok tt, self)
  | source :: rest =>
      match get_subfault_key self i (Some datatype) (Some component) with
      | Raise e => (Raise e, self)
      | Ok source_key =>
          if bool_decide (_ext_sources self !! source_key = None) || replace then
            setup_loop
              {| datatypes := datatypes self; components := components self;
                 _ext_sources := <[source_key := source]> (_ext_sources self);
                 ordering := ordering self |}
              datatype component replace (i + 1)%Z rest
          else (Raise FaultGeometryError, self)
      end
  end.

Definition setup_subfaults (self : t) (datatype component : string)
    (ext_sources : list RectangularSource.t) (replace : bool) : result unit * t :=
  match _check_datatype self datatype with
  | Raise e => (Raise e, self)
  | Ok _ =>
      match _check_component self component with
      | Raise e => (Raise e, self)
      | Ok _ =>
          if bool_decide (Z.of_nat (length ext_sources) = nsubfaults self) then
            setup_loop self datatype component replace 0%Z ext_sources
          else (Raise FaultGeometryError, self)
      end
  end.

Definition get_subfault (self : t) (index : Z) (datatype component : option string)
  : result RectangularSource.t :=
  source_key ← get_subfault_key self index datatype component;
  match _ext_sources self !! source_key with
  | Some s => Ok s
  | None => Raise FaultGeometryError
  end.

Definition get_subfault_patches (self : t) (index : Z) (datatype component : option string)
  : result (list RectangularSource.t) :=
  _ ← _check_index self index;
  subfault ← get_subfault self index datatype component;
  pm ← list_get (FaultOrdering.vmap (ordering self)) index;
  let '(npw, npl) := PatchMap.shp pm in
  Ok (RectangularSource.patches subfault npl npw datatype).

Definition get_all_patches (self : t) (datatype component : option string)
  : result (list RectangularSource.t) :=
  foldM (fun patches i =>
           ps ← get_subfault_patches self i datatype component;
           Ok (patches ++ ps))
        [] (seqZ 0 (nsubfaults self)).

Definition get_patch_indexes (self : t) (index : Z) : result slice :=
  _ ← _check_index self index;
  pm ← list_get (FaultOrdering.vmap (ordering self)) index;
  Ok (PatchMap.slc pm).

(** [patch_size = subfault.width / npw] of [get_subfault_starttime_bound]:
    the size of a patch along dip, a float divided by an integer.  The
    result is a double precision number or, for [None], an infinity. *)
Definition patch_size (subfault : RectangularSource.t) (npw : Z) : result (option Q) :=
  npw' ← int_to_float npw;
  float_div (RectangularSource.width subfault) npw'.

(** [iter_subfaults] is a generator: the sources it yields, in order, and
    the exception that ends the iteration, if one does. *)
Fixpoint iter_loop (self : t) (datatype component : option string)
    (indexes : list Z) : list RectangularSource.t * option exn :=
  match indexes with
  | [] => ([], None)
  | i :: rest =>
      match get_subfault self i datatype component with
      | Raise e => ([], Some e)
      | Ok s =>
          let '(yielded, e) := iter_loop self datatype component rest in
          (s :: yielded, e)
      end
  end.

Definition iter_subfaults (self : t) (datatype component : option string)
  : list RectangularSource.t * option exn :=
  iter_loop self datatype component (seqZ 0 (nsubfaults self)).

End FaultGeometry.

(** ** discretize_sources *)

(** The catalogue [slip_directions]: slip, rake and, where the entry has
    one, opening of each slip component. *)
Definition slip_directions : gmap string (Q * Q * option Q) :=
  {[ "Uparr" := (1%Q, 0%Q, @None Q);
     "Uperp" := (1%Q, (- (90))%Q, @None Q);
     "Utensile" := (0%Q, 0%Q, Some 1%Q) ]}.

(** [int(num.ceil(x / y))]: the ceiling of the rounded quotient; [int]
    raises on an infinity. *)
Definition ceil_div (x y : Q) : result Z :=
  q ← float_div x y;
  match q with
  | Some r => Ok (Qceiling r)
  | None => Raise OverflowError
  end.

Section Discretize.

(** [RectangularSource.extent_source(extension_width, extension_length,
    patch_width, patch_length)] belongs to [beat.heart] and is taken as
    given: it returns the extended copy of the source. *)
Variable extent_source : RectangularSource.t -> Q -> Q -> Q -> Q -> RectangularSource.t.

Variables (extension_width extension_length patch_width patch_length : Q).

(** The first loop of [discretize_sources] on the loop variables
    [(npls, npws)]. *)
Definition count_step (acc : list Z * list Z) (source : RectangularSource.t)
  : result (list Z * list Z) :=
  let '(npls, npws) := acc in
  let ext_source :=
    extent_source source extension_width extension_length patch_width patch_length in
  npl ← ceil_div (RectangularSource.length ext_source) patch_length;
  npw ← ceil_div (RectangularSource.width ext_source) patch_width;
  Ok (npls ++ [npl], npws ++ [npw]).

Definition patch_counts (sources : list RectangularSource.t) : result (list Z * list Z) :=
  foldM count_step ([], []) sources.

(** The innermost loop: [param_mod['rake']] keeps growing from source to
    source.  The two [get_n_patches] results appended to [npls] and [npws]
    there are never read again (the ordering is built before) and are left
    out. *)
Definition extend_step (acc : (Q * Q * option Q) * list RectangularSource.t)
    (source : RectangularSource.t) : (Q * Q * option Q) * list RectangularSource.t :=
  let '((slip, rake, opening), ext_sources) := acc in
  let rake := (rake + RectangularSource.rake source)%Q in
  let s := RectangularSource.update source slip rake opening in
  let ext_source :=
    extent_source s extension_width extension_length patch_width patch_length in
  ((slip, rake, opening), ext_sources ++ [ext_source]).

Definition register_component (sources : list RectangularSource.t) (datatype : string)
    (fault : FaultGeometry.t) (var : string) : result FaultGeometry.t :=
  param_mod ← dict_get slip_directions var;
  let ext_sources := (foldl extend_step (param_mod, []) sources).2 in
  match FaultGeometry.setup_subfaults fault datatype var ext_sources false with
  | (Ok _, fault') => Ok fault'
  | (Raise e, _) => Raise e
  end.

Definition discretize_sources (sources : list RectangularSource.t)
    (datatypes varnames : list string) : result FaultGeometry.t :=
  if str_in "seismic" datatypes && negb (Qeq_bool patch_length patch_width)
  then Raise ValueError
  else if str_in "seismic" datatypes && bool_decide (1 < length sources)%nat
  then Raise ValueError
  else
    '(npls, npws) ← patch_counts sources;
    ordering ← FaultOrdering.__init__ npls npws;
    let fault := FaultGeometry.__init__ datatypes varnames ordering in
    foldM (fun fault datatype =>
             foldM (register_component sources datatype) fault varnames)
          fault datatypes.

End Discretize.

(** ** numpy arrays *)

#[global] Instance Q_inhabited : Inhabited Q := populate 0%Q.

(** Sum of a list of numbers and the dot product of two vectors. *)
Definition Qsum (l : list Q) : Q := foldr Qplus 0%Q l.
Definition dot (u v : list Q) : Q := Qsum (zip_with Qmult u v).

(** [n] consecutive pieces of [k] elements each. *)
Fixpoint chunks {A} (k n : nat) (l : list A) : list (list A) :=
  match n with
  | O => []
  | S n' => take k l :: chunks k n' (drop k l)
  end.

(** The length two index arrays broadcast to: equal lengths, or one of them
    of length one. *)
Definition bshape (a b : nat) : result nat :=
  if bool_decide (a = b) then Ok a
  else if bool_decide (a = 1%nat) then Ok b
  else if bool_decide (b = 1%nat) then Ok a
  else Raise IndexError.

(** An index array stretched to the broadcast length [n]. *)
Definition bcast {A} `{Inhabited A} (n : nat) (l : list A) : list A :=
  if bool_decide (length l = n) then l else replicate n (l !!! 0%nat).

(** [num.arange(n, dtype='int16')]: the values are stored in 16 bits and
    wrap around beyond 32767. *)
Definition wrap16 (z : Z) : Z := ((z + 32768) `mod` 65536 - 32768)%Z.
Definition arange_int16 (n : Z) : list Z := wrap16 <$> seqZ 0 n.

(** [mapM] over a list, in order. *)
Fixpoint mapM {A B} (f : A -> result B) (l : list A) : result (list B) :=
  match l with
  | [] => Ok []
  | x :: l' => y ← f x; ys ← mapM f l'; Ok (y :: ys)
  end.

(** A one- or two-dimensional array of numbers handed to the library, the
    latter with its number of columns [shape[1]]: every row has that many
    entries. *)
Inductive array :=
| Array1 (xs : list Q)
| Array2 (ncols : nat) (rows : list (vec Q ncols)).

Module ndarray.

(** The five-dimensional array behind a library: its [shape]
    [(ntargets, npatches, nrisetimes, nstarttimes, nsamples)] and its
    entries, nested axis by axis. *)
Record t := {
  shape : nat * nat * nat * nat * nat;
  data : list (list (list (list (list Q))))
}.

#[global] Instance inhabited : Inhabited t := populate {| shape := (0, 0, 0, 0, 0)%nat; data := [] |}.

(** [num.zeros([n0, n1, n2, n3, n4])]; a negative extent is refused. *)
Definition zeros (n0 n1 n2 n3 n4 : Z) : result t :=
  if bool_decide (0 <= n0 ∧ 0 <= n1 ∧ 0 <= n2 ∧ 0 <= n3 ∧ 0 <= n4)%Z then
    Ok {| shape := (Z.to_nat n0, Z.to_nat n1, Z.to_nat n2, Z.to_nat n3, Z.to_nat n4);
          data := replicate (Z.to_nat n0) (replicate (Z.to_nat n1) (replicate (Z.to_nat n2)
                    (replicate (Z.to_nat n3) (replicate (Z.to_nat n4) 0%Q)))) |}
  else Raise ValueError.

Definition dim0 (a : t) : nat := (shape a).1.1.1.1.
Definition dim1 (a : t) : nat := (shape a).1.1.1.2.
Definition dim2 (a : t) : nat := (shape a).1.1.2.
Definition dim3 (a : t) : nat := (shape a).1.2.
Definition dim4 (a : t) : nat := (shape a).2.

(** The entries fit the shape. *)
Definition wf (a : t) : Prop :=
  length (data a) = dim0 a ∧
  Forall (fun a0 => length a0 = dim1 a ∧
    Forall (fun a1 => length a1 = dim2 a ∧
      Forall (fun a2 => length a2 = dim3 a ∧
        Forall (fun a3 => length a3 = dim4 a) a2) a1) a0) (data a).

(** The trace [a[t, p, r, s, :]] at positions inside the array. *)
Definition row (a : t) (ti p r s : nat) : list Q := (((data a !!! ti) !!! p) !!! r) !!! s.

(** The positions [(p, r, s)] three parallel index arrays select on the
    axes 1, 2 and 3: the arrays are broadcast against each other and every
    index is brought into range. *)
Definition positions (a : t) (ps rs ss : list Z) : result (list (nat * nat * nat)) :=
  n ← bshape (length ps) (length rs);
  n ← bshape n (length ss);
  mapM (fun i : Z * Z * Z =>
          p ← norm_index (dim1 a) i.1.1;
          r ← norm_index (dim2 a) i.1.2;
          s ← norm_index (dim3 a) i.2;
          Ok (p, r, s))
       (zip (zip (bcast n ps) (bcast n rs)) (bcast n ss)).

(** [a[tidx, ps, rs, ss, :]]: one row per position. *)
Definition getitem (a : t) (tidx : Z) (ps rs ss : list Z) : result (list (list Q)) :=
  pos ← positions a ps rs ss;
  ti ← norm_index (dim0 a) tidx;
  Ok (fmap (M := list) (fun i : nat * nat * nat => row a ti i.1.1 i.1.2 i.2) pos).

(** [a[:, ps, rs, ss, :]]: for every target, one row per position. *)
Definition getitem_all (a : t) (ps rs ss : list Z) : result (list (list (list Q))) :=
  pos ← positions a ps rs ss;
  Ok ((fun ti => fmap (M := list) (fun i : nat * nat * nat => row a ti i.1.1 i.1.2 i.2) pos)
        <$> seq 0 (dim0 a)).

(** One row written in place. *)
Definition set_row (a : t) (ti p r s : nat) (v : list Q) : t :=
  {| shape := shape a;
     data := alter (alter (alter (fun a3 => <[s := v]> a3) r) p) ti (data a) |}.

(** [a[tidx, p, rs, ss, :] = rows] for rows of the sample length of [a]:
    the rows are broadcast to the selected positions and written one after
    the other, so that of two rows sent to one position the later one
    stays. *)
Definition setitem (a : t) (tidx p : Z) (rs ss : list Z) (rows : list (list Q)) : result t :=
  pos ← positions a [p] rs ss;
  rows ← (if bool_decide (length rows = length pos) then Ok rows
          else if bool_decide (length rows = 1%nat) then Ok (replicate (length pos) (rows !!! 0%nat))
          else Raise ValueError);
  ti ← norm_index (dim0 a) tidx;
  Ok (foldl (fun a (w : (nat * nat * nat) * list Q) => set_row a ti w.1.1.1 w.1.1.2 w.1.2 w.2)
            a (zip pos rows)).

End ndarray.

(** [rows.reshape((k, ns))] for a two-dimensional array. *)
Definition reshape2 (k ns : nat) (rows : list (list Q)) : result (list (list Q)) :=
  if bool_decide (length (concat rows) = (k * ns)%nat) then Ok (chunks ns k (concat rows))
  else Raise ValueError.

(** [d.reshape((n0, n1, n2))] for a three-dimensional array. *)
Definition reshape3 (n0 n1 n2 : nat) (d : list (list (list Q))) : result (list (list (list Q))) :=
  if bool_decide (length (concat (concat d)) = (n0 * n1 * n2)%nat)
  then Ok (chunks n1 n0 (chunks n2 (n0 * n1) (concat (concat d))))
  else Raise ValueError.

(** [rows.T.dot(slips)] for [rows] of shape [(k, ns)]. *)
Definition T_dot (ns : nat) (rows : list (list Q)) (slips : list Q) : list Q :=
  (fun j => dot ((fun r : list Q => r !!! j) <$> rows) slips) <$> seq 0 ns.

(** [d.dimshuffle((1, 0, 2))] for [d] of shape [(n0, n1, n2)]. *)
Definition dimshuffle_102 (n1 : nat) (d : list (list (list Q))) : list (list (list Q)) :=
  (fun p => (fun dt : list (list Q) => dt !!! p) <$> d) <$> seq 0 n1.

(** [batched_dot(x, slips)] for [x] with the batch axis first and a vector
    [slips] along it: every batch entry is scaled by its slip. *)
Definition batched_dot (x : list (list (list Q))) (slips : list Q) : result (list (list (list Q))) :=
  if bool_decide (length slips = length x)
  then Ok (zip_with (fun xp s => (fun r : list Q => (fun v => (v * s)%Q) <$> r) <$> xp) x slips)
  else Raise ValueError.

(** [y.sum(axis=0)] for [y] of shape [(n0, n1, n2)]. *)
Definition sum_axis0 (n1 n2 : nat) (y : list (list (list Q))) : list (list Q) :=
  (fun ti => (fun j => Qsum ((fun yp : list (list Q) => (yp !!! ti) !!! j) <$> y)) <$> seq 0 n2) <$> seq 0 n1.

(** ** SeismicGFLibrary *)

Module SeismicGFLibrary.

(** A reference to an array of the store. *)
Definition loc := nat.

(** The attributes of a library object.  Targets and stations are
    identified by their codes.  [None] in [_patchidxs], [_gfmatrix],
    [_sgfmatrix] and [_target2index] is Python's [None]; [None] in
    [_stack_switch] says that the attribute does not exist yet
    (only [init_optimization] creates it).  [arrays] is the store of the
    numpy arrays the other attributes refer to. *)
Record t := {
  component : string;
  targets : list string;
  stations : list string;
  _patchidxs : option (list Z);
  _gfmatrix : option loc;
  _sgfmatrix : option loc;
  _mode : string;
  _stack_switch : option (gmap string loc);
  _target2index : option (gmap string nat);
  arrays : list ndarray.t
}.

Definition set_patchidxs (v : option (list Z)) (s : t) : t :=
  {| component := component s; targets := targets s; stations := stations s;
     _patchidxs := v; _gfmatrix := _gfmatrix s; _sgfmatrix := _sgfmatrix s;
     _mode := _mode s; _stack_switch := _stack_switch s;
     _target2index := _target2index s; arrays := arrays s |}.

Definition set_gfmatrix (v : option loc) (s : t) : t :=
  {| component := component s; targets := targets s; stations := stations s;
     _patchidxs := _patchidxs s; _gfmatrix := v; _sgfmatrix := _sgfmatrix s;
     _mode := _mode s; _stack_switch := _stack_switch s;
     _target2index := _target2index s; arrays := arrays s |}.

Definition set_sgfmatrix (v : option loc) (s : t) : t :=
  {| component := component s; targets := targets s; stations := stations s;
     _patchidxs := _patchidxs s; _gfmatrix := _gfmatrix s; _sgfmatrix := v;
     _mode := _mode s; _stack_switch := _stack_switch s;
     _target2index := _target2index s; arrays := arrays s |}.

Definition set_mode (v : string) (s : t) : t :=
  {| component := component s; targets := targets s; stations := stations s;
     _patchidxs := _patchidxs s; _gfmatrix := _gfmatrix s; _sgfmatrix := _sgfmatrix s;
     _mode := v; _stack_switch := _stack_switch s;
     _target2index := _target2index s; arrays := arrays s |}.

Definition set_stack_switch (v : option (gmap string loc)) (s : t) : t :=
  {| component := component s; targets := targets s; stations := stations s;
     _patchidxs := _patchidxs s; _gfmatrix := _gfmatrix s; _sgfmatrix := _sgfmatrix s;
     _mode := _mode s; _stack_switch := v;
     _target2index := _target2index s; arrays := arrays s |}.

Definition set_target2index (v : option (gmap string nat)) (s : t) : t :=
  {| component := component s; targets := targets s; stations := stations s;
     _patchidxs := _patchidxs s; _gfmatrix := _gfmatrix s; _sgfmatrix := _sgfmatrix s;
     _mode := _mode s; _stack_switch := _stack_switch s;
     _target2index := v; arrays := arrays s |}.

Definition set_arrays (v : list ndarray.t) (s : t) : t :=
  {| component := component s; targets := targets s; stations := stations s;
     _patchidxs := _patchidxs s; _gfmatrix := _gfmatrix s; _sgfmatrix := _sgfmatrix s;
     _mode := _mode s; _stack_switch := _stack_switch s;
     _target2index := _target2index s; arrays := v |}.

(** *** Methods as state transformers with exceptions *)

Definition M (A : Type) : Type := t -> result A * t.

Definition ret {A} (a : A) : M A := fun s => (Ok a, s).
Definition raise {A} (e : exn) : M A := fun s => (Raise e, s).
Definition bind {A B} (m : M A) (f : A -> M B) : M B := fun s =>
  match m s with
  | (Ok a, s') => f a s'
  | (Raise e, s') => (Raise e, s')
  end.
Definition lift {A} (r : result A) : M A := fun s => (r, s).
Definition get : M t := fun s => (Ok s, s).
Definition modify (f : t -> t) : M unit := fun s => (Ok tt, f s).

Declare Scope method_scope.
Delimit Scope method_scope with method.
Notation "'let*' x := m 'in' k" := (bind m (fun x => k))
  (at level 10, x name, m at level 100, k at level 200) : method_scope.
Notation "m ;; k" := (bind m (fun _ => k))
  (at level 100, k at level 200, right associativity) : method_scope.
Local Open Scope method_scope.

(** The array a reference points to.  References come from allocation
    only, so the default of the lookup is never met in a library built
    through its methods. *)
Definition deref (g : loc) : M ndarray.t := fun s => (Ok (arrays s !!! g), s).

(** A new array in the store. *)
Definition alloc (a : ndarray.t) : M loc := fun s =>
  (Ok (length (arrays s)), set_arrays (arrays s ++ [a]) s).

(** An array of the store overwritten in place. *)
Definition store (g : loc) (a : ndarray.t) : M unit :=
  modify (fun s => set_arrays (<[g := a]> (arrays s)) s).

(** [SeismicGFLibrary(component, targets=..., stations=...)] *)
Definition __init__ (component : option string) (targets stations : list string) : result t :=
  match component with
  | None => Raise TypeError
  | Some c =>
      Ok {| component := c; targets := targets; stations := stations;
            _patchidxs := None; _gfmatrix := None; _sgfmatrix := None;
            _mode := "numpy"; _stack_switch := None; _target2index := None;
            arrays := [] |}
  end.

Definition _check_setup : M unit :=
  let* s := get in
  match _gfmatrix s with
  | None => raise GFLibraryError
  | Some _ => ret tt
  end.

(** [dict((target, i) for (i, target) in enumerate(self.targets))]: of two
    equal targets the later position stays. *)
Definition enumerate_dict (targets : list string) : gmap string nat :=
  foldl (fun (d : gmap string nat) (p : nat * string) => <[p.2 := p.1]> d) ∅
        (imap pair targets).

Definition target_index_mapping : M (gmap string nat) :=
  let* s := get in
  match _target2index s with
  | Some d => ret d
  | None =>
      let d := enumerate_dict (targets s) in
      modify (set_target2index (Some d));;
      ret d
  end.

Definition nstations : M Z := let* s := get in ret (Z.of_nat (length (stations s))).

(** [self._gfmatrix.shape[k]] behind [_check_setup]. *)
Definition shape_of (dim : ndarray.t -> nat) : M nat :=
  _check_setup;;
  let* s := get in
  match _gfmatrix s with
  | None => raise AttributeError
  | Some g => let* a := deref g in ret (dim a)
  end.

Definition ntargets : M nat := shape_of ndarray.dim0.
Definition npatches : M nat := shape_of ndarray.dim1.
Definition nrisetimes : M nat := shape_of ndarray.dim2.
Definition nstarttimes : M nat := shape_of ndarray.dim3.
Definition nsamples : M nat := shape_of ndarray.dim4.

Definition setup (ntargets npatches nrisetimes nstarttimes nsamples : Z) : M unit :=
  let* n := nstations in
  if bool_decide (ntargets ≠ n) then raise GFLibraryError
  else
    let* a := lift (ndarray.zeros ntargets npatches nrisetimes nstarttimes nsamples) in
    let* g := alloc a in
    modify (set_gfmatrix (Some g));;
    modify (set_patchidxs (Some (arange_int16 npatches))).

(** The message of the exception is built with a format string of two
    places from a single string ([utility.list2string] joins the modes into
    one), which is itself a [TypeError]; the [GFLibraryError] is never
    reached. *)
Definition set_stack_mode (mode : string) : M unit :=
  let* s := get in
  match _stack_switch s with
  | None => raise AttributeError
  | Some sw =>
      if bool_decide (mode ∈ dom sw) then modify (set_mode mode)
      else raise TypeError
  end.

(** [astype] copies the array; [shared(..., borrow=True)] keeps that copy. *)
Definition init_optimization : M unit :=
  let* s := get in
  match _gfmatrix s with
  | None => raise AttributeError
  | Some g =>
      let* a := deref g in
      let* g' := alloc a in
      modify (set_sgfmatrix (Some g'));;
      modify (set_stack_switch (Some {[ "numpy" := g; "theano" := g' ]}));;
      set_stack_mode "theano"
  end.

Definition put (entries : array) (target : string) (patchidx : Z)
    (risetimeidxs starttimeidxs : list Z) : M unit :=
  match entries with
  | Array1 _ => raise ValueError
  | Array2 ncols rows =>
      let* ns := nsamples in
      if bool_decide (ncols ≠ ns) then raise GFLibraryError
      else
        _check_setup;;
        let* t2i := target_index_mapping in
        let* tidx := lift (dict_get t2i target) in
        let* s := get in
        match _gfmatrix s with
        | None => raise TypeError
        | Some g =>
            let* a := deref g in
            let* a' := lift (ndarray.setitem a (Z.of_nat tidx) patchidx
                               risetimeidxs starttimeidxs (vec_to_list <$> rows)) in
            store g a'
        end
  end.

(** The value of the result is given for both backends: for the graph
    backend it is the value the returned expression evaluates to. *)
Definition stack (target : string) (patchidxs risetimeidxs starttimeidxs : list Z)
    (slips : list Q) : M (list Q) :=
  let* t2i := target_index_mapping in
  let* tidx := lift (dict_get t2i target) in
  let* s := get in
  match _stack_switch s with
  | None => raise AttributeError
  | Some sw =>
      let* g := lift (dict_get sw (_mode s)) in
      let* a := deref g in
      let* rows := lift (ndarray.getitem a (Z.of_nat tidx) patchidxs
                           risetimeidxs starttimeidxs) in
      let* ns := nsamples in
      let* rows := lift (reshape2 (length slips) ns rows) in
      ret (T_dot ns rows slips)
  end.

Definition stack_all (risetimeidxs starttimeidxs : list Z) (slips : list Q)
  : M (list (list Q)) :=
  let* s := get in
  match _sgfmatrix s with
  | None => raise GFLibraryError
  | Some g' =>
      let* a := deref g' in
      match _patchidxs s with
      | None => raise ValueError
      | Some patchidxs =>
          let* d := lift (ndarray.getitem_all a patchidxs risetimeidxs starttimeidxs) in
          let* nt := ntargets in
          let* np := npatches in
          let* ns := nsamples in
          let* d := lift (reshape3 nt np ns d) in
          let* y := lift (batched_dot (dimshuffle_102 np d) slips) in
          ret (sum_axis0 nt ns y)
      end
  end.

(** [self._gfmatrix.size]: no [_check_setup] here, so that a library that
    is not sized answers with the [AttributeError] of [None]. *)
Definition size : M nat :=
  let* s := get in
  match _gfmatrix s with
  | None => raise AttributeError
  | Some g =>
      let* a := deref g in
      ret (ndarray.dim0 a * ndarray.dim1 a * ndarray.dim2 a * ndarray.dim3 a * ndarray.dim4 a)%nat
  end.

(** [self.size * 8 / (1024. * 1024.)] *)
Definition filesize : M Q :=
  let* n := size in
  ret (inject_Z (Z.of_nat n) * 8 / (1024 * 1024))%Q.

End SeismicGFLibrary.

(** ** A client of a library: sequences of method calls *)

Inductive call :=
| Setup (ntargets npatches nrisetimes nstarttimes nsamples : Z)
| InitOptimization
| Put (entries : array) (target : string) (patchidx : Z) (risetimeidxs starttimeidxs : list Z)
| SetStackMode (mode : string)
| Stack (target : string) (patchidxs risetimeidxs starttimeidxs : list Z) (slips : list Q)
| StackAll (risetimeidxs starttimeidxs : list Z) (slips : list Q).

(** The library as one call leaves it, whether the call returned or raised. *)
Definition exec (s : SeismicGFLibrary.t) (c : call) : SeismicGFLibrary.t :=
  match c with
  | Setup n0 n1 n2 n3 n4 => (SeismicGFLibrary.setup n0 n1 n2 n3 n4 s).2
  | InitOptimization => (SeismicGFLibrary.init_optimization s).2
  | Put e tg p rs ss => (SeismicGFLibrary.put e tg p rs ss s).2
  | SetStackMode m => (SeismicGFLibrary.set_stack_mode m s).2
  | Stack tg ps rs ss sl => (SeismicGFLibrary.stack tg ps rs ss sl s).2
  | StackAll rs ss sl => (SeismicGFLibrary.stack_all rs ss sl s).2
  end.

Definition run (s : SeismicGFLibrary.t) (cs : list call) : SeismicGFLibrary.t :=
  foldl exec s cs.

Definition is_init (c : call) : bool :=
  match c with
  | InitOptimization => true
  | _ => false
  end.

(** ** seis_construct_gf_linear: sizing and allocation of a library *)

(** Lines 677 to 687 of the source, for one slip component [var]: the
    extents of the library and its allocation.  [nstarttimes] and [nsamples]
    are the values the caller's rupture-time bound and arrival taper give.
    The name [event] passed to the constructor is bound neither in the
    function nor in the module; [event] is [None] when no such global
    exists, and the call then ends in a [NameError].  (The rest of the
    function body, from line 722 on, is not well-formed Python.) *)
Definition seis_construct_gf_linear_alloc (event : option unit)
    (targets stations : list string) (fault : FaultGeometry.t) (risetimes : list Q)
    (nstarttimes nsamples : Z) (var : string) : result SeismicGFLibrary.t :=
  let npatches := FaultGeometry.nsubfaults fault in
  let ntargets := Z.of_nat (length targets) in
  let nrisetimes := Z.of_nat (length risetimes) in
  match event with
  | None => Raise NameError
  | Some _ =>
      gfs ← SeismicGFLibrary.__init__ (Some var) targets stations;
      match SeismicGFLibrary.setup ntargets npatches nrisetimes nstarttimes nsamples gfs with
      | (Ok _, gfs') => Ok gfs'
      | (Raise e, _) => Raise e
      end
  end.

(** ** geo_construct_gf_linear *)

(** The attributes of a [heart.GeodeticDataset] the function reads: the
    line-of-sight vectors, one row of three components per observation, and
    the weights [odw], one per observation. *)
Module GeodeticDataset.
Record t := { los_vector : list (Q * Q * Q); odw : list Q }.
End GeodeticDataset.

(** [u op v] on two one-dimensional arrays: equal lengths, or one of them of
    length one, which is stretched; numpy refuses anything else. *)
Definition broadcast2 (f : Q -> Q -> Q) (u v : list Q) : result (list Q) :=
  if bool_decide (length u = length v) then Ok (zip_with f u v)
  else if bool_decide (length u = 1%nat) then Ok (f (u !!! 0%nat) <$> v)
  else if bool_decide (length v = 1%nat) then Ok ((fun x => f x (v !!! 0%nat)) <$> u)
  else Raise ValueError.

(** [num.vstack(cols).T] for one-dimensional arrays: it needs at least one
    array and arrays of one length, and gives one row per entry. *)
Definition vstack_T (cols : list (list Q)) : result (list (list Q)) :=
  match cols with
  | [] => Raise ValueError
  | c :: _ =>
      if forallb (fun c' : list Q => bool_decide (length c' = length c)) cols
      then Ok ((fun i => (fun c' : list Q => c' !!! i) <$> cols) <$> seq 0 (length c))
      else Raise ValueError
  end.

Section GeoConstruct.

(** [heart.geo_synthetics(engine, targets, [source], 'stacked_arrays')] is
    taken as given: for one source, one displacement array per target, each
    with one row of three components per observation. *)
Variable geo_synthetics : RectangularSource.t -> result (list (list (Q * Q * Q))).

Variable datasets : list GeodeticDataset.t.
Variable fault : FaultGeometry.t.

(** The displacement [d] of one dataset projected on its line of sight and
    weighted. *)
Definition los_projection (d : list (Q * Q * Q)) (data : GeodeticDataset.t)
  : result (list Q) :=
  let los := GeodeticDataset.los_vector data in
  x ← broadcast2 Qmult ((fun r => r.1.1) <$> d) ((fun r => r.1.1) <$> los);
  y ← broadcast2 Qmult ((fun r => r.1.2) <$> d) ((fun r => r.1.2) <$> los);
  xy ← broadcast2 Qplus x y;
  z ← broadcast2 Qmult ((fun r => r.2) <$> d) ((fun r => r.2) <$> los);
  xyz ← broadcast2 Qplus xy z;
  broadcast2 Qmult xyz (GeodeticDataset.odw data).

(** The body of the loop over the patches: the matrix of one patch. *)
Definition patch_gfs (source : RectangularSource.t) : result (list (list Q)) :=
  disp ← geo_synthetics source;
  gfs_data ← mapM (fun p : list (Q * Q * Q) * GeodeticDataset.t => los_projection p.1 p.2)
                  (zip disp datasets);
  vstack_T gfs_data.

(** The body of the loop over [varnames]: the list [gfs] of one slip
    component. *)
Definition var_gfs (var : string) : result (list (list (list Q))) :=
  patches ← FaultGeometry.get_all_patches fault (Some "geodetic") (Some var);
  mapM patch_gfs patches.

(** [geo_construct_gf_linear]: [path_exists] is [os.path.exists(outpath)];
    the result is the dictionary handed to [utility.dump_objects], if one
    is.  The assignment [out_gfs[var] = gfs] stands after the loop over
    [varnames], on the loop variables as the last turn left them; without a
    turn they are unbound. *)
Definition geo_construct_gf_linear (path_exists force : bool) (varnames : list string)
  : result (option (gmap string (list (list (list Q))))) :=
  if path_exists && negb force then Ok None
  else
    bound ← foldM (fun (_ : option (string * list (list (list Q)))) var =>
                     gfs ← var_gfs var; Ok (Some (var, gfs)))
                  None varnames;
    match bound with
    | None => Raise NameError
    | Some (var, gfs) => Ok (Some {[ var := gfs ]})
    end.

End GeoConstruct.

(** ** Vocabulary of the specification *)

(** *** Fault ordering *)

Definition sumZ (l : list Z) : Z := foldr Z.add 0%Z l.

(** The patch counts of the subfaults, [npl * npw] pair by pair. *)
Definition prods (l : list (Z * Z)) : list Z := (fun p => (p.1 * p.2)%Z) <$> l.

(** The [PatchMap] the loop of [FaultOrdering.__init__] appends for the
    pair [p] at position [i] of the zipped list [l]. *)
Definition patchmap_at (l : list (Z * Z)) (i : nat) (p : Z * Z) : PatchMap.t :=
  {| PatchMap.count := Z.of_nat i;
     PatchMap.slc := {| start := sumZ (take i (prods l));
                        stop := (sumZ (take i (prods l)) + p.1 * p.2)%Z |};
     PatchMap.shp := (p.2, p.1);
     PatchMap.npatches := (p.1 * p.2)%Z |}.

(** The value of [int(num.ceil(x / y))] where the call returns. *)
Definition ceil_of (x y : Q) : Z :=
  match ceil_div x y with
  | Ok n => n
  | Raise _ => 0%Z
  end.

(** The patch counts [discretize_sources] computes for one source. *)
Definition npl_of (extent_source : RectangularSource.t -> Q -> Q -> Q -> Q -> RectangularSource.t)
    (ew el pw pl : Q) (source : RectangularSource.t) : Z :=
  ceil_of (RectangularSource.length (extent_source source ew el pw pl)) pl.

Definition npw_of (extent_source : RectangularSource.t -> Q -> Q -> Q -> Q -> RectangularSource.t)
    (ew el pw pl : Q) (source : RectangularSource.t) : Z :=
  ceil_of (RectangularSource.width (extent_source source ew el pw pl)) pw.

(** *** Indexes *)

(** An index numpy accepts on an axis of extent [n], and the position it
    stands for. *)
Definition valid_index (n : nat) (i : Z) : Prop := (- Z.of_nat n <= i < Z.of_nat n)%Z.

Definition norm (n : nat) (i : Z) : nat :=
  if (0 <=? i)%Z then Z.to_nat i else Z.to_nat (i + Z.of_nat n).

(** The stored trace selected for target [t] and patch [p]. *)
Definition trace (a : ndarray.t) (rs ss : list Z) (t p : nat) : list Q :=
  ndarray.row a t p (norm (ndarray.dim2 a) (rs !!! p)) (norm (ndarray.dim3 a) (ss !!! p)).

(** The position the stored, 16 bit index of patch [p] is read as on a patch
    axis of extent [np], and the trace [stack_all] reads for target [t] and
    patch [p]. *)
Definition patch_of (np p : nat) : nat := norm np (wrap16 (Z.of_nat p)).

Definition read_trace (a : ndarray.t) (rs ss : list Z) (t p : nat) : list Q :=
  ndarray.row a t (patch_of (ndarray.dim1 a) p)
    (norm (ndarray.dim2 a) (rs !!! p)) (norm (ndarray.dim3 a) (ss !!! p)).

(** Element-wise sum of vectors of [n] entries. *)
Definition vsum (n : nat) (vs : list (list Q)) : list Q :=
  foldr (zip_with Qplus) (replicate n 0%Q) vs.

(** *** Library states *)

Import SeismicGFLibrary.
Local Open Scope method_scope.

(** A property of the library that a method keeps, whether it returns or
    raises. *)
Definition preserves {A} (P : SeismicGFLibrary.t -> Prop) (m : M A) : Prop :=
  forall s, P s -> P (m s).2.

(** The attributes behind the backend switch. *)
Definition switch_state (s : SeismicGFLibrary.t) : option (gmap string loc) * option loc :=
  (_stack_switch s, _sgfmatrix s).

(** The backend switch, once it exists, knows the two backends and no other. *)
Definition switch_known (s : SeismicGFLibrary.t) : Prop :=
  forall sw, _stack_switch s = Some sw -> dom sw = ({[ "numpy"; "theano" ]} : gset string).

(** A call other than [init_optimization]. *)
Definition is_query (c : call) : bool := negb (is_init c).

(** The attributes that hold the data of the library. *)
Definition data_state (s : SeismicGFLibrary.t) : list ndarray.t * option loc * option (list Z) :=
  (arrays s, _gfmatrix s, _patchidxs s).

(** The array behind [_gfmatrix]. *)
Definition gf_array (s : SeismicGFLibrary.t) : ndarray.t :=
  match _gfmatrix s with
  | Some g => arrays s !!! g
  | None => inhabitant
  end.

(** What holds of every library built by the constructor and its methods:
    the arrays fit their shapes, [_gfmatrix] refers to an array of the
    store, and [_patchidxs] is the (16 bit) range over its patch axis. *)
Definition lib_inv (s : SeismicGFLibrary.t) : Prop :=
  Forall ndarray.wf (arrays s) /\
  forall g, _gfmatrix s = Some g ->
    (g < length (arrays s))%nat /\
    _patchidxs s = Some (arange_int16 (Z.of_nat (ndarray.dim1 (arrays s !!! g)))).

(** The target dictionary [target_index_mapping] returns. *)
Definition t2i_of (s : SeismicGFLibrary.t) : gmap string nat :=
  match _target2index s with
  | Some d => d
  | None => enumerate_dict (targets s)
  end.

(** The values of the shape properties, of [stack] and of [stack_all] as
    functions of the library. *)
Definition shape_value (dim : ndarray.t -> nat) (s : SeismicGFLibrary.t) : result nat :=
  match _gfmatrix s with
  | None => Raise GFLibraryError
  | Some g => Ok (dim (arrays s !!! g))
  end.

Definition stack_value (s : SeismicGFLibrary.t) (target : string) (ps rs ss : list Z)
    (slips : list Q) : result (list Q) :=
  tidx ← dict_get (t2i_of s) target;
  match _stack_switch s with
  | None => Raise AttributeError
  | Some sw =>
      g ← dict_get sw (_mode s);
      rows ← ndarray.getitem (arrays s !!! g) (Z.of_nat tidx) ps rs ss;
      ns ← shape_value ndarray.dim4 s;
      rows ← reshape2 (length slips) ns rows;
      Ok (T_dot ns rows slips)
  end.

Definition stack_all_value (s : SeismicGFLibrary.t) (rs ss : list Z) (slips : list Q)
  : result (list (list Q)) :=
  match _sgfmatrix s with
  | None => Raise GFLibraryError
  | Some g' =>
      match _patchidxs s with
      | None => Raise ValueError
      | Some patchidxs =>
          d ← ndarray.getitem_all (arrays s !!! g') patchidxs rs ss;
          nt ← shape_value ndarray.dim0 s;
          np ← shape_value ndarray.dim1 s;
          ns ← shape_value ndarray.dim4 s;
          d ← reshape3 nt np ns d;
          y ← batched_dot (dimshuffle_102 np d) slips;
          Ok (sum_axis0 nt ns y)
      end
  end.



(** *** Fault geometry, discretisation and library states of the further properties *)

(** The key [get_subfault_key] builds for a declared datatype and
    component. *)
Definition subfault_key (d c : string) (i : Z) : string :=
  d +:+ "_" +:+ c +:+ "_" +:+ pretty i.

(** The fault with its registered sources replaced. *)
Definition with_sources (fault : FaultGeometry.t) (m : gmap string RectangularSource.t)
  : FaultGeometry.t :=
  {| FaultGeometry.datatypes := FaultGeometry.datatypes fault;
     FaultGeometry.components := FaultGeometry.components fault;
     FaultGeometry._ext_sources := m;
     FaultGeometry.ordering := FaultGeometry.ordering fault |}.

(** The registered sources after the loop of [setup_subfaults] over
    [srcs], from the index [i] on. *)
Fixpoint register (d c : string) (i : Z) (srcs : list RectangularSource.t)
    (m : gmap string RectangularSource.t) : gmap string RectangularSource.t :=
  match srcs with
  | [] => m
  | s :: rest => register d c (i + 1) rest (<[subfault_key d c i := s]> m)
  end.

(** The datatype and the component are among those the fault was built
    with. *)
Definition declared (fault : FaultGeometry.t) (d c : string) : Prop :=
  d ∈ FaultGeometry.datatypes fault /\ c ∈ FaultGeometry.components fault.





(** The patches of one subfault, with the counts of its shape. *)
Definition subfault_patches (dt : option string) (s : RectangularSource.t) (pm : PatchMap.t)
  : list RectangularSource.t :=
  RectangularSource.patches s (PatchMap.shp pm).2 (PatchMap.shp pm).1 dt.

(** The targets, the stations and the target mapping of a library. *)
Definition target_state (s : SeismicGFLibrary.t) : list string * list string * gmap string nat :=
  (targets s, stations s, t2i_of s).

(** A call of [setup]. *)
Definition is_setup (c : call) : bool :=
  match c with
  | Setup _ _ _ _ _ => true
  | _ => false
  end.

(** The library is sized, with an array of shape [sh] behind [_gfmatrix]. *)
Definition sized_as (sh : nat * nat * nat * nat * nat) (s : SeismicGFLibrary.t) : Prop :=
  exists g, _gfmatrix s = Some g /\ (g < length (arrays s))%nat /\
            ndarray.shape (arrays s !!! g) = sh.

(** Nothing of the library has been sized or prepared. *)
Definition unsized (s : SeismicGFLibrary.t) : Prop :=
  _gfmatrix s = None /\ _sgfmatrix s = None /\ _stack_switch s = None.

(** A call other than [setup] and [init_optimization]. *)
Definition is_put_or_read (c : call) : bool := negb (is_setup c) && negb (is_init c).

(** What [stack_all] and [stack] under the graph backend read: the copy
    [init_optimization] made, the extents, the patch indexes, the backend
    switch and the target mapping. *)
Definition graph_view (s : SeismicGFLibrary.t)
  : option ndarray.t * option (nat * nat * nat * nat * nat) * option (list Z)
    * option (gmap string loc) * option loc * gmap string nat :=
  ((fun g' => arrays s !!! g') <$> _sgfmatrix s,
   (fun g => ndarray.shape (arrays s !!! g)) <$> _gfmatrix s,
   _patchidxs s, _stack_switch s, _sgfmatrix s, t2i_of s).

(** The array behind [_gfmatrix] is in the store and is not the copy of the
    graph backend. *)
Definition copy_apart (s : SeismicGFLibrary.t) : Prop :=
  exists g g', _gfmatrix s = Some g /\ _sgfmatrix s = Some g' /\
               (g < length (arrays s))%nat /\ (g' < length (arrays s))%nat /\ g <> g'.

(** The weighted line-of-sight component of one observation. *)
Definition los_value (dr lr : Q * Q * Q) (w : Q) : Q :=
  ((dr.1.1 * lr.1.1 + dr.1.2 * lr.1.2 + dr.2 * lr.2) * w)%Q.

(** The column of one dataset when the displacements, the line-of-sight
    vectors and the weights have one length. *)
Definition los_column (d : list (Q * Q * Q)) (data : GeodeticDataset.t) : list Q :=
  zip_with Qmult
    (zip_with Qplus
       (zip_with Qplus
          (zip_with Qmult ((fun r => r.1.1) <$> d)
                          ((fun r => r.1.1) <$> GeodeticDataset.los_vector data))
          (zip_with Qmult ((fun r => r.1.2) <$> d)
                          ((fun r => r.1.2) <$> GeodeticDataset.los_vector data)))
       (zip_with Qmult ((fun r => r.2) <$> d)
                       ((fun r => r.2) <$> GeodeticDataset.los_vector data)))
    (GeodeticDataset.odw data).

(** *** Concrete faults and libraries used in the evaluations below *)

(** A reference plane of 10 km by 10 km. *)
Definition example_source : RectangularSource.t :=
  {| RectangularSource.length := 10000; RectangularSource.width := 10000;
     RectangularSource.rake := 0; RectangularSource.slip := 1;
     RectangularSource.opening := 0 |}.

(** The ordering of one subfault of 2 x 2 patches, [FaultOrdering([2], [2])]. *)
Definition two_by_two : FaultOrdering.t :=
  {| FaultOrdering.vmap :=
       [ {| PatchMap.count := 0; PatchMap.slc := {| start := 0; stop := 4 |};
            PatchMap.shp := (2, 2)%Z; PatchMap.npatches := 4 |} ];
     FaultOrdering.npatches := 4 |}.

(** A fault of that one subfault, registered for the seismic datatype and
    the component [Uparr]. *)
Definition one_subfault : FaultGeometry.t :=
  (FaultGeometry.setup_subfaults
     (FaultGeometry.__init__ ["seismic"] ["Uparr"] two_by_two)
     "seismic" "Uparr" [example_source] false).2.

(** A fault without subfaults, [FaultOrdering([], [])]. *)
Definition no_subfault : FaultGeometry.t :=
  FaultGeometry.__init__ ["geodetic"] ["Uparr"]
    {| FaultOrdering.vmap := []; FaultOrdering.npatches := 0 |}.

(** [SeismicGFLibrary(component='Uparr', targets=[t0], stations=[s0])] *)
Definition fresh_library : SeismicGFLibrary.t :=
  {| component := "Uparr"; targets := ["t0"]; stations := ["s0"];
     _patchidxs := None; _gfmatrix := None; _sgfmatrix := None;
     _mode := "numpy"; _stack_switch := None; _target2index := None;
     arrays := [] |}.

(** The round trip of the spec: [setup(1, 3, 2, 4, 2)], then one row put at
    patch 2, risetime 1, starttime 3 of target [t0]. *)
Definition known_row : vec Q 2 := [# 5; 7 # 2 ]%Q.

Definition round_trip_calls : list call :=
  [ Setup 1 3 2 4 2; Put (Array2 2 [known_row]) "t0" 2 [1%Z] [3%Z] ].

(** The library of the round trip after [init_optimization]. *)
Definition filled_library : SeismicGFLibrary.t :=
  (init_optimization (run fresh_library round_trip_calls)).2.

(** A library of 32769 patches, one more than a 16 bit index reaches:
    one target, one risetime, one starttime and one sample; the trace of
    patch 1 is set to 1 and every other trace is left at 0. *)
Definition wide : nat := Z.to_nat 32769.

Definition last_patch : nat := Z.to_nat 32768.

Definition wide_calls : list call :=
  [ Setup 1 32769 1 1 1; Put (Array2 1 [ [# 1%Q] ]) "t0" 1 [0%Z] [0%Z] ].

Definition wide_library : SeismicGFLibrary.t :=
  (init_optimization (run fresh_library wide_calls)).2.

(** The only (risetime, starttime) index pair there is, for every patch;
    and the slips that are 1 on the last patch and 0 on the others. *)
Definition zero_indexes : list Z := replicate wide 0%Z.

Definition last_patch_slips : list Q := replicate last_patch 0%Q ++ [1%Q].

(** The array of that library as [setup] makes it and as [put] leaves it. *)
Definition wide_zeros : ndarray.t :=
  {| ndarray.shape := (1, wide, 1, 1, 1)%nat;
     ndarray.data :=
       replicate 1 (replicate wide (replicate 1 (replicate 1 (replicate 1 0%Q)))) |}.

Definition wide_array : ndarray.t := ndarray.set_row wide_zeros 0 1 0 0 [1%Q].

(** An extended source is taken as it is, for the 23 km example. *)
Definition same_extent (s : RectangularSource.t) (_ _ _ _ : Q) : RectangularSource.t := s.

(** The doubles nearest to 9003.6 and to 1000.4
    ([float.as_integer_ratio]). *)
Definition double_9003_6 : Q := 4949781445921997 # 549755813888.
Definition double_1000_4 : Q := 8799611459416883 # 8796093022208.

Definition source_9003m : RectangularSource.t :=
  {| RectangularSource.length := double_9003_6; RectangularSource.width := double_9003_6;
     RectangularSource.rake := 0; RectangularSource.slip := 1;
     RectangularSource.opening := 0 |}.

Definition source_23km : RectangularSource.t :=
  {| RectangularSource.length := 23000; RectangularSource.width := 10000;
     RectangularSource.rake := 0; RectangularSource.slip := 1;
     RectangularSource.opening := 0 |}.


(** A synthetics engine that answers every source with one displacement
    array of two observations, and a dataset of two observations. *)
Definition unit_displacement (_ : RectangularSource.t) : result (list (list (Q * Q * Q))) :=
  Ok [ [ (1, 2, 3)%Q; (0, 1, 0)%Q ] ].

Definition one_dataset : GeodeticDataset.t :=
  {| GeodeticDataset.los_vector := [ (1, 0, 0)%Q; (0, 1, 1)%Q ];
     GeodeticDataset.odw := [ 2; 3 ]%Q |}.

(** * Properties *)

(** ** Fault ordering *)

Lemma sumZ_app l1 l2 : sumZ (l1 ++ l2) = (sumZ l1 + sumZ l2)%Z.
Proof. induction l1 as [|x l1 IH]; simpl; [done | rewrite IH; lia]. Qed.

Lemma sumZ_nonneg (l : list Z) : Forall (fun x => 0 <= x)%Z l -> (0 <= sumZ l)%Z.
Proof. induction 1 as [|x l Hx _ IH]; simpl; lia. Qed.

Lemma sumZ_take_S (l : list Z) i x :
  l !! i = Some x -> sumZ (take (S i) l) = (sumZ (take i l) + x)%Z.
Proof. intros H. rewrite (take_S_r _ _ _ H), sumZ_app. simpl. lia. Qed.

Lemma prods_app l1 l2 : prods (l1 ++ l2) = prods l1 ++ prods l2.
Proof. apply fmap_app. Qed.

Lemma length_prods l : length (prods l) = length l.
Proof. apply length_fmap. Qed.

Lemma prods_zip (npls npws : list Z) : prods (zip npls npws) = zip_with Z.mul npls npws.
Proof.
  revert npws. induction npls as [|a npls IH]; intros [|b npws]; simpl; try done.
  unfold prods in *. simpl. by rewrite IH.
Qed.

Lemma lookup_zip_Some {A B} (l1 : list A) (l2 : list B) i a b :
  zip l1 l2 !! i = Some (a, b) <-> l1 !! i = Some a /\ l2 !! i = Some b.
Proof.
  split.
  - intros H. apply lookup_zip_with_Some in H as (x & y & [= -> ->] & ? & ?). done.
  - intros [? ?]. apply lookup_zip_with_Some. eauto.
Qed.

(** The loop of the constructor in closed form. *)
Lemma fold_step_closed (l : list (Z * Z)) :
  foldl FaultOrdering.step ([], 0%Z, 0%Z) l
  = (imap (patchmap_at l) l, sumZ (prods l), Z.of_nat (length l)).
Proof.
  induction l as [|p l IH] using rev_ind; [done|].
  rewrite foldl_app, IH. destruct p as [npl npw]. simpl.
  rewrite imap_app, prods_app, sumZ_app, length_app. simpl.
  f_equal; [f_equal|lia]; [|lia].
  f_equal.
  - apply imap_ext. intros i [a b] Hi. unfold patchmap_at. simpl.
    apply lookup_lt_Some in Hi.
    rewrite prods_app, take_app_le by (rewrite length_prods; lia). done.
  - unfold patchmap_at. rewrite Nat.add_0_r. simpl.
    rewrite prods_app, take_app_length' by (by rewrite length_prods). done.
Qed.

Lemma init_closed npls npws :
  FaultOrdering.__init__ npls npws
  = Ok {| FaultOrdering.vmap := imap (patchmap_at (zip npls npws)) (zip npls npws);
          FaultOrdering.npatches := sumZ (prods (zip npls npws)) |}.
Proof. unfold FaultOrdering.__init__. by rewrite fold_step_closed. Qed.

Lemma ranges_closed (l : list (Z * Z)) :
  Forall (fun p => 0 <= p.1 * p.2)%Z l ->
  concat (slice_range ∘ PatchMap.slc <$> imap (patchmap_at l) l) = seqZ 0 (sumZ (prods l)).
Proof.
  induction l as [|p l IH] using rev_ind; [done|].
  intros H. apply Forall_app in H as [Hl Hp]. rewrite Forall_singleton in Hp.
  rewrite imap_app, fmap_app, concat_app, prods_app, sumZ_app. simpl.
  assert (0 <= sumZ (prods l))%Z as Hnn.
  { apply sumZ_nonneg. unfold prods. by apply Forall_fmap. }
  rewrite seqZ_app by lia.
  f_equal.
  - rewrite <- IH by done. f_equal. f_equal. apply imap_ext.
    intros i [a b] Hi. unfold patchmap_at. simpl. apply lookup_lt_Some in Hi.
    rewrite prods_app, take_app_le by (rewrite length_prods; lia). done.
  - unfold patchmap_at, slice_range. simpl. rewrite Nat.add_0_r, app_nil_r.
    rewrite prods_app, take_app_length' by (by rewrite length_prods).
    f_equal; lia.
Qed.

Lemma npatches_imap l' (l : list (Z * Z)) :
  PatchMap.npatches <$> imap (patchmap_at l') l = prods l.
Proof. rewrite fmap_imap. unfold prods. rewrite <- imap_const. by apply imap_ext. Qed.

(** A subfault of the ordering is found by [get_patch_indexes] under its
    position. *)
Lemma get_patch_indexes_nat fault i pm :
  FaultOrdering.vmap (FaultGeometry.ordering fault) !! i = Some pm ->
  FaultGeometry.get_patch_indexes fault (Z.of_nat i) = Ok (PatchMap.slc pm).
Proof.
  intros H. pose proof (lookup_lt_Some _ _ _ H) as Hlt.
  unfold FaultGeometry.get_patch_indexes, FaultGeometry._check_index, FaultGeometry.nsubfaults.
  destruct (Z.ltb_spec (Z.of_nat (length (FaultOrdering.vmap (FaultGeometry.ordering fault))) - 1)
              (Z.of_nat i)); [lia|].
  simpl. unfold list_get, norm_index.
  destruct (Z.leb_spec 0 (Z.of_nat i)); [|lia].
  destruct (Z.ltb_spec (Z.of_nat i) (Z.of_nat (length (FaultOrdering.vmap (FaultGeometry.ordering fault)))));
    [|lia].
  simpl. rewrite Nat2Z.id, H. done.
Qed.

(** C3: for strike and dip counts that are counts (none negative), the
    ordering built from them has one subfault per pair of counts, subfault
    [i] has [strike_counts[i] * dip_counts[i]] patches and a slice of that
    length, which [get_patch_indexes] returns; each slice starts where the
    one before stops, the slices taken in subfault order enumerate exactly
    [0, total_patch_count), and the patch counts add up to the total the
    ordering exposes. *)
Theorem fault_ordering_partition (npls npws : list Z) :
  Forall (fun n => 0 <= n)%Z npls ->
  Forall (fun n => 0 <= n)%Z npws ->
  exists o,
    FaultOrdering.__init__ npls npws = Ok o /\
    length (FaultOrdering.vmap o) = min (length npls) (length npws) /\
    (forall i pm, FaultOrdering.vmap o !! i = Some pm ->
       exists npl npw,
         npls !! i = Some npl /\ npws !! i = Some npw /\
         PatchMap.npatches pm = (npl * npw)%Z /\
         (stop (PatchMap.slc pm) - start (PatchMap.slc pm) = npl * npw)%Z /\
         forall fault, FaultGeometry.ordering fault = o ->
           FaultGeometry.get_patch_indexes fault (Z.of_nat i) = Ok (PatchMap.slc pm)) /\
    (forall i pm pm',
       FaultOrdering.vmap o !! i = Some pm -> FaultOrdering.vmap o !! S i = Some pm' ->
       start (PatchMap.slc pm') = stop (PatchMap.slc pm)) /\
    concat (slice_range ∘ PatchMap.slc <$> FaultOrdering.vmap o)
      = seqZ 0 (FaultOrdering.npatches o) /\
    sumZ (PatchMap.npatches <$> FaultOrdering.vmap o) = FaultOrdering.npatches o.
Proof.
  intros Hl Hw. eexists. split; [apply init_closed|]. simpl.
  set (l := zip npls npws).
  split; [by rewrite length_imap; unfold l; rewrite length_zip|].
  split; [|split; [|split]].
  - intros i pm Hi. rewrite list_lookup_imap in Hi.
    destruct (l !! i) as [[npl npw]|] eqn:Hli; [|done].
    injection Hi as <-. apply lookup_zip_Some in Hli as [? ?].
    exists npl, npw. simpl. repeat split; [done|done|lia|].
    intros fault Ho. apply (get_patch_indexes_nat fault i (patchmap_at l i (npl, npw))).
    rewrite Ho. simpl.
    rewrite list_lookup_imap. fold l.
    assert (l !! i = Some (npl, npw)) as -> by (by apply lookup_zip_Some). done.
  - intros i pm pm' Hi Hi'. rewrite list_lookup_imap in Hi, Hi'.
    destruct (l !! i) as [[a b]|] eqn:Hli; [|done].
    destruct (l !! S i) as [[a' b']|] eqn:Hli'; [|done].
    injection Hi as <-. injection Hi' as <-. simpl.
    apply sumZ_take_S. unfold prods. by rewrite list_lookup_fmap, Hli.
  - apply ranges_closed. apply Forall_lookup. intros i [a b] Hi.
    apply lookup_zip_Some in Hi as [Ha Hb]. simpl.
    pose proof (Forall_lookup_1 _ _ _ _ Hl Ha). pose proof (Forall_lookup_1 _ _ _ _ Hw Hb).
    simpl in *. lia.
  - by rewrite npatches_imap.
Qed.

(** Two subfaults of 2 x 4 and 3 x 1 patches: 11 patches, enumerated by the
    two slices. *)
Lemma fault_ordering_partition_witness :
  exists o,
    FaultOrdering.__init__ [2; 3]%Z [4; 1]%Z = Ok o /\
    concat (slice_range ∘ PatchMap.slc <$> FaultOrdering.vmap o) = seqZ 0 11.
Proof.
  destruct (fault_ordering_partition [2; 3]%Z [4; 1]%Z) as (o & Ho & _ & _ & _ & Hc & _).
  - repeat constructor; lia.
  - repeat constructor; lia.
  - exists o. split; [done|]. rewrite Hc. f_equal.
    vm_compute in Ho. by injection Ho as <-.
Defined.

(** C9, as stated, fails: the constructor validates nothing.  Empty lists
    and lists of different lengths give an ordering all the same. *)
Lemma fault_ordering_never_fails :
  ~ is_Raise (FaultOrdering.__init__ [] []) /\
  ~ is_Raise (FaultOrdering.__init__ [] [4%Z]) /\
  ~ is_Raise (FaultOrdering.__init__ [2; 3]%Z [4%Z]).
Proof. repeat split; intros [e He]; vm_compute in He; discriminate. Qed.

(** C9, amended: building a FaultOrdering never fails.  The two lists are
    paired position by position up to the shorter one (an empty list gives
    the empty ordering of total 0); subfault [i] gets the ordinal [i], the
    patch count [strike_counts[i] * dip_counts[i]], the grid shape, and the
    next contiguous slice: it starts at the sum of the earlier patch counts
    and has the length of the patch count. *)
Theorem fault_ordering_total (npls npws : list Z) :
  exists o,
    FaultOrdering.__init__ npls npws = Ok o /\
    length (FaultOrdering.vmap o) = min (length npls) (length npws) /\
    FaultOrdering.npatches o = sumZ (zip_with Z.mul npls npws) /\
    forall i pm, FaultOrdering.vmap o !! i = Some pm ->
      exists npl npw,
        npls !! i = Some npl /\ npws !! i = Some npw /\
        PatchMap.count pm = Z.of_nat i /\
        PatchMap.npatches pm = (npl * npw)%Z /\
        PatchMap.shp pm = (npw, npl) /\
        start (PatchMap.slc pm) = sumZ (take i (zip_with Z.mul npls npws)) /\
        stop (PatchMap.slc pm) = (start (PatchMap.slc pm) + PatchMap.npatches pm)%Z.
Proof.
  eexists. split; [apply init_closed|]. simpl.
  split; [by rewrite length_imap, length_zip|].
  split; [by rewrite prods_zip|].
  intros i pm Hi. rewrite list_lookup_imap in Hi.
  destruct (zip npls npws !! i) as [[npl npw]|] eqn:Hli; [|done].
  injection Hi as <-. apply lookup_zip_Some in Hli as [? ?].
  exists npl, npw. simpl. by rewrite prods_zip.
Qed.

(** ** Fault geometry *)

Lemma two_by_two_built : FaultOrdering.__init__ [2%Z] [2%Z] = Ok two_by_two.
Proof. reflexivity. Qed.

(** [get_subfault] returns exactly the sources registered under the key of
    the request; it has no effect on the geometry (it returns a value
    only). *)
Theorem get_subfault_registered fault index datatype component s :
  FaultGeometry.get_subfault fault index datatype component = Ok s <->
  exists key,
    FaultGeometry.get_subfault_key fault index datatype component = Ok key /\
    FaultGeometry._ext_sources fault !! key = Some s.
Proof.
  unfold FaultGeometry.get_subfault.
  destruct (FaultGeometry.get_subfault_key fault index datatype component) as [key|e]; simpl.
  - destruct (FaultGeometry._ext_sources fault !! key) as [s'|] eqn:E.
    + split; [intros [= <-]; eauto | intros (k & [= <-] & Hk); congruence].
    + split; [done | intros (k & [= <-] & Hk); congruence].
  - split; [done | intros (k & Hk & _); done].
Qed.

(** The guard [_check_index] refuses the indexes above the last subfault,
    and only those. *)
Lemma check_index_spec fault index :
  FaultGeometry._check_index fault index
  = if bool_decide (FaultGeometry.nsubfaults fault <= index)%Z then Raise TypeError else Ok tt.
Proof.
  unfold FaultGeometry._check_index.
  destruct (Z.ltb_spec (FaultGeometry.nsubfaults fault - 1) index); case_bool_decide; done || lia.
Qed.

(** X1: [get_patch_indexes] succeeds exactly on the indexes from
    [-nsubfaults] to [nsubfaults - 1]. *)
Theorem get_patch_indexes_defined fault index :
  is_Ok (FaultGeometry.get_patch_indexes fault index) <->
  (- FaultGeometry.nsubfaults fault <= index < FaultGeometry.nsubfaults fault)%Z.
Proof.
  unfold FaultGeometry.get_patch_indexes. rewrite check_index_spec.
  unfold FaultGeometry.nsubfaults, list_get.
  set (l := FaultOrdering.vmap (FaultGeometry.ordering fault)).
  case_bool_decide as Hi; simpl.
  - split; [intros [? ?]; done | lia].
  - unfold norm_index.
    destruct (Z.leb_spec 0 index), (Z.ltb_spec index (Z.of_nat (length l))); simpl; try lia.
    + destruct (l !! Z.to_nat index) as [pm|] eqn:E; simpl.
      * split; [lia | by eexists].
      * apply lookup_ge_None in E. lia.
    + destruct (Z.leb_spec (- Z.of_nat (length l)) index), (Z.ltb_spec index 0); simpl; try lia.
      * destruct (l !! Z.to_nat (index + Z.of_nat (length l))) as [pm|] eqn:E; simpl.
        -- split; [lia | by eexists].
        -- apply lookup_ge_None in E. lia.
      * split; [intros [? ?]; done | lia].
Qed.

(** C8, evaluated: on a fault of one registered subfault,
    [get_patch_indexes(-1)] returns the slice of that subfault although no
    subfault has the index -1: the guard lets negative indexes pass and the
    list of the ordering counts them from its end.  [get_subfault] refuses
    the same index, and [get_patch_indexes] refuses the index 1.  On a fault
    without subfaults [get_all_patches] returns the empty list for a pair
    nobody registered or declared. *)
Theorem get_patch_indexes_accepts_negative_index :
  FaultGeometry.nsubfaults one_subfault = 1%Z /\
  is_Ok (FaultGeometry.get_subfault one_subfault 0 (Some "seismic") (Some "Uparr")) /\
  FaultGeometry.get_patch_indexes one_subfault (-1) = Ok {| start := 0; stop := 4 |} /\
  FaultGeometry.get_subfault one_subfault (-1) (Some "seismic") (Some "Uparr")
    = Raise FaultGeometryError /\
  FaultGeometry.get_patch_indexes one_subfault 1 = Raise TypeError /\
  FaultGeometry.get_all_patches no_subfault (Some "seismic") (Some "Uperp") = Ok [].
Proof. vm_compute. repeat split; try done. by eexists. Qed.

(** ** Sizing of the seismic library by the construction function *)

(** C5, evaluated: for the fault of one subfault of 2 x 2 patches the
    geometry enumerates 4 patches, but the library is allocated with the
    number of subfaults, 1, as the extent of its patch axis; and with the
    name [event] unbound, as in the source, the call does not get as far as
    allocating. *)
Theorem library_sized_by_subfaults :
  (length <$> FaultGeometry.get_all_patches one_subfault (Some "seismic") (Some "Uparr"))
    = Ok 4%nat /\
  FaultGeometry.nsubpatches one_subfault = 4%Z /\
  seis_construct_gf_linear_alloc None ["t0"] ["s0"] one_subfault [1; 2]%Q 4 2 "Uparr"
    = Raise NameError /\
  exists gfs,
    seis_construct_gf_linear_alloc (Some tt) ["t0"] ["s0"] one_subfault [1; 2]%Q 4 2 "Uparr"
      = Ok gfs /\
    (npatches gfs).1 = Ok 1%nat.
Proof.
  split; [by vm_compute|]. split; [by vm_compute|]. split; [by vm_compute|].
  eexists. split; [by vm_compute|]. by vm_compute.
Qed.

(** ** Double precision division: the rounding error *)

Lemma two_pow_pos e : (0 < 2 ^ e)%Q.
Proof. by apply Qpower_0_lt. Qed.

Lemma two_pow_succ e : (2 ^ (e + 1) == 2 * 2 ^ e)%Q.
Proof. rewrite Qpower_plus by done. change (2 ^ 1)%Q with 2%Q. ring. Qed.

Lemma two_pow_inject (a : Z) : (0 <= a)%Z -> (inject_Z (2 ^ a) == 2 ^ a)%Q.
Proof. intros. by rewrite Zpower_Qpower. Qed.

Lemma ilog2_spec q : (0 < q)%Q -> (2 ^ ilog2 q <= q)%Q /\ (q < 2 ^ (ilog2 q + 1))%Q.
Proof.
  intros Hq. destruct q as [n d]. unfold ilog2. cbn [Qnum Qden].
  assert (0 < n)%Z as Hn.
  { unfold Qlt in Hq. cbn in Hq. lia. }
  set (a := Z.log2 n). set (b := Z.log2 (Z.pos d)).
  pose proof (Z.log2_spec n Hn) as [Ha1 Ha2]. fold a in Ha1, Ha2.
  pose proof (Z.log2_spec (Z.pos d) eq_refl) as [Hb1 Hb2]. fold b in Hb1, Hb2.
  pose proof (Z.log2_nonneg n) as Ha0. fold a in Ha0.
  pose proof (Z.log2_nonneg (Z.pos d)) as Hb0. fold b in Hb0.
  assert (n # d == inject_Z n / inject_Z (Z.pos d))%Q as Hnd by apply Qmake_Qdiv.
  assert (0 < inject_Z (Z.pos d))%Q as Hd0 by (by rewrite <- (Zlt_Qlt 0)).
  assert (forall k, (2 ^ (a - b + k) == 2 ^ k * 2 ^ a / 2 ^ b)%Q) as Hpow.
  { intros k. replace (a - b + k)%Z with (k + a + - b)%Z by lia.
    rewrite !Qpower_plus, Qpower_opp by done. by field_simplify_eq;
      [|apply Qpower_not_0]. }
  assert (2 ^ (a - b + -1) <= n # d)%Q as Hlow.
  { rewrite Hpow, Hnd. change (2 ^ (-1))%Q with (1 # 2)%Q.
    apply Qle_shift_div_l; [done|].
    assert ((1 # 2) * 2 ^ a / 2 ^ b * inject_Z (Z.pos d)
            == 2 ^ a * (inject_Z (Z.pos d) / (2 * 2 ^ b)))%Q as ->
      by (field; apply Qpower_not_0; done).
    rewrite <- (Qmult_1_r (inject_Z n)).
    apply Qle_trans with (2 ^ a * 1)%Q.
    - apply Qmult_le_l; [apply two_pow_pos|].
      apply Qle_shift_div_r; [pose proof (two_pow_pos b); lra|].
      rewrite Qmult_1_l, <- two_pow_succ, <- two_pow_inject by lia.
      rewrite <- Zle_Qle. unfold Z.succ in Hb2. lia.
    - apply Qmult_le_compat_r; [|done]. rewrite <- two_pow_inject by lia.
      by rewrite <- Zle_Qle. }
  assert (n # d < 2 ^ (a - b + 1))%Q as Hupp.
  { rewrite Hpow, Hnd. change (2 ^ 1)%Q with 2%Q.
    apply Qlt_shift_div_r; [done|].
    apply Qlt_le_trans with (2 * 2 ^ a * 1)%Q.
    - rewrite Qmult_1_r, <- two_pow_succ, <- two_pow_inject by lia.
      rewrite <- Zlt_Qlt. unfold Z.succ in Ha2. lia.
    - assert (2 * 2 ^ a / 2 ^ b * inject_Z (Z.pos d)
              == 2 * 2 ^ a * (inject_Z (Z.pos d) / 2 ^ b))%Q as ->
        by (field; apply Qpower_not_0; done).
      apply Qmult_le_l; [pose proof (two_pow_pos a); lra|].
      apply Qle_shift_div_l; [apply two_pow_pos|].
      rewrite Qmult_1_l, <- two_pow_inject by lia. by rewrite <- Zle_Qle. }
  destruct (Qle_bool (2 ^ (a - b)) (n # d)) eqn:E.
  - apply Qle_bool_iff in E. done.
  - split; [by replace (a - b - 1)%Z with (a - b + -1)%Z by lia|].
    replace (a - b - 1 + 1)%Z with (a - b)%Z by lia.
    apply Qnot_le_lt. intros H%Qle_bool_iff. congruence.
Qed.

Lemma round_half_even_bounds r :
  (r - (1 # 2) <= inject_Z (round_half_even r))%Q /\
  (inject_Z (round_half_even r) <= r + (1 # 2))%Q.
Proof.
  unfold round_half_even. pose proof (Qfloor_le r) as H1.
  pose proof (Qlt_floor r) as H2. rewrite inject_Z_plus in H2.
  change (inject_Z 1) with 1%Q in H2.
  assert (forall b : bool,
    (r - inject_Z (Qfloor r) <= 1 # 2)%Q -> (1 # 2 <= r - inject_Z (Qfloor r))%Q ->
    (r - (1 # 2) <= inject_Z (if b then Qfloor r else (Qfloor r + 1)%Z))%Q /\
    (inject_Z (if b then Qfloor r else (Qfloor r + 1)%Z) <= r + (1 # 2))%Q) as Htie.
  { intros [] ? ?; rewrite ?inject_Z_plus; change (inject_Z 1) with 1%Q; lra. }
  destruct (r - inject_Z (Qfloor r) ?= 1 # 2)%Q eqn:E.
  - apply Qeq_alt in E. apply Htie; lra.
  - apply Qlt_alt in E. lra.
  - apply Qgt_alt in E. rewrite inject_Z_plus. change (inject_Z 1) with 1%Q. lra.
Qed.

Lemma ilog2_normal q : (2 ^ (-1022) <= q)%Q -> (-1022 <= ilog2 q)%Z.
Proof.
  intros Hq.
  assert (0 < q)%Q as H0 by (eapply Qlt_le_trans; [apply (two_pow_pos (-1022))|done]).
  destruct (ilog2_spec q H0) as [_ H].
  assert (2 ^ (-1022) < 2 ^ (ilog2 q + 1))%Q as Hlt by (eapply Qle_lt_trans; eauto).
  apply Qpower_lt_compat_l_inv in Hlt; [lia|reflexivity].
Qed.

(** The relative error of rounding in the normal range is at most
    [2 ^ (-53)]. *)
Lemma round64_pos_error q r :
  (2 ^ (-1022) <= q)%Q -> round64_pos q = Some r ->
  (q * (1 - 2 ^ (-53)) <= r)%Q /\ (r <= q * (1 + 2 ^ (-53)))%Q.
Proof.
  intros Hq. pose proof (ilog2_normal q Hq) as He.
  assert (0 < q)%Q as H0 by (eapply Qlt_le_trans; [apply (two_pow_pos (-1022))|done]).
  destruct (ilog2_spec q H0) as [Hlo _].
  unfold round64_pos. rewrite Z.max_l by lia.
  set (s := (ilog2 q - 52)%Z).
  destruct (Qle_bool _ _); [done|]. intros [= <-].
  pose proof (round_half_even_bounds (q / 2 ^ s)) as [Hm1 Hm2].
  pose proof (two_pow_pos s) as Hs.
  assert (2 ^ s == 2 ^ ilog2 q * 2 ^ (-52))%Q as Hs2.
  { unfold s. replace (ilog2 q - 52)%Z with (ilog2 q + -52)%Z by lia.
    by rewrite Qpower_plus. }
  assert (2 ^ s * (1 # 2) <= q * 2 ^ (-53))%Q as Hhalf.
  { rewrite Hs2. change (2 ^ (-52))%Q with (1 # 4503599627370496)%Q.
    change (2 ^ (-53))%Q with (1 # 9007199254740992)%Q. lra. }
  assert (q == q / 2 ^ s * 2 ^ s)%Q as Hqs by (field; lra).
  split.
  - apply Qle_trans with ((q / 2 ^ s - (1 # 2)) * 2 ^ s)%Q.
    + assert ((q / 2 ^ s - (1 # 2)) * 2 ^ s == q - 2 ^ s * (1 # 2))%Q as -> by (field; lra).
      lra.
    + apply Qmult_le_compat_r; [done|lra].
  - apply Qle_trans with ((q / 2 ^ s + (1 # 2)) * 2 ^ s)%Q.
    + apply Qmult_le_compat_r; [done|lra].
    + assert ((q / 2 ^ s + (1 # 2)) * 2 ^ s == q + 2 ^ s * (1 # 2))%Q as -> by (field; lra).
      lra.
Qed.

Lemma round64_positive q : (0 < q)%Q -> round64 q = round64_pos q.
Proof. intros H. unfold round64. apply Qgt_alt in H. by rewrite H. Qed.

Lemma round64_error q r :
  (2 ^ (-1022) <= q)%Q -> round64 q = Some r ->
  (q * (1 - 2 ^ (-53)) <= r)%Q /\ (r <= q * (1 + 2 ^ (-53)))%Q.
Proof.
  intros Hq. rewrite round64_positive; [by apply round64_pos_error|].
  eapply Qlt_le_trans; [apply (two_pow_pos (-1022))|done].
Qed.

(** [round64] of the exact quotient is the quotient the machine computes:
    on the lengths of the examples below, on a quotient that is not a
    binary fraction, on a subnormal quotient and on an overflowing one. *)
Lemma round64_is_hardware_division :
  let x := double 4949781445921997 (-39) in
  let y := double 8799611459416883 (-43) in
  float_value x = Some double_9003_6 /\
  float_value y = Some double_1000_4 /\
  float_value (PrimFloat.div x y) = round64 (double_9003_6 / double_1000_4) /\
  float_value (PrimFloat.div x (double 9 0)) = round64 (double_9003_6 / 9) /\
  float_value (PrimFloat.div (double 23000 0) (double 5000 0)) = round64 (23000 / 5000) /\
  float_value (PrimFloat.div (double 1 0) (double 3 0)) = round64 (1 / 3) /\
  float_value (PrimFloat.div (double 1 (-1073)) (double 3 0)) = round64 (2 ^ (-1073) / 3) /\
  float_value (PrimFloat.div (double 1 1000) (double 1 (-1000)))
  = round64 (2 ^ 1000 / 2 ^ (-1000)).
Proof. repeat split; vm_compute; reflexivity. Qed.

(** ** discretize_sources: patch counts *)

Lemma ceil_div_inv x y n : ceil_div x y = Ok n -> n = ceil_of x y.
Proof. intros H. unfold ceil_of. by rewrite H. Qed.

Lemma foldM_invariant {A B} (P : A -> Prop) (f : A -> B -> result A) l a a' :
  (forall a b a', P a -> f a b = Ok a' -> P a') ->
  P a -> foldM f a l = Ok a' -> P a'.
Proof.
  intros Hf. revert a. induction l as [|b l IH]; intros a Ha H; simpl in H.
  - by injection H as <-.
  - destruct (f a b) as [a1|] eqn:E; [|done]. simpl in H. eauto.
Qed.

Lemma foldM_steps {A B} (f : A -> B -> result A) l a a' b :
  foldM f a l = Ok a' -> b ∈ l -> exists a0 a1, f a0 b = Ok a1.
Proof.
  revert a. induction l as [|b0 l IH]; intros a H Hb; [by apply elem_of_nil in Hb|].
  simpl in H. destruct (f a b0) as [a1|] eqn:E; [|done]. simpl in H.
  apply elem_of_cons in Hb as [->|Hb]; [by exists a, a1 | by apply (IH a1)].
Qed.

Section Counts.
Variable extent_source : RectangularSource.t -> Q -> Q -> Q -> Q -> RectangularSource.t.
Variables (ew el pw pl : Q).

Lemma foldM_count_step sources npls0 npws0 npls npws :
  foldM (count_step extent_source ew el pw pl) (npls0, npws0) sources = Ok (npls, npws) ->
  npls = npls0 ++ (npl_of extent_source ew el pw pl <$> sources) /\
  npws = npws0 ++ (npw_of extent_source ew el pw pl <$> sources).
Proof.
  revert npls0 npws0. induction sources as [|s sources IH]; intros npls0 npws0 H; simpl in H.
  - injection H as <- <-. by rewrite !app_nil_r.
  - unfold count_step at 1 in H.
    destruct (ceil_div _ pl) as [npl|] eqn:E1; [|done]. simpl in H.
    destruct (ceil_div _ pw) as [npw|] eqn:E2; [|done]. simpl in H.
    apply IH in H as [-> ->]. apply ceil_div_inv in E1, E2. subst.
    rewrite <- !app_assoc. done.
Qed.

Lemma patch_counts_inv sources npls npws :
  patch_counts extent_source ew el pw pl sources = Ok (npls, npws) ->
  npls = npl_of extent_source ew el pw pl <$> sources /\
  npws = npw_of extent_source ew el pw pl <$> sources.
Proof. intros H. by apply foldM_count_step in H. Qed.

End Counts.

Lemma setup_loop_ordering fault dt c repl i srcs :
  FaultGeometry.ordering (FaultGeometry.setup_loop fault dt c repl i srcs).2
  = FaultGeometry.ordering fault.
Proof.
  revert fault i. induction srcs as [|s srcs IH]; intros fault i; simpl; [done|].
  destruct (FaultGeometry.get_subfault_key _ _ _ _); [|done].
  destruct (_ || _); [|done]. by rewrite IH.
Qed.

Lemma setup_subfaults_ordering fault dt c srcs repl :
  FaultGeometry.ordering (FaultGeometry.setup_subfaults fault dt c srcs repl).2
  = FaultGeometry.ordering fault.
Proof.
  unfold FaultGeometry.setup_subfaults.
  destruct (FaultGeometry._check_datatype _ _); [|done].
  destruct (FaultGeometry._check_component _ _); [|done].
  case_bool_decide; [|done]. apply setup_loop_ordering.
Qed.

(** The ordering of the fault [discretize_sources] returns is the one built
    from the ceilings of extended dimension over patch dimension. *)
Lemma discretize_sources_ordering extent_source ew el pw pl sources datatypes varnames fault :
  discretize_sources extent_source ew el pw pl sources datatypes varnames = Ok fault ->
  FaultOrdering.__init__ (npl_of extent_source ew el pw pl <$> sources)
                         (npw_of extent_source ew el pw pl <$> sources)
  = Ok (FaultGeometry.ordering fault).
Proof.
  unfold discretize_sources. intros H.
  destruct (_ && _); [done|]. destruct (_ && _); [done|].
  destruct (patch_counts _ _ _ _ _ _) as [[npls npws]|] eqn:E; [|done]. simpl in H.
  apply patch_counts_inv in E as [-> ->].
  destruct (FaultOrdering.__init__ _ _) as [o|] eqn:Eo; [|done]. simpl in H.
  f_equal.
  revert H. apply (foldM_invariant (fun f => o = FaultGeometry.ordering f)); [|done].
  intros f dt f' Hf. apply (foldM_invariant (fun f1 => o = FaultGeometry.ordering f1)); [|done].
  intros f1 var f1' Hf1. unfold register_component.
  destruct (dict_get _ _) as [pm|]; [|done]. simpl.
  match goal with |- context [FaultGeometry.setup_subfaults ?a ?b ?c ?d ?e] =>
    pose proof (setup_subfaults_ordering a b c d e) as Ho;
    destruct (FaultGeometry.setup_subfaults a b c d e) as [[?|?] f2] end; [|done].
  intros [= <-]. simpl in Ho. congruence.
Qed.

Lemma Qceiling_pos (x : Q) : (0 < x)%Q -> (0 < Qceiling x)%Z.
Proof.
  intros H. pose proof (Qle_ceiling x) as Hc.
  assert (0 < inject_Z (Qceiling x))%Q as H1 by (eapply Qlt_le_trans; eauto).
  rewrite (Zlt_Qlt 0 (Qceiling x)). done.
Qed.

Lemma ceil_div_Ok x y n :
  ceil_div x y = Ok n ->
  ~ (y == 0)%Q /\ exists q, round64 (x / y) = Some q /\ n = Qceiling q.
Proof.
  unfold ceil_div, float_div. destruct (Qeq_bool y 0) eqn:E; [done|].
  apply Qeq_bool_neq in E. cbn [mbind result_bind].
  destruct (round64 (x / y)) as [q|]; [|done]. intros [= <-]. eauto.
Qed.

(** Every source of a successful [discretize_sources] had both of its
    patch counts computed. *)
Lemma discretize_sources_counts extent_source ew el pw pl sources datatypes varnames fault :
  discretize_sources extent_source ew el pw pl sources datatypes varnames = Ok fault ->
  forall source, source ∈ sources ->
    let ext := extent_source source ew el pw pl in
    ceil_div (RectangularSource.length ext) pl = Ok (npl_of extent_source ew el pw pl source) /\
    ceil_div (RectangularSource.width ext) pw = Ok (npw_of extent_source ew el pw pl source).
Proof.
  intros H source Hin ext. unfold discretize_sources in H.
  destruct (_ && _); [done|]. destruct (_ && _); [done|].
  destruct (patch_counts _ _ _ _ _ _) as [[npls npws]|] eqn:E; [|done].
  destruct (foldM_steps _ _ _ _ source E Hin) as ([npls0 npws0] & a1 & Hstep).
  unfold count_step in Hstep. fold ext in Hstep.
  destruct (ceil_div _ pl) as [npl|] eqn:E1; [|done]. cbn [mbind result_bind] in Hstep.
  destruct (ceil_div _ pw) as [npw|] eqn:E2; [|done].
  apply ceil_div_inv in E1 as E1', E2 as E2'. unfold npl_of, npw_of. fold ext.
  by rewrite <- E1', <- E2'.
Qed.

(** A dimension [x] cut into [n] patches gives patches no larger than the
    target [y] exactly when the exact quotient [x / y] is at most [n]. *)
Lemma patch_size_le_iff (x y : Q) (n : Z) :
  (0 < y)%Q -> (0 < n)%Z -> (x / inject_Z n <= y)%Q <-> (x / y <= inject_Z n)%Q.
Proof.
  intros Hy Hn. assert (0 < inject_Z n)%Q as Hn' by (by rewrite <- (Zlt_Qlt 0)).
  rewrite <- (Qmult_le_r (x / inject_Z n) y (inject_Z n)) by done.
  rewrite <- (Qmult_le_r (x / y) (inject_Z n) y) by done.
  assert (x / inject_Z n * inject_Z n == x)%Q as -> by (field; lra).
  assert (x / y * y == x)%Q as -> by (field; lra).
  by rewrite (Qmult_comm y).
Qed.

(** With the quotient in the normal range of the doubles the count is
    positive and the patches exceed the target by the rounding error of the
    quotient at most. *)
Lemma patch_size_tolerance (x y q : Q) :
  (0 < y)%Q -> (2 ^ (-1022) <= x / y)%Q -> round64 (x / y) = Some q ->
  (0 < Qceiling q)%Z /\ (x / inject_Z (Qceiling q) * (1 - 2 ^ (-53)) <= y)%Q.
Proof.
  intros Hy Hq Hr. destruct (round64_error _ _ Hq Hr) as [Hlo _].
  pose proof (two_pow_pos (-1022)) as Hmin. pose proof (Qle_ceiling q) as Hc.
  change (2 ^ (-53))%Q with (1 # 9007199254740992)%Q in *.
  assert (0 < q)%Q as Hq0.
  { eapply Qlt_le_trans; [|exact Hlo].
    apply Qmult_lt_0_compat; [lra|reflexivity]. }
  pose proof (Qceiling_pos q Hq0) as Hn. split; [done|].
  assert (0 < inject_Z (Qceiling q))%Q as Hn' by (by rewrite <- (Zlt_Qlt 0)).
  rewrite <- (Qmult_le_r _ y (inject_Z (Qceiling q))) by done.
  assert (x / inject_Z (Qceiling q) * (1 - (1 # 9007199254740992)) * inject_Z (Qceiling q)
          == x / y * (1 - (1 # 9007199254740992)) * y)%Q as -> by (field; lra).
  rewrite (Qmult_comm y). apply Qmult_le_compat_r; lra.
Qed.

(** The size along dip for a count that a double holds exactly. *)
Lemma patch_size_exact_count subfault npw :
  (0 < npw <= 2 ^ 53)%Z ->
  FaultGeometry.patch_size subfault npw
  = Ok (round64 (RectangularSource.width subfault / inject_Z npw)).
Proof.
  intros Hn. unfold FaultGeometry.patch_size, int_to_float.
  rewrite (proj2 (Z.leb_le _ _)) by lia. cbn [mbind result_bind]. unfold float_div.
  destruct (Qeq_bool (inject_Z npw) 0) eqn:E; [|done].
  apply Qeq_bool_iff in E. unfold Qeq in E. cbn in E. lia.
Qed.

(** C6: when [discretize_sources] returns a fault for positive target patch
    dimensions, subfault [i] of its ordering has the grid shape
    [(ceil(qw), ceil(ql))], where [ql] and [qw] are the double precision
    quotients of extended length over patch length and of extended width
    over patch width of reference source [i].  With the count along dip
    [get_subfault_starttime_bound] takes the double precision quotient of
    extended width over count for the patch size.  On either axis the
    extended dimension over the count is at most the target exactly when
    the exact quotient of dimension over target is at most the count; with
    that quotient in the normal range of the doubles the count is positive
    and the extended dimension over the count is at most the target over
    [1 - 2 ^ (-53)]. *)
Theorem discretize_patch_counts extent_source ew el pw pl sources datatypes varnames fault :
  (0 < pl)%Q -> (0 < pw)%Q ->
  discretize_sources extent_source ew el pw pl sources datatypes varnames = Ok fault ->
  forall i source, sources !! i = Some source ->
    let ext := extent_source source ew el pw pl in
    let L := RectangularSource.length ext in
    let W := RectangularSource.width ext in
    exists ql qw pm,
      round64 (L / pl) = Some ql /\ round64 (W / pw) = Some qw /\
      FaultOrdering.vmap (FaultGeometry.ordering fault) !! i = Some pm /\
      PatchMap.shp pm = (Qceiling qw, Qceiling ql) /\
      ((0 < Qceiling qw <= 2 ^ 53)%Z ->
         FaultGeometry.patch_size ext (Qceiling qw)
         = Ok (round64 (W / inject_Z (Qceiling qw)))) /\
      ((0 < Qceiling ql)%Z ->
         (L / inject_Z (Qceiling ql) <= pl)%Q <-> (L / pl <= inject_Z (Qceiling ql))%Q) /\
      ((0 < Qceiling qw)%Z ->
         (W / inject_Z (Qceiling qw) <= pw)%Q <-> (W / pw <= inject_Z (Qceiling qw))%Q) /\
      ((2 ^ (-1022) <= L / pl)%Q ->
         (0 < Qceiling ql)%Z /\
         (L / inject_Z (Qceiling ql) * (1 - 2 ^ (-53)) <= pl)%Q) /\
      ((2 ^ (-1022) <= W / pw)%Q ->
         (0 < Qceiling qw)%Z /\
         (W / inject_Z (Qceiling qw) * (1 - 2 ^ (-53)) <= pw)%Q).
Proof.
  intros Hpl Hpw H i source Hi ext L W.
  destruct (discretize_sources_counts _ _ _ _ _ _ _ _ _ H source
              (list_elem_of_lookup_2 _ _ _ Hi)) as [Hl Hw].
  fold ext in Hl, Hw. fold L in Hl. fold W in Hw.
  destruct (ceil_div_Ok _ _ _ Hl) as (_ & ql & Hql & Enl).
  destruct (ceil_div_Ok _ _ _ Hw) as (_ & qw & Hqw & Enw).
  apply discretize_sources_ordering in H. rewrite init_closed in H. injection H as H.
  exists ql, qw. eexists. split; [done|]. split; [done|]. split.
  { rewrite <- H. simpl. rewrite list_lookup_imap.
    assert (zip (npl_of extent_source ew el pw pl <$> sources)
                (npw_of extent_source ew el pw pl <$> sources) !! i
            = Some (npl_of extent_source ew el pw pl source,
                    npw_of extent_source ew el pw pl source)) as ->.
    { apply lookup_zip_Some. by rewrite !list_lookup_fmap, Hi. }
    done. }
  cbn [PatchMap.shp fst snd]. split; [by rewrite Enl, Enw|].
  split; [apply patch_size_exact_count|].
  split; [by apply patch_size_le_iff|]. split; [by apply patch_size_le_iff|].
  split; intros Hq; by apply patch_size_tolerance.
Qed.

(** The example of the spec: an extended length of 23 km cut into patches
    of at most 5 km gives 5 patches along strike, each 4.6 km long; the
    extended width of 10 km gives 2 patches along dip of size 5 km. *)
Lemma discretize_23km :
  exists fault pm sz,
    discretize_sources same_extent (1 # 10) (1 # 10) 5000 5000
      [source_23km] ["seismic"] ["Uparr"] = Ok fault /\
    FaultOrdering.vmap (FaultGeometry.ordering fault) !! 0%nat = Some pm /\
    PatchMap.shp pm = (2, 5)%Z /\
    (RectangularSource.length source_23km / inject_Z (PatchMap.shp pm).2 == 4600)%Q /\
    (RectangularSource.length source_23km / inject_Z (PatchMap.shp pm).2 <= 5000)%Q /\
    FaultGeometry.patch_size source_23km (PatchMap.shp pm).1 = Ok (Some sz) /\
    (sz == 5000)%Q.
Proof.
  destruct (discretize_sources same_extent (1 # 10) (1 # 10) 5000 5000
              [source_23km] ["seismic"] ["Uparr"]) as [fault|e] eqn:E;
    [|vm_compute in E; discriminate].
  destruct (discretize_patch_counts same_extent (1 # 10) (1 # 10) 5000 5000
              [source_23km] ["seismic"] ["Uparr"] fault eq_refl eq_refl E
              0%nat source_23km eq_refl)
    as (ql & qw & pm & Hql & Hqw & Hpm & Hshp & Hsz & Hl & _ & _).
  vm_compute in Hql. injection Hql as <-. vm_compute in Hqw. injection Hqw as <-.
  match type of Hsz with ?P -> _ =>
    assert P as Hb by (vm_compute; split; [reflexivity|discriminate]) end.
  specialize (Hsz Hb).
  match type of Hl with ?P -> _ => assert P as Hc by (vm_compute; reflexivity) end.
  apply Hl in Hc as [_ Hc].
  match type of Hsz with _ = Ok ?r =>
    eassert (r = Some _) as Er by (vm_compute; reflexivity) end.
  rewrite Er in Hsz.
  match type of Hshp with _ = (?a, ?b) =>
    assert (a = 2%Z) as Hw by (vm_compute; reflexivity);
    assert (b = 5%Z) as Hn by (vm_compute; reflexivity) end.
  rewrite Hw in Hsz. rewrite Hn in Hc.
  eexists fault, pm, _. split; [done|]. split; [done|].
  rewrite Hshp, Hw, Hn. split; [done|]. cbn [fst snd].
  split; [by vm_compute|]. split; [apply Hc; by vm_compute|].
  split; [exact Hsz|]. by vm_compute.
Defined.

(** The two lengths 9003.6 m and 1000.4 m, as doubles: the exact quotient
    lies just above 9, its ceiling is 10, but the double precision quotient
    is 9.  [discretize_sources] makes 9 patches on each axis, whose size,
    exact or as [get_subfault_starttime_bound] computes it, exceeds the
    target. *)
Lemma discretize_rounds_quotient_down :
  exists fault pm sz,
    discretize_sources same_extent (1 # 10) (1 # 10) double_1000_4 double_1000_4
      [source_9003m] ["seismic"] ["Uparr"] = Ok fault /\
    FaultOrdering.vmap (FaultGeometry.ordering fault) !! 0%nat = Some pm /\
    PatchMap.shp pm = (9, 9)%Z /\
    Qceiling (RectangularSource.length source_9003m / double_1000_4) = 10%Z /\
    (double_1000_4 < RectangularSource.length source_9003m / inject_Z 9)%Q /\
    FaultGeometry.patch_size source_9003m 9 = Ok (Some sz) /\
    (double_1000_4 < sz)%Q.
Proof.
  destruct (discretize_sources same_extent (1 # 10) (1 # 10) double_1000_4 double_1000_4
              [source_9003m] ["seismic"] ["Uparr"]) as [fault|e] eqn:E;
    [|vm_compute in E; discriminate].
  pose proof (discretize_sources_ordering _ _ _ _ _ _ _ _ _ E) as Ho.
  match type of Ho with ?l = _ =>
    eassert (l = Ok _) as Hv by (vm_compute; reflexivity) end.
  rewrite Hv in Ho. injection Ho as Ho.
  exists fault. rewrite <- Ho. eexists _, _. split; [done|].
  repeat split; vm_compute; reflexivity.
Qed.

(** ** The library: what the methods leave unchanged *)

Section Preserves.
Context (P : SeismicGFLibrary.t -> Prop).

Lemma preserves_ret {A} (a : A) : preserves P (ret a).
Proof. by intros s. Qed.

Lemma preserves_raise {A} e : preserves P (@raise A e).
Proof. by intros s. Qed.

Lemma preserves_lift {A} (r : result A) : preserves P (lift r).
Proof. by intros s. Qed.

Lemma preserves_get : preserves P get.
Proof. by intros s. Qed.

Lemma preserves_deref g : preserves P (deref g).
Proof. by intros s. Qed.

Lemma preserves_bind {A B} (m : M A) (f : A -> M B) :
  preserves P m -> (forall a, preserves P (f a)) -> preserves P (bind m f).
Proof.
  intros Hm Hf s Hs. unfold bind. specialize (Hm s Hs).
  destruct (m s) as [[a|e] s']; simpl in *; [by apply Hf | done].
Qed.

Lemma preserves_modify f : (forall s, P s -> P (f s)) -> preserves P (modify f).
Proof. intros Hf s Hs. by apply Hf. Qed.

Lemma preserves_alloc a : (forall s v, P s -> P (set_arrays v s)) -> preserves P (alloc a).
Proof. intros Hf s Hs. by apply Hf. Qed.

Lemma preserves_store g a : (forall s v, P s -> P (set_arrays v s)) -> preserves P (store g a).
Proof. intros Hf s Hs. by apply Hf. Qed.

End Preserves.

Ltac pres_step :=
  lazymatch goal with
  | |- preserves _ (ret _) => apply preserves_ret
  | |- preserves _ (raise _) => apply preserves_raise
  | |- preserves _ (lift _) => apply preserves_lift
  | |- preserves _ get => apply preserves_get
  | |- preserves _ (deref _) => apply preserves_deref
  | |- preserves _ (bind _ _) => apply preserves_bind; [|intros ?]
  | |- preserves _ (modify _) => apply preserves_modify; intros ? ?
  | |- preserves _ (alloc _) => apply preserves_alloc; intros ? ? ?
  | |- preserves _ (store _ _) => apply preserves_store; intros ? ? ?
  | |- preserves _ (match ?x with _ => _ end) => destruct x eqn:?
  end.
Ltac pres := repeat pres_step.

(** Only [init_optimization] touches the backend switch. *)

Lemma check_setup_switch x : preserves (fun s => switch_state s = x) _check_setup.
Proof. unfold _check_setup. pres. Qed.

Lemma target_index_mapping_switch x :
  preserves (fun s => switch_state s = x) target_index_mapping.
Proof. unfold target_index_mapping. pres. done. Qed.

Lemma shape_of_switch x dim : preserves (fun s => switch_state s = x) (shape_of dim).
Proof. unfold shape_of. pres. apply check_setup_switch. Qed.

Lemma setup_switch x n0 n1 n2 n3 n4 :
  preserves (fun s => switch_state s = x) (setup n0 n1 n2 n3 n4).
Proof. unfold setup, nstations. pres; done. Qed.

Lemma set_stack_mode_switch x mode :
  preserves (fun s => switch_state s = x) (set_stack_mode mode).
Proof. unfold set_stack_mode. pres. done. Qed.

Lemma put_switch x e tg p rs ss :
  preserves (fun s => switch_state s = x) (put e tg p rs ss).
Proof.
  unfold put. pres; try done.
  - apply shape_of_switch.
  - apply check_setup_switch.
  - apply target_index_mapping_switch.
Qed.

Lemma stack_switch x tg ps rs ss sl :
  preserves (fun s => switch_state s = x) (stack tg ps rs ss sl).
Proof.
  unfold stack. pres; try done.
  - apply target_index_mapping_switch.
  - apply shape_of_switch.
Qed.

Lemma stack_all_switch x rs ss sl :
  preserves (fun s => switch_state s = x) (stack_all rs ss sl).
Proof. unfold stack_all. pres; try done; apply shape_of_switch. Qed.

Lemma preserves_via_switch {A} (Q : option (gmap string loc) * option loc -> Prop) (m : M A) :
  (forall x, preserves (fun s => switch_state s = x) m) ->
  preserves (fun s => Q (switch_state s)) m.
Proof. intros H s Hs. by rewrite (H _ s eq_refl). Qed.

Lemma exec_switch x s c :
  is_init c = false -> switch_state s = x -> switch_state (exec s c) = x.
Proof.
  intros Hc Hs. destruct c; simpl in *; try done.
  - by apply setup_switch.
  - by apply put_switch.
  - by apply set_stack_mode_switch.
  - by apply stack_switch.
  - by apply stack_all_switch.
Qed.

Lemma init_optimization_switch_known : preserves switch_known init_optimization.
Proof.
  unfold init_optimization. pres.
  - done.
  - done.
  - intros sw [= <-]. rewrite dom_insert_L, dom_singleton_L. done.
  - apply (preserves_via_switch (fun x => forall sw, x.1 = Some sw -> dom sw = _)).
    intros x. apply set_stack_mode_switch.
Qed.

Lemma exec_switch_known s c : switch_known s -> switch_known (exec s c).
Proof.
  intros Hs. destruct (is_init c) eqn:Hc.
  - destruct c; try done. simpl. by apply init_optimization_switch_known.
  - unfold switch_known.
    assert (switch_state (exec s c) = switch_state s) as E by (by apply exec_switch).
    unfold switch_state in E. injection E as -> _. done.
Qed.

Lemma run_switch_known s cs : switch_known s -> switch_known (run s cs).
Proof.
  unfold run. revert s. induction cs as [|c cs IH]; intros s Hs; simpl; [done|].
  apply IH. by apply exec_switch_known.
Qed.

Lemma run_switch x s cs :
  forallb is_query cs = true -> switch_state s = x -> switch_state (run s cs) = x.
Proof.
  unfold run. revert s. induction cs as [|c cs IH]; intros s Hcs Hs; simpl in *; [done|].
  apply andb_prop in Hcs as [Hc Hcs]. apply IH; [done|].
  apply exec_switch; [|done]. unfold is_query in Hc. by destruct (is_init c).
Qed.

(** C7: on every library, that is on the library the constructor returns
    after any sequence of method calls, [set_stack_mode] with a name other
    than the two backends raises and leaves the library as it was; and as
    long as [init_optimization] is not among the calls, [stack_all] raises
    [GFLibraryError]. *)
Theorem unknown_mode_and_early_stack_all_fail component targets stations lib cs :
  SeismicGFLibrary.__init__ component targets stations = Ok lib ->
  (forall mode, mode <> "numpy" -> mode <> "theano" ->
     is_Raise (set_stack_mode mode (run lib cs)).1 /\
     (set_stack_mode mode (run lib cs)).2 = run lib cs) /\
  (forallb is_query cs = true ->
     forall risetimeidxs starttimeidxs slips,
       (stack_all risetimeidxs starttimeidxs slips (run lib cs)).1 = Raise GFLibraryError).
Proof.
  intros Hinit. unfold SeismicGFLibrary.__init__ in Hinit.
  destruct component as [c|]; [|done]. injection Hinit as <-.
  split.
  - intros mode Hn Ht.
    match goal with |- context [run ?l cs] =>
      assert (switch_known (run l cs)) as Hk by (by apply run_switch_known) end.
    unfold set_stack_mode, bind, get.
    destruct (_stack_switch (run _ cs)) as [sw|] eqn:Hsw.
    + case_bool_decide as Hin.
      * rewrite (Hk sw Hsw) in Hin.
        apply elem_of_union in Hin as [Hin|Hin]; apply elem_of_singleton in Hin; done.
      * split; [by eexists|done].
    + split; [by eexists|done].
  - intros Hcs rs ss slips.
    match goal with |- context [run ?l cs] =>
      pose proof (run_switch _ l cs Hcs eq_refl) as Hk end.
    unfold switch_state in Hk. simpl in Hk. injection Hk as _ Hk.
    unfold stack_all, bind, get. by rewrite Hk.
Qed.

(** On the library of the round trip, without and with
    [init_optimization]: the mode ["bogus"] is refused in both, and
    [stack_all] is refused in the first. *)
Lemma unknown_mode_and_early_stack_all_fail_witness :
  is_Raise (set_stack_mode "bogus" (run fresh_library round_trip_calls)).1 /\
  is_Raise (set_stack_mode "bogus"
              (run fresh_library (round_trip_calls ++ [InitOptimization]))).1 /\
  (stack_all [0; 0; 0]%Z [0; 0; 0]%Z [1; 1; 1]%Q (run fresh_library round_trip_calls)).1
    = Raise GFLibraryError.
Proof.
  split; [|split].
  - by apply (unknown_mode_and_early_stack_all_fail (Some "Uparr") ["t0"] ["s0"]
                fresh_library round_trip_calls eq_refl).
  - by apply (unknown_mode_and_early_stack_all_fail (Some "Uparr") ["t0"] ["s0"]
                fresh_library (round_trip_calls ++ [InitOptimization]) eq_refl).
  - by apply (unknown_mode_and_early_stack_all_fail (Some "Uparr") ["t0"] ["s0"]
                fresh_library round_trip_calls eq_refl).
Defined.

(** ** The library: the values of its queries *)

Lemma shape_of_run dim s : shape_of dim s = (shape_value dim s, s).
Proof.
  unfold shape_of, shape_value, _check_setup, bind, get, raise, ret, deref.
  destruct (_gfmatrix s) eqn:E; simpl; [|done]. by rewrite E.
Qed.

Lemma target_index_mapping_run s :
  target_index_mapping s = (Ok (t2i_of s), set_target2index (Some (t2i_of s)) s).
Proof.
  unfold target_index_mapping, t2i_of, bind, get, modify, ret. simpl.
  destruct (_target2index s) eqn:E; simpl; [|done].
  f_equal. destruct s; simpl in *. by rewrite E.
Qed.

(** [stack] returns [stack_value]. *)
Lemma stack_fst s target ps rs ss slips :
  (stack target ps rs ss slips s).1 = stack_value s target ps rs ss slips.
Proof.
  unfold stack, stack_value, target_index_mapping, t2i_of, bind, get, modify, ret, lift, raise, deref.
  destruct (_target2index s) as [d|] eqn:Ed; simpl.
  - destruct (dict_get d target) as [tidx|]; simpl; [|done].
    destruct (_stack_switch s) as [sw|]; simpl; [|done].
    destruct (dict_get sw (_mode s)) as [g|]; simpl; [|done].
    destruct (ndarray.getitem _ _ _ _ _) as [rows|]; simpl; [|done].
    unfold nsamples. rewrite shape_of_run. destruct (shape_value _ s) as [ns|]; simpl; [|done].
    destruct (reshape2 _ _ _); done.
  - destruct (dict_get _ target) as [tidx|]; simpl; [|done].
    destruct (_stack_switch s) as [sw|]; simpl; [|done].
    destruct (dict_get sw (_mode s)) as [g|]; simpl; [|done].
    destruct (ndarray.getitem _ _ _ _ _) as [rows|]; simpl; [|done].
    unfold nsamples. rewrite shape_of_run. unfold shape_value. simpl.
    destruct (_gfmatrix s) as [g0|]; simpl; [|done].
    destruct (reshape2 _ _ _); done.
Qed.

(** [stack_all] returns [stack_all_value] and leaves the library as it is. *)
Lemma stack_all_run s rs ss slips :
  stack_all rs ss slips s = (stack_all_value s rs ss slips, s).
Proof.
  unfold stack_all, stack_all_value, ntargets, npatches, nsamples.
  unfold bind at 1, get at 1.
  destruct (_sgfmatrix s) as [g'|]; [|done].
  unfold bind at 1, deref at 1.
  destruct (_patchidxs s) as [pidx|]; [|done].
  unfold bind at 1, lift at 1.
  destruct (ndarray.getitem_all _ _ _ _) as [d|]; [|done]. simpl.
  unfold bind at 1. rewrite shape_of_run. destruct (shape_value ndarray.dim0 s); [|done].
  unfold bind at 1. rewrite shape_of_run. destruct (shape_value ndarray.dim1 s); [|done].
  unfold bind at 1. rewrite shape_of_run. destruct (shape_value ndarray.dim4 s); [|done].
  unfold bind at 1, lift at 1. simpl. destruct (reshape3 _ _ _ _); [|done].
  unfold bind at 1, lift at 1. simpl. by destruct (batched_dot _ _).
Qed.

(** ** Indexes, gathers and reshapes *)

Lemma norm_index_valid n i : valid_index n i -> norm_index n i = Ok (norm n i).
Proof.
  unfold valid_index, norm_index, norm. intros H.
  destruct (Z.leb_spec 0 i), (Z.ltb_spec i (Z.of_nat n)); simpl; try done; try lia.
  destruct (Z.leb_spec (- Z.of_nat n) i), (Z.ltb_spec i 0); simpl; try done; lia.
Qed.

Lemma norm_lt n i : valid_index n i -> (norm n i < n)%nat.
Proof. unfold valid_index, norm. intros H. destruct (Z.leb_spec 0 i); lia. Qed.

Lemma norm_index_nat n (i : nat) : (i < n)%nat -> norm_index n (Z.of_nat i) = Ok i.
Proof.
  intros H. rewrite norm_index_valid by (unfold valid_index; lia).
  unfold norm. destruct (Z.leb_spec 0 (Z.of_nat i)); [|lia]. by rewrite Nat2Z.id.
Qed.

Lemma norm_index_inv n i k : norm_index n i = Ok k -> valid_index n i /\ k = norm n i.
Proof.
  unfold valid_index, norm_index, norm.
  destruct (Z.leb_spec 0 i), (Z.ltb_spec i (Z.of_nat n)); simpl; try (intros [= <-]; split; [lia|done]).
  all: destruct (Z.leb_spec (- Z.of_nat n) i), (Z.ltb_spec i 0); simpl; try done;
    try lia; try (intros [= <-]; split; [lia|done]).
Qed.

Lemma wrap16_small z : (-32768 <= z < 32768)%Z -> wrap16 z = z.
Proof. intros H. unfold wrap16. rewrite Z.mod_small by lia. lia. Qed.

Lemma seqZ_seq (n : nat) : seqZ 0 (Z.of_nat n) = Z.of_nat <$> seq 0 n.
Proof.
  apply list_eq. intros i. rewrite list_lookup_fmap.
  destruct (decide (i < n)%nat).
  - rewrite lookup_seqZ_lt by lia. rewrite lookup_seq_lt by done. simpl. f_equal; lia.
  - rewrite lookup_seqZ_ge by lia. rewrite lookup_seq_ge by lia. done.
Qed.

Lemma arange_int16_nat (n : nat) :
  arange_int16 (Z.of_nat n) = (fun p => wrap16 (Z.of_nat p)) <$> seq 0 n.
Proof. unfold arange_int16. by rewrite seqZ_seq, <- list_fmap_compose. Qed.

(** Up to 65536 patches every stored patch index is one numpy accepts;
    up to 32768 patches it is the patch itself. *)
Lemma wrap16_valid (n p : nat) :
  (Z.of_nat n <= 65536)%Z -> (p < n)%nat -> valid_index n (wrap16 (Z.of_nat p)).
Proof.
  intros Hn Hp. unfold valid_index, wrap16.
  destruct (decide (Z.of_nat p < 32768)%Z) as [Hlt|Hge].
  - rewrite Z.mod_small by lia. lia.
  - replace (Z.of_nat p + 32768)%Z with (Z.of_nat p - 32768 + 1 * 65536)%Z by lia.
    rewrite Z_mod_plus_full, Z.mod_small by lia. lia.
Qed.

Lemma patch_of_small (n p : nat) :
  (Z.of_nat n <= 32768)%Z -> (p < n)%nat -> patch_of n p = p.
Proof.
  intros Hn Hp. unfold patch_of. rewrite wrap16_small by lia.
  unfold norm. destruct (Z.leb_spec 0 (Z.of_nat p)); lia.
Qed.

Lemma mapM_ok {A B} (f : A -> result B) (g : A -> B) (l : list A) :
  (forall x, x ∈ l -> f x = Ok (g x)) -> mapM f l = Ok (g <$> l).
Proof.
  induction l as [|x l IH]; intros H; simpl; [done|].
  rewrite H by left. simpl. rewrite IH; [done|]. intros y Hy. apply H. by right.
Qed.

Lemma list_as_seq {A} `{Inhabited A} (l : list A) :
  l = (fun i => l !!! i) <$> seq 0 (length l).
Proof.
  apply list_eq. intros i. rewrite list_lookup_fmap.
  destruct (decide (i < length l)%nat).
  - rewrite lookup_seq_lt by done. simpl. by apply list_lookup_lookup_total_lt.
  - rewrite lookup_seq_ge by lia. simpl. apply lookup_ge_None. lia.
Qed.

Lemma zip_fmap_seq {A B} (f : nat -> A) (g : nat -> B) n :
  zip (f <$> seq 0 n) (g <$> seq 0 n) = (fun i => (f i, g i)) <$> seq 0 n.
Proof.
  generalize 0%nat. induction n as [|n IH]; intros k; simpl; [done|]. by rewrite IH.
Qed.

(** chunks *)
Lemma chunks_concat {A} k (l : list (list A)) :
  Forall (fun r => length r = k) l -> chunks k (length l) (concat l) = l.
Proof.
  induction 1 as [|r l Hr _ IH]; simpl; [done|].
  rewrite take_app_length' by done. rewrite drop_app_length' by done. by rewrite IH.
Qed.

Lemma length_concat_uniform {A} k (l : list (list A)) :
  Forall (fun r => length r = k) l -> length (concat l) = (length l * k)%nat.
Proof.
  induction 1 as [|r l Hr _ IH]; simpl; [done|]. rewrite length_app, IH, Hr. lia.
Qed.

Lemma bshape_same n : bshape n n = Ok n.
Proof. unfold bshape. by rewrite bool_decide_eq_true_2. Qed.

Lemma bcast_same {A} `{Inhabited A} n (l : list A) : length l = n -> bcast n l = l.
Proof. intros Hl. unfold bcast. by rewrite bool_decide_eq_true_2. Qed.

Lemma length_arange_int16 (n : nat) : length (arange_int16 (Z.of_nat n)) = n.
Proof. unfold arange_int16. rewrite length_fmap, length_seqZ. lia. Qed.

Lemma positions_arange a rs ss :
  (Z.of_nat (ndarray.dim1 a) <= 65536)%Z ->
  length rs = ndarray.dim1 a -> length ss = ndarray.dim1 a ->
  Forall (valid_index (ndarray.dim2 a)) rs -> Forall (valid_index (ndarray.dim3 a)) ss ->
  ndarray.positions a (arange_int16 (Z.of_nat (ndarray.dim1 a))) rs ss
  = Ok ((fun p => (patch_of (ndarray.dim1 a) p,
                   norm (ndarray.dim2 a) (rs !!! p), norm (ndarray.dim3 a) (ss !!! p)))
          <$> seq 0 (ndarray.dim1 a)).
Proof.
  intros Hp Hrs Hss Hr Hs. unfold ndarray.positions.
  rewrite length_arange_int16, Hrs, bshape_same. simpl. rewrite Hss, bshape_same. simpl.
  rewrite !bcast_same by (by rewrite ?length_arange_int16).
  rewrite arange_int16_nat.
  rewrite (list_as_seq rs) at 1. rewrite (list_as_seq ss) at 1. rewrite Hrs, Hss.
  rewrite !zip_fmap_seq.
  rewrite (mapM_ok _ (fun i : Z * Z * Z =>
             (norm (ndarray.dim1 a) i.1.1, norm (ndarray.dim2 a) i.1.2,
              norm (ndarray.dim3 a) i.2))).
  - by rewrite <- list_fmap_compose.
  - intros x Hx. apply list_elem_of_fmap in Hx as (p & -> & Hp'). simpl.
    apply elem_of_seq in Hp'.
    rewrite (norm_index_valid _ _ (wrap16_valid _ p Hp ltac:(lia))). simpl.
    assert (rs !! p = Some (rs !!! p)) as Hrp by (apply list_lookup_lookup_total_lt; lia).
    assert (ss !! p = Some (ss !!! p)) as Hsp by (apply list_lookup_lookup_total_lt; lia).
    rewrite (norm_index_valid _ _ (Forall_lookup_1 _ _ _ _ Hr Hrp)). simpl.
    by rewrite (norm_index_valid _ _ (Forall_lookup_1 _ _ _ _ Hs Hsp)).
Qed.

Lemma positions_same_length a n ps rs ss :
  length ps = n -> length rs = n -> length ss = n ->
  ndarray.positions a ps rs ss
  = mapM (fun i : Z * Z * Z =>
            p ← norm_index (ndarray.dim1 a) i.1.1;
            r ← norm_index (ndarray.dim2 a) i.1.2;
            s ← norm_index (ndarray.dim3 a) i.2;
            Ok (p, r, s))
         (zip (zip ps rs) ss).
Proof.
  intros Hp Hr Hs. unfold ndarray.positions.
  rewrite Hp, Hr, Hs, bshape_same. cbn [mbind result_bind]. rewrite bshape_same.
  cbn [mbind result_bind]. by rewrite !bcast_same.
Qed.

Lemma positions_single a (p : nat) r s :
  (p < ndarray.dim1 a)%nat -> valid_index (ndarray.dim2 a) r -> valid_index (ndarray.dim3 a) s ->
  ndarray.positions a [Z.of_nat p] [r] [s]
  = Ok [(p, norm (ndarray.dim2 a) r, norm (ndarray.dim3 a) s)].
Proof.
  intros Hp Hr Hs. rewrite (positions_same_length a 1) by done. simpl.
  rewrite norm_index_nat by done. simpl.
  rewrite (norm_index_valid _ _ Hr). simpl. rewrite (norm_index_valid _ _ Hs). done.
Qed.

Lemma row_length a t p r s :
  ndarray.wf a -> (t < ndarray.dim0 a)%nat -> (p < ndarray.dim1 a)%nat ->
  (r < ndarray.dim2 a)%nat -> (s < ndarray.dim3 a)%nat ->
  length (ndarray.row a t p r s) = ndarray.dim4 a.
Proof.
  intros [H0 Hw] Ht Hp Hr Hs. unfold ndarray.row.
  assert (ndarray.data a !! t = Some (ndarray.data a !!! t)) as E0
    by (apply list_lookup_lookup_total_lt; lia).
  destruct (Forall_lookup_1 _ _ _ _ Hw E0) as [H1 Hw1].
  assert ((ndarray.data a !!! t) !! p = Some ((ndarray.data a !!! t) !!! p)) as E1
    by (apply list_lookup_lookup_total_lt; lia).
  destruct (Forall_lookup_1 _ _ _ _ Hw1 E1) as [H2 Hw2].
  assert (((ndarray.data a !!! t) !!! p) !! r = Some (((ndarray.data a !!! t) !!! p) !!! r)) as E2
    by (apply list_lookup_lookup_total_lt; lia).
  destruct (Forall_lookup_1 _ _ _ _ Hw2 E2) as [H3 Hw3].
  assert ((((ndarray.data a !!! t) !!! p) !!! r) !! s
          = Some ((((ndarray.data a !!! t) !!! p) !!! r) !!! s)) as E3
    by (apply list_lookup_lookup_total_lt; lia).
  exact (Forall_lookup_1 _ _ _ _ Hw3 E3).
Qed.

Lemma reshape3_id n0 n1 n2 (d : list (list (list Q))) :
  length d = n0 ->
  Forall (fun dt => length dt = n1 /\ Forall (fun r => length r = n2) dt) d ->
  reshape3 n0 n1 n2 d = Ok d.
Proof.
  intros Hd Hw. unfold reshape3.
  assert (Forall (fun dt : list (list Q) => length dt = n1) d) as Hw1
    by (eapply Forall_impl; [exact Hw|]; by intros ? [? ?]).
  assert (Forall (fun r : list Q => length r = n2) (concat d)) as Hw2.
  { apply Forall_concat. eapply Forall_impl; [exact Hw|]. by intros ? [? ?]. }
  assert (length (concat d) = (n0 * n1)%nat) as Hc
    by (by rewrite (length_concat_uniform n1), Hd).
  rewrite (length_concat_uniform n2), Hc by done.
  rewrite bool_decide_eq_true_2 by done.
  rewrite <- Hc, chunks_concat by done. rewrite <- Hd, chunks_concat by done. done.
Qed.

Lemma reshape2_id k ns (rows : list (list Q)) :
  length rows = k -> Forall (fun r => length r = ns) rows -> reshape2 k ns rows = Ok rows.
Proof.
  intros Hk Hw. unfold reshape2.
  rewrite (length_concat_uniform ns), Hk by done.
  rewrite bool_decide_eq_true_2 by done. by rewrite <- Hk, chunks_concat.
Qed.

Lemma Qplus_0_r_L (x : Q) : (x + 0)%Q = x.
Proof.
  destruct x as [a b]. unfold Qplus. simpl. f_equal; [lia|]. apply Pos.mul_1_r.
Qed.

Lemma Qmult_comm_L (x y : Q) : (x * y)%Q = (y * x)%Q.
Proof. unfold Qmult. f_equal; [lia|]. apply Pos.mul_comm. Qed.

Lemma fmap_seq_ext {A} (f g : nat -> A) n :
  (forall i, (i < n)%nat -> f i = g i) -> f <$> seq 0 n = g <$> seq 0 n.
Proof.
  intros H. apply list_fmap_ext. intros i x Hx. apply lookup_seq in Hx as [-> ?]. by apply H.
Qed.

Lemma zip_with_fmap_seq {A B C} (F : A -> B -> C) (f : nat -> A) (g : nat -> B) n :
  zip_with F (f <$> seq 0 n) (g <$> seq 0 n) = (fun i => F (f i) (g i)) <$> seq 0 n.
Proof. generalize 0%nat. induction n as [|n IH]; intros k; simpl; [done|]. by rewrite IH. Qed.

Lemma replicate_as_seq {A} n (x : A) : replicate n x = (fun _ => x) <$> seq 0 n.
Proof.
  generalize 0%nat. induction n as [|n IH]; intros k; simpl; [done|]. f_equal. apply IH.
Qed.

Lemma vsum_closed (f : nat -> nat -> Q) n (l : list nat) :
  vsum n ((fun p => (fun j => f p j) <$> seq 0 n) <$> l)
  = (fun j => Qsum ((fun p => f p j) <$> l)) <$> seq 0 n.
Proof.
  induction l as [|p l IH].
  - apply replicate_as_seq.
  - change (vsum n ((fun p => (fun j => f p j) <$> seq 0 n) <$> p :: l))
      with (zip_with Qplus ((fun j => f p j) <$> seq 0 n)
              (vsum n ((fun p => (fun j => f p j) <$> seq 0 n) <$> l))).
    rewrite IH. by rewrite zip_with_fmap_seq.
Qed.

Lemma contraction n0 n1 n2 (d : list (list (list Q))) (slips : list Q) :
  length d = n0 ->
  Forall (fun dt => length dt = n1 /\ Forall (fun r => length r = n2) dt) d ->
  length slips = n1 ->
  (y ← batched_dot (dimshuffle_102 n1 d) slips; Ok (sum_axis0 n0 n2 y))
  = Ok ((fun t => (fun j => Qsum ((fun p => ((((d !!! t) !!! p) !!! j) * (slips !!! p))%Q)
                                   <$> seq 0 n1)) <$> seq 0 n2) <$> seq 0 n0).
Proof.
  intros Hd Hw Hs. unfold batched_dot, dimshuffle_102.
  rewrite length_fmap, length_seq, bool_decide_eq_true_2 by done. simpl. f_equal.
  rewrite (list_as_seq slips) at 1. rewrite Hs, zip_with_fmap_seq.
  unfold sum_axis0. apply fmap_seq_ext. intros t Ht. apply fmap_seq_ext. intros j Hj.
  rewrite <- list_fmap_compose. f_equal. apply fmap_seq_ext. intros p Hp. simpl.
  assert (d !! t = Some (d !!! t)) as Et by (apply list_lookup_lookup_total_lt; lia).
  destruct (Forall_lookup_1 _ _ _ _ Hw Et) as [H1 Hw1].
  assert ((d !!! t) !! p = Some ((d !!! t) !!! p)) as Ep
    by (apply list_lookup_lookup_total_lt; lia).
  pose proof (Forall_lookup_1 _ _ _ _ Hw1 Ep) as H2. simpl in H2.
  rewrite (@list_lookup_total_fmap (list Q) (list Q) _ _ _) by (rewrite length_fmap; lia).
  rewrite (@list_lookup_total_fmap (list (list Q)) (list Q) _ _ _) by lia.
  rewrite (@list_lookup_total_fmap Q Q _ _ _) by lia. done.
Qed.

(** ** The library: what holds of every library *)

Lemma lib_inv_data s s' : data_state s' = data_state s -> lib_inv s -> lib_inv s'.
Proof. unfold data_state, lib_inv. intros [= -> -> ->]. done. Qed.

Lemma check_setup_data x : preserves (fun s => data_state s = x) _check_setup.
Proof. unfold _check_setup. pres. Qed.
Lemma target_index_mapping_data x : preserves (fun s => data_state s = x) target_index_mapping.
Proof. unfold target_index_mapping. pres. done. Qed.
Lemma shape_of_data x dim : preserves (fun s => data_state s = x) (shape_of dim).
Proof. unfold shape_of. pres. apply check_setup_data. Qed.
Lemma set_stack_mode_data x mode : preserves (fun s => data_state s = x) (set_stack_mode mode).
Proof. unfold set_stack_mode. pres. done. Qed.
Lemma stack_data x tg ps rs ss sl : preserves (fun s => data_state s = x) (stack tg ps rs ss sl).
Proof.
  unfold stack. pres; try done.
  - apply target_index_mapping_data.
  - apply shape_of_data.
Qed.
Lemma stack_all_data x rs ss sl : preserves (fun s => data_state s = x) (stack_all rs ss sl).
Proof. unfold stack_all. pres; try done; apply shape_of_data. Qed.

Lemma zeros_wf n0 n1 n2 n3 n4 a :
  ndarray.zeros n0 n1 n2 n3 n4 = Ok a ->
  ndarray.wf a /\ (0 <= n1)%Z /\ ndarray.dim1 a = Z.to_nat n1.
Proof.
  unfold ndarray.zeros. case_bool_decide as H; [|done]. intros [= <-].
  split; [|split; [lia|done]].
  unfold ndarray.wf, ndarray.dim0, ndarray.dim1, ndarray.dim2, ndarray.dim3, ndarray.dim4. simpl.
  split; [by rewrite length_replicate|].
  apply Forall_replicate. split; [by rewrite length_replicate|].
  apply Forall_replicate. split; [by rewrite length_replicate|].
  apply Forall_replicate. split; [by rewrite length_replicate|].
  apply Forall_replicate. by rewrite length_replicate.
Qed.

Lemma wf_inhabitant : ndarray.wf inhabitant.
Proof. by split. Qed.

Lemma wf_lookup_total (l : list ndarray.t) g : Forall ndarray.wf l -> ndarray.wf (l !!! g).
Proof.
  intros H. destruct (l !! g) as [a|] eqn:E.
  - rewrite (list_lookup_total_correct _ _ _ E). by eapply Forall_lookup_1.
  - rewrite list_lookup_total_alt, E. apply wf_inhabitant.
Qed.

Lemma setup_run n0 n1 n2 n3 n4 s :
  setup n0 n1 n2 n3 n4 s
  = if bool_decide (n0 ≠ Z.of_nat (length (stations s))) then (Raise GFLibraryError, s)
    else match ndarray.zeros n0 n1 n2 n3 n4 with
         | Raise e => (Raise e, s)
         | Ok a => (Ok tt, set_patchidxs (Some (arange_int16 n1))
                            (set_gfmatrix (Some (length (arrays s)))
                               (set_arrays (arrays s ++ [a]) s)))
         end.
Proof.
  unfold setup, nstations, bind, get, ret, lift, alloc, modify, raise. simpl.
  case_bool_decide; [done|]. by destruct (ndarray.zeros _ _ _ _ _).
Qed.

Lemma setup_inv n0 n1 n2 n3 n4 s : lib_inv s -> lib_inv (setup n0 n1 n2 n3 n4 s).2.
Proof.
  intros [Hw Hg]. rewrite setup_run. case_bool_decide; [by split|].
  destruct (ndarray.zeros _ _ _ _ _) as [a|] eqn:E; [|by split].
  apply zeros_wf in E as (Ha & Hn & Hd). simpl. split; simpl.
  - apply Forall_app. split; [done|]. by apply Forall_singleton.
  - intros g [= <-]. rewrite length_app. simpl. split; [lia|].
    rewrite list_lookup_total_middle by done. rewrite Hd, Z2Nat.id by done. done.
Qed.

Lemma theano_in_switch (g g' : loc) :
  bool_decide ("theano" ∈ dom ({[ "numpy" := g; "theano" := g' ]} : gmap string loc)) = true.
Proof.
  apply bool_decide_eq_true_2. rewrite dom_insert_L, dom_singleton_L.
  apply elem_of_union_r. by apply elem_of_singleton.
Qed.

Lemma init_optimization_run s :
  init_optimization s
  = match _gfmatrix s with
    | None => (Raise AttributeError, s)
    | Some g =>
        (Ok tt,
         set_mode "theano"
           (set_stack_switch (Some {[ "numpy" := g; "theano" := length (arrays s) ]})
              (set_sgfmatrix (Some (length (arrays s)))
                 (set_arrays (arrays s ++ [arrays s !!! g]) s))))
    end.
Proof.
  unfold init_optimization, set_stack_mode, bind, get, ret, lift, alloc, deref, modify, raise.
  simpl. destruct (_gfmatrix s) as [g|]. 2:{ done. } simpl. by rewrite theano_in_switch.
Qed.

Lemma init_optimization_inv s : lib_inv s -> lib_inv (init_optimization s).2.
Proof.
  intros [Hw Hg]. rewrite init_optimization_run.
  destruct (_gfmatrix s) as [g|] eqn:E; [|simpl; split; [done|]; intros g Hg0; congruence].
  simpl. split; simpl.
  - apply Forall_app. split; [done|]. apply Forall_singleton. by apply wf_lookup_total.
  - intros g0 Hg0. rewrite E in Hg0. injection Hg0 as <-.
    destruct (Hg g eq_refl) as [Hlt Hp]. rewrite length_app. split; [lia|].
    by rewrite lookup_total_app_l.
Qed.

Lemma set_row_wf a t p r s v :
  ndarray.wf a -> length v = ndarray.dim4 a -> ndarray.wf (ndarray.set_row a t p r s v).
Proof.
  intros [H0 Hw] Hv. unfold ndarray.wf, ndarray.set_row, ndarray.dim0, ndarray.dim1,
    ndarray.dim2, ndarray.dim3, ndarray.dim4 in *. simpl.
  split; [by rewrite length_alter|].
  apply Forall_alter; [done|]. intros a0 _ [H1 Hw1]. split; [by rewrite length_alter|].
  apply Forall_alter; [done|]. intros a1 _ [H2 Hw2]. split; [by rewrite length_alter|].
  apply Forall_alter; [done|]. intros a2 _ [H3 Hw3]. split; [by rewrite length_insert|].
  by apply Forall_insert.
Qed.

Lemma set_rows_wf (t : nat) (ws : list ((nat * nat * nat) * list Q)) a :
  ndarray.wf a -> Forall (fun w => length w.2 = ndarray.dim4 a) ws ->
  let a' := foldl (fun a (w : (nat * nat * nat) * list Q) =>
                     ndarray.set_row a t w.1.1.1 w.1.1.2 w.1.2 w.2) a ws in
  ndarray.wf a' /\ ndarray.shape a' = ndarray.shape a.
Proof.
  revert a. induction ws as [|w ws IH]; intros a Ha Hws; simpl; [done|].
  apply Forall_cons in Hws as [Hw Hws].
  destruct (IH (ndarray.set_row a t w.1.1.1 w.1.1.2 w.1.2 w.2)) as [H1 H2].
  - by apply set_row_wf.
  - done.
  - split; [done|]. by rewrite H2.
Qed.

Lemma setitem_wf a tidx p rs ss rows a' :
  ndarray.wf a -> Forall (fun v => length v = ndarray.dim4 a) rows ->
  ndarray.setitem a tidx p rs ss rows = Ok a' ->
  ndarray.wf a' /\ ndarray.shape a' = ndarray.shape a.
Proof.
  intros Ha Hrows. unfold ndarray.setitem.
  destruct (ndarray.positions a [p] rs ss) as [pos|]; [|done]. simpl.
  set (rows' := if bool_decide (length rows = length pos) then Ok rows
                else if bool_decide (length rows = 1%nat)
                     then Ok (replicate (length pos) (rows !!! 0%nat))
                     else Raise ValueError).
  assert (forall r, rows' = Ok r -> Forall (fun v => length v = ndarray.dim4 a) r) as Hr.
  { intros r. unfold rows'. case_bool_decide; [by intros [= <-]|].
    case_bool_decide as H1; [|done]. intros [= <-]. apply Forall_replicate.
    destruct rows as [|v [|]]; try done. simpl. by apply Forall_cons in Hrows as [? _]. }
  destruct rows' as [r|]; [|done]. simpl. specialize (Hr r eq_refl).
  destruct (norm_index _ tidx) as [t|]; [|done]. simpl. intros [= <-].
  apply set_rows_wf; [done|].
  apply Forall_forall. intros [i v] Hin. apply elem_of_zip_r in Hin. simpl.
  rewrite Forall_forall in Hr. by apply Hr.
Qed.

Lemma put_run ncols (rows : list (vec Q ncols)) tg p rs ss s :
  put (Array2 ncols rows) tg p rs ss s
  = match shape_value ndarray.dim4 s with
    | Raise e => (Raise e, s)
    | Ok ns =>
        if bool_decide (ncols ≠ ns) then (Raise GFLibraryError, s)
        else
          let s1 := set_target2index (Some (t2i_of s)) s in
          match dict_get (t2i_of s) tg with
          | Raise e => (Raise e, s1)
          | Ok tidx =>
              match _gfmatrix s with
              | None => (Raise TypeError, s1)
              | Some g =>
                  match ndarray.setitem (arrays s !!! g) (Z.of_nat tidx) p rs ss
                          (vec_to_list <$> rows) with
                  | Raise e => (Raise e, s1)
                  | Ok a' => (Ok tt, set_arrays (<[g := a']> (arrays s)) s1)
                  end
              end
          end
    end.
Proof.
  unfold put, nsamples. unfold bind at 1. rewrite shape_of_run.
  destruct (shape_value _ s) as [ns|] eqn:Ens; [|done].
  case_bool_decide; [done|].
  unfold bind at 1. unfold _check_setup at 1. unfold bind at 1, get at 1. 
  unfold shape_value in Ens. destruct (_gfmatrix s) as [g|] eqn:Eg; [|done].
  unfold ret at 1. unfold bind at 1. rewrite target_index_mapping_run.
  unfold bind at 1, lift at 1.
  destruct (dict_get (t2i_of s) tg) as [tidx|]; [|done].
  unfold bind at 1, get at 1. simpl. rewrite Eg.
  unfold bind, deref, lift, store, modify. simpl.
  by destruct (ndarray.setitem _ _ _ _ _ _).
Qed.

Lemma put_inv e tg p rs ss s : lib_inv s -> lib_inv (put e tg p rs ss s).2.
Proof.
  intros Hs. destruct e as [xs|ncols rows]; [done|]. rewrite put_run.
  destruct (shape_value _ s) as [ns|] eqn:Ens; [|done].
  case_bool_decide as Hn; [done|]. simpl.
  assert (lib_inv (set_target2index (Some (t2i_of s)) s)) as Hs1 by done.
  destruct (dict_get _ tg) as [tidx|]; [|done].
  destruct (_gfmatrix s) as [g|] eqn:Eg; [|done].
  destruct (ndarray.setitem _ _ _ _ _ _) as [a'|] eqn:Ea; [|done]. simpl.
  unfold shape_value in Ens. rewrite Eg in Ens. injection Ens as <-.
  destruct Hs as [Hw Hg]. destruct (Hg g Eg) as [Hlt Hp].
  apply setitem_wf in Ea as [Ha' Hsh].
  - split; simpl.
    + by apply Forall_insert.
    + intros g0. rewrite Eg. intros [= <-]. rewrite length_insert. split; [done|].
      rewrite list_lookup_total_insert_eq by done. rewrite Hp.
      unfold ndarray.dim1. by rewrite Hsh.
  - by apply wf_lookup_total.
  - apply Forall_fmap, Forall_forall. intros v _. simpl. by rewrite length_vec_to_list.
Qed.

Lemma exec_inv s c : lib_inv s -> lib_inv (exec s c).
Proof.
  intros Hs. destruct c; simpl.
  - by apply setup_inv.
  - by apply init_optimization_inv.
  - by apply put_inv.
  - eapply lib_inv_data; [|done]. by apply set_stack_mode_data.
  - eapply lib_inv_data; [|done]. by apply stack_data.
  - eapply lib_inv_data; [|done]. by apply stack_all_data.
Qed.

Lemma run_inv s cs : lib_inv s -> lib_inv (run s cs).
Proof.
  unfold run. revert s. induction cs as [|c cs IH]; intros s Hs; simpl; [done|].
  apply IH. by apply exec_inv.
Qed.

Lemma init_inv component targets stations lib :
  SeismicGFLibrary.__init__ component targets stations = Ok lib -> lib_inv lib.
Proof.
  unfold SeismicGFLibrary.__init__. destruct component; [|done]. intros [= <-].
  split; simpl; [constructor|done].
Qed.

(** ** stack_all in closed form *)

Lemma read_trace_length a rs ss t p :
  ndarray.wf a -> (Z.of_nat (ndarray.dim1 a) <= 65536)%Z ->
  length rs = ndarray.dim1 a -> length ss = ndarray.dim1 a ->
  Forall (valid_index (ndarray.dim2 a)) rs -> Forall (valid_index (ndarray.dim3 a)) ss ->
  (t < ndarray.dim0 a)%nat -> (p < ndarray.dim1 a)%nat ->
  length (read_trace a rs ss t p) = ndarray.dim4 a.
Proof.
  intros Ha Hn Hrs Hss Hr Hs Ht Hp. apply row_length; try done.
  - apply norm_lt. by apply wrap16_valid.
  - apply norm_lt. eapply Forall_lookup_1; [exact Hr|].
    apply list_lookup_lookup_total_lt. lia.
  - apply norm_lt. eapply Forall_lookup_1; [exact Hs|].
    apply list_lookup_lookup_total_lt. lia.
Qed.

Lemma read_trace_small a rs ss t p :
  (Z.of_nat (ndarray.dim1 a) <= 32768)%Z -> (p < ndarray.dim1 a)%nat ->
  read_trace a rs ss t p = trace a rs ss t p.
Proof. intros Hn Hp. unfold read_trace, trace. by rewrite patch_of_small. Qed.

Lemma getitem_all_arange a rs ss :
  (Z.of_nat (ndarray.dim1 a) <= 65536)%Z ->
  length rs = ndarray.dim1 a -> length ss = ndarray.dim1 a ->
  Forall (valid_index (ndarray.dim2 a)) rs -> Forall (valid_index (ndarray.dim3 a)) ss ->
  ndarray.getitem_all a (arange_int16 (Z.of_nat (ndarray.dim1 a))) rs ss
  = Ok ((fun t => (fun p => read_trace a rs ss t p) <$> seq 0 (ndarray.dim1 a))
          <$> seq 0 (ndarray.dim0 a)).
Proof.
  intros. unfold ndarray.getitem_all. rewrite positions_arange by done. simpl. f_equal.
  apply list_fmap_ext. intros i t Ht.
  rewrite <- list_fmap_compose. done.
Qed.

(** The contraction of [stack_all] on an array of up to 65536 patches:
    what is summed for patch [p] is the trace its stored index reads. *)
Lemma stack_all_read a rs ss slips :
  ndarray.wf a ->
  (Z.of_nat (ndarray.dim1 a) <= 65536)%Z ->
  length rs = ndarray.dim1 a -> length ss = ndarray.dim1 a -> length slips = ndarray.dim1 a ->
  Forall (valid_index (ndarray.dim2 a)) rs -> Forall (valid_index (ndarray.dim3 a)) ss ->
  (d ← ndarray.getitem_all a (arange_int16 (Z.of_nat (ndarray.dim1 a))) rs ss;
   d ← reshape3 (ndarray.dim0 a) (ndarray.dim1 a) (ndarray.dim4 a) d;
   y ← batched_dot (dimshuffle_102 (ndarray.dim1 a) d) slips;
   Ok (sum_axis0 (ndarray.dim0 a) (ndarray.dim4 a) y))
  = Ok ((fun t => (fun j => Qsum ((fun p => (slips !!! p * (read_trace a rs ss t p !!! j))%Q)
                                   <$> seq 0 (ndarray.dim1 a)))
                   <$> seq 0 (ndarray.dim4 a))
          <$> seq 0 (ndarray.dim0 a)).
Proof.
  intros Ha Hp Hrs Hss Hsl Hr Hs. rewrite getitem_all_arange by done.
  cbn [mbind result_bind].
  set (d := (fun t => (fun p => read_trace a rs ss t p) <$> seq 0 (ndarray.dim1 a))
              <$> seq 0 (ndarray.dim0 a)).
  assert (length d = ndarray.dim0 a) as Hd by (unfold d; by rewrite length_fmap, length_seq).
  assert (Forall (fun dt => length dt = ndarray.dim1 a /\
                            Forall (fun r : list Q => length r = ndarray.dim4 a) dt) d) as Hw.
  { unfold d. apply Forall_fmap, Forall_forall. intros t Ht. apply elem_of_seq in Ht. simpl.
    split; [by rewrite length_fmap, length_seq|].
    apply Forall_fmap, Forall_forall. intros p Hp'. apply elem_of_seq in Hp'. simpl.
    apply read_trace_length; try done; lia. }
  rewrite reshape3_id by done. cbn [mbind result_bind].
  rewrite (contraction (ndarray.dim0 a) (ndarray.dim1 a) (ndarray.dim4 a)) by done.
  f_equal. apply fmap_seq_ext. intros t Ht. apply fmap_seq_ext. intros j Hj.
  f_equal. apply fmap_seq_ext. intros p Hp'.
  rewrite Qmult_comm_L. f_equal. f_equal. unfold d.
  rewrite (@list_lookup_total_fmap nat (list (list Q)) _ _ _) by (by rewrite length_seq).
  rewrite (@list_lookup_total_fmap nat (list Q) _ _ _) by (by rewrite length_seq).
  by rewrite !lookup_total_seq_lt.
Qed.

Lemma stack_all_closed a rs ss slips :
  ndarray.wf a ->
  (Z.of_nat (ndarray.dim1 a) <= 32768)%Z ->
  length rs = ndarray.dim1 a -> length ss = ndarray.dim1 a -> length slips = ndarray.dim1 a ->
  Forall (valid_index (ndarray.dim2 a)) rs -> Forall (valid_index (ndarray.dim3 a)) ss ->
  (d ← ndarray.getitem_all a (arange_int16 (Z.of_nat (ndarray.dim1 a))) rs ss;
   d ← reshape3 (ndarray.dim0 a) (ndarray.dim1 a) (ndarray.dim4 a) d;
   y ← batched_dot (dimshuffle_102 (ndarray.dim1 a) d) slips;
   Ok (sum_axis0 (ndarray.dim0 a) (ndarray.dim4 a) y))
  = Ok ((fun t => (fun j => Qsum ((fun p => (slips !!! p * (trace a rs ss t p !!! j))%Q)
                                   <$> seq 0 (ndarray.dim1 a)))
                   <$> seq 0 (ndarray.dim4 a))
          <$> seq 0 (ndarray.dim0 a)).
Proof.
  intros Ha Hp Hrs Hss Hsl Hr Hs. rewrite stack_all_read by (done || lia).
  f_equal. apply fmap_seq_ext. intros t Ht. apply fmap_seq_ext. intros j Hj.
  f_equal. apply fmap_seq_ext. intros p Hp'. by rewrite read_trace_small.
Qed.

(** ** stack_all beyond the reach of 16 bit patch indexes *)

Lemma wide_eq : Z.of_nat wide = 32769%Z.
Proof. unfold wide. lia. Qed.

Lemma wide_zeros_built : ndarray.zeros 1 32769 1 1 1 = Ok wide_zeros.
Proof. unfold ndarray.zeros. rewrite bool_decide_eq_true_2 by lia. reflexivity. Qed.

(** From here on [wide] is kept folded: the proofs below go by rewriting,
    never by evaluation of a list of 32769 entries. *)
#[local] Opaque wide.

Lemma wide_setup :
  (setup 1 32769 1 1 1 fresh_library).2
  = set_patchidxs (Some (arange_int16 32769))
      (set_gfmatrix (Some 0%nat) (set_arrays [wide_zeros] fresh_library)).
Proof.
  rewrite setup_run. rewrite bool_decide_eq_false_2 by (simpl; lia).
  rewrite wide_zeros_built. reflexivity.
Qed.

#[local] Opaque arange_int16.

Lemma wide_put :
  ndarray.setitem wide_zeros 0 1 [0%Z] [0%Z] [ [1%Q] ] = Ok wide_array.
Proof.
  assert (ndarray.positions wide_zeros [1%Z] [0%Z] [0%Z] = Ok [(1, 0, 0)%nat]) as H.
  { apply (positions_single wide_zeros 1 0 0).
    - change (ndarray.dim1 wide_zeros) with wide. pose proof wide_eq as Hw. revert Hw. generalize wide. intros; lia.
    - unfold valid_index. change (ndarray.dim2 wide_zeros) with 1%nat. lia.
    - unfold valid_index. change (ndarray.dim3 wide_zeros) with 1%nat. lia. }
  unfold ndarray.setitem. rewrite H. reflexivity.
Qed.

Lemma t0_index : dict_get (enumerate_dict ["t0"]) "t0" = Ok 0%nat.
Proof. by vm_compute. Qed.

Lemma wide_run :
  run fresh_library wide_calls
  = set_arrays [wide_array]
      (set_target2index (Some (enumerate_dict ["t0"]))
         (set_patchidxs (Some (arange_int16 32769))
            (set_gfmatrix (Some 0%nat) (set_arrays [wide_zeros] fresh_library)))).
Proof.
  unfold run, wide_calls. cbn [foldl exec].
  rewrite wide_setup. rewrite put_run.
  cbn [shape_value _gfmatrix set_patchidxs set_gfmatrix set_arrays arrays].
  change ([wide_zeros] !!! 0%nat) with wide_zeros.
  change (ndarray.dim4 wide_zeros) with 1%nat.
  rewrite bool_decide_eq_false_2 by (intros H; by apply H).
  cbv zeta.
  unfold t2i_of.
  cbn [_target2index targets set_patchidxs set_gfmatrix set_arrays fresh_library].
  rewrite t0_index.
  cbn [_gfmatrix set_patchidxs set_gfmatrix set_arrays set_target2index arrays].
  change ([wide_zeros] !!! 0%nat) with wide_zeros.
  change (Z.of_nat 0) with 0%Z.
  change (vec_to_list <$> [ [# 1%Q] ]) with [ [1%Q] ].
  rewrite wide_put. reflexivity.
Qed.

(** [stack_all] after [init_optimization], up to 65536 patches: the trace
    read for a patch is that of the patch its 16 bit index selects. *)
Lemma stack_all_after_init component targets stations lib cs s' rs ss slips :
  SeismicGFLibrary.__init__ component targets stations = Ok lib ->
  init_optimization (run lib cs) = (Ok tt, s') ->
  let a := gf_array (run lib cs) in
  (Z.of_nat (ndarray.dim1 a) <= 65536)%Z ->
  length rs = ndarray.dim1 a -> length ss = ndarray.dim1 a -> length slips = ndarray.dim1 a ->
  Forall (valid_index (ndarray.dim2 a)) rs -> Forall (valid_index (ndarray.dim3 a)) ss ->
  stack_all rs ss slips s'
  = (Ok ((fun t => (fun j => Qsum ((fun p => (slips !!! p * (read_trace a rs ss t p !!! j))%Q)
                                    <$> seq 0 (ndarray.dim1 a)))
                    <$> seq 0 (ndarray.dim4 a))
           <$> seq 0 (ndarray.dim0 a)), s').
Proof.
  intros Hlib Hinit a Hp Hrs Hss Hsl Hr Hs.
  pose proof (run_inv lib cs (init_inv _ _ _ _ Hlib)) as [Hw Hg].
  rewrite init_optimization_run in Hinit.
  destruct (_gfmatrix (run lib cs)) as [g|] eqn:Eg; [|done].
  destruct (Hg g eq_refl) as [Hlt Hpidx].
  assert (a = arrays (run lib cs) !!! g) as Ea by (unfold a, gf_array; by rewrite Eg).
  rewrite <- Ea in Hpidx.
  assert (ndarray.wf a) as Ha by (rewrite Ea; by apply wf_lookup_total).
  injection Hinit as <-.
  set (s' := set_mode _ _).
  assert (forall dim, shape_value dim s' = Ok (dim a)) as Hshape.
  { intros dim. unfold shape_value, s'. simpl. rewrite Eg.
    by rewrite lookup_total_app_l, Ea. }
  rewrite stack_all_run. unfold stack_all_value.
  replace (_sgfmatrix s') with (Some (length (arrays (run lib cs)))) by done.
  replace (_patchidxs s') with (Some (arange_int16 (Z.of_nat (ndarray.dim1 a)))) by done.
  replace (arrays s' !!! length (arrays (run lib cs))) with a
    by (unfold s'; simpl; by rewrite list_lookup_total_middle).
  rewrite !Hshape. cbn [mbind result_bind].
  rewrite stack_all_read by done. done.
Qed.

Lemma Qsum_app l1 l2 : (Qsum (l1 ++ l2) == Qsum l1 + Qsum l2)%Q.
Proof.
  induction l1 as [|x l1 IH]; simpl.
  - by rewrite Qplus_0_l.
  - unfold Qsum in *. simpl. rewrite IH. apply Qplus_assoc.
Qed.

Lemma Qsum_zero l : Forall (fun x => x == 0)%Q l -> (Qsum l == 0)%Q.
Proof.
  induction 1 as [|x l Hx _ IH]; [done|].
  unfold Qsum in *. simpl. rewrite Hx, IH. done.
Qed.

Lemma last_patch_eq : Z.of_nat last_patch = 32768%Z.
Proof. unfold last_patch. lia. Qed.

Lemma wide_succ : wide = (last_patch + 1)%nat.
Proof. pose proof wide_eq. pose proof last_patch_eq. lia. Qed.

Lemma fresh_library_init : SeismicGFLibrary.__init__ (Some "Uparr") ["t0"] ["s0"] = Ok fresh_library.
Proof. by vm_compute. Qed.

Lemma wide_gf_array : gf_array (run fresh_library wide_calls) = wide_array.
Proof. rewrite wide_run. reflexivity. Qed.

Lemma wide_init :
  init_optimization (run fresh_library wide_calls) = (Ok tt, wide_library).
Proof.
  unfold wide_library. rewrite init_optimization_run, wide_run.
  reflexivity.
Qed.

#[local] Opaque last_patch.

Lemma wide_row_1 : ndarray.row wide_array 0 1 0 0 = [1%Q].
Proof.
  unfold ndarray.row, wide_array, ndarray.set_row, wide_zeros.
  cbn [ndarray.data replicate alter list_alter lookup_total list_lookup_total].
  rewrite list_lookup_total_alter_eq
    by (rewrite length_replicate; pose proof wide_eq; lia).
  rewrite lookup_total_replicate_2 by (pose proof wide_eq; lia).
  reflexivity.
Qed.

Lemma wide_row_last : ndarray.row wide_array 0 last_patch 0 0 = [0%Q].
Proof.
  unfold ndarray.row, wide_array, ndarray.set_row, wide_zeros.
  cbn [ndarray.data replicate alter list_alter lookup_total list_lookup_total].
  rewrite list_lookup_total_alter_ne
    by (pose proof last_patch_eq; lia).
  rewrite lookup_total_replicate_2 by (pose proof wide_eq; pose proof last_patch_eq; lia).
  reflexivity.
Qed.

Lemma wide_patch_of_last : patch_of wide last_patch = 1%nat.
Proof.
  unfold patch_of. rewrite last_patch_eq.
  change (wrap16 32768) with (-32768)%Z.
  unfold norm. change (0 <=? -32768)%Z with false. cbv iota.
  rewrite wide_eq. reflexivity.
Qed.

(** Against the slips that single out the last patch, a sum over the
    patches keeps the term of the last patch only. *)
Lemma wide_sum (f : nat -> Q) :
  (Qsum ((fun p => (last_patch_slips !!! p * f p)%Q) <$> seq 0 wide) == f last_patch)%Q.
Proof.
  rewrite wide_succ, seq_app, fmap_app, Qsum_app.
  rewrite Qsum_zero.
  - change (seq (0 + last_patch) 1) with [last_patch].
    cbn [fmap list_fmap Qsum foldr].
    unfold last_patch_slips.
    rewrite list_lookup_total_middle by (by rewrite length_replicate).
    ring.
  - apply Forall_fmap, Forall_forall. intros p Hp%elem_of_seq.
    unfold compose, last_patch_slips.
    rewrite lookup_total_app_l by (rewrite length_replicate; lia).
    rewrite lookup_total_replicate_2 by lia.
    ring.
Qed.

Lemma zero_indexes_last : zero_indexes !!! last_patch = 0%Z.
Proof.
  unfold zero_indexes.
  apply lookup_total_replicate_2. pose proof wide_eq. pose proof last_patch_eq. lia.
Qed.

(** On the library of 32769 patches, with the slips that single out the
    last patch, [stack_all] returns the trace of patch 1, which is 1, where
    the sum over the patches of slip times selected trace is 0. *)
Lemma wide_stack_all :
  let a := gf_array (run fresh_library wide_calls) in
  exists y,
    stack_all zero_indexes zero_indexes last_patch_slips wide_library
      = (Ok [ [y] ], wide_library) /\
    (y == 1)%Q /\
    (Qsum ((fun p => (last_patch_slips !!! p
                      * (trace a zero_indexes zero_indexes 0 p !!! 0%nat))%Q)
             <$> seq 0 (ndarray.dim1 a)) == 0)%Q.
Proof.
  intros a.
  pose proof (stack_all_after_init _ _ _ _ _ _ zero_indexes zero_indexes last_patch_slips
                fresh_library_init wide_init) as H.
  cbv zeta in H. fold a in H. unfold a in *. clear a.
  rewrite wide_gf_array in *.
  change (ndarray.dim0 wide_array) with 1%nat in *.
  change (ndarray.dim1 wide_array) with wide in *.
  change (ndarray.dim2 wide_array) with 1%nat in *.
  change (ndarray.dim3 wide_array) with 1%nat in *.
  change (ndarray.dim4 wide_array) with 1%nat in *.
  eexists. split; [|split].
  - rewrite H.
    + reflexivity.
    + rewrite wide_eq. lia.
    + apply length_replicate.
    + apply length_replicate.
    + unfold last_patch_slips. rewrite length_app, length_replicate, wide_succ. reflexivity.
    + apply Forall_replicate. unfold valid_index. lia.
    + apply Forall_replicate. unfold valid_index. lia.
  - rewrite (wide_sum (fun p => read_trace wide_array zero_indexes zero_indexes 0 p !!! 0%nat)).
    unfold read_trace.
    change (ndarray.dim1 wide_array) with wide.
    rewrite wide_patch_of_last, zero_indexes_last.
    change (norm (ndarray.dim2 wide_array) 0) with 0%nat.
    change (norm (ndarray.dim3 wide_array) 0) with 0%nat.
    rewrite wide_row_1. reflexivity.
  - rewrite (wide_sum (fun p => trace wide_array zero_indexes zero_indexes 0 p !!! 0%nat)).
    unfold trace.
    rewrite zero_indexes_last.
    change (norm (ndarray.dim2 wide_array) 0) with 0%nat.
    change (norm (ndarray.dim3 wide_array) 0) with 0%nat.
    rewrite wide_row_last. reflexivity.
Qed.

#[local] Transparent wide last_patch arange_int16.

(** Beyond 32767 the 16 bit index of a patch is negative, and numpy counts
    it from the end of the patch axis. *)
Lemma patch_of_large (n p : nat) :
  (Z.of_nat n <= 65536)%Z -> (p < n)%nat -> (32768 <= Z.of_nat p)%Z ->
  Z.of_nat (patch_of n p) = (Z.of_nat p + Z.of_nat n - 65536)%Z.
Proof.
  intros Hn Hp Hl. unfold patch_of, wrap16, norm.
  replace ((Z.of_nat p + 32768) `mod` 65536)%Z with (Z.of_nat p - 32768)%Z.
  - destruct (Z.leb_spec 0 (Z.of_nat p - 32768 - 32768)); lia.
  - replace (Z.of_nat p + 32768)%Z with (Z.of_nat p - 32768 + 1 * 65536)%Z by lia.
    rewrite Z_mod_plus_full, Z.mod_small by lia. lia.
Qed.

(** X2: up to 65536 patches, [stack_all] after [init_optimization] returns,
    for every target and sample, the sum over the patches of the slip of
    the patch times the trace of the patch its 16 bit index selects: the
    patch itself below 32768, and the patch [p + npatches - 65536] from
    there on. *)
Theorem stack_all_reads_through_int16 component targets stations lib cs s' rs ss slips :
  SeismicGFLibrary.__init__ component targets stations = Ok lib ->
  init_optimization (run lib cs) = (Ok tt, s') ->
  let a := gf_array (run lib cs) in
  (Z.of_nat (ndarray.dim1 a) <= 65536)%Z ->
  length rs = ndarray.dim1 a -> length ss = ndarray.dim1 a -> length slips = ndarray.dim1 a ->
  Forall (valid_index (ndarray.dim2 a)) rs -> Forall (valid_index (ndarray.dim3 a)) ss ->
  stack_all rs ss slips s'
  = (Ok ((fun t => (fun j => Qsum ((fun p => (slips !!! p * (read_trace a rs ss t p !!! j))%Q)
                                    <$> seq 0 (ndarray.dim1 a)))
                    <$> seq 0 (ndarray.dim4 a))
           <$> seq 0 (ndarray.dim0 a)), s') /\
  forall p, (p < ndarray.dim1 a)%nat ->
    Z.of_nat (patch_of (ndarray.dim1 a) p)
    = if (Z.of_nat p <? 32768)%Z then Z.of_nat p
      else (Z.of_nat p + Z.of_nat (ndarray.dim1 a) - 65536)%Z.
Proof.
  intros Hlib Hinit a Hn Hrs Hss Hsl Hr Hs. split.
  - by apply (stack_all_after_init component targets stations lib cs).
  - intros p Hp. destruct (Z.ltb_spec (Z.of_nat p) 32768).
    + unfold patch_of. rewrite wrap16_small by lia. unfold norm.
      destruct (Z.leb_spec 0 (Z.of_nat p)); lia.
    + by apply patch_of_large.
Qed.

(** On the library of the round trip after [init_optimization]. *)
Lemma stack_all_reads_through_int16_witness :
  exists m, stack_all [0; 0; 1]%Z [0; 0; 3]%Z [1; 1; 2]%Q filled_library = (Ok m, filled_library).
Proof.
  eexists.
  apply (stack_all_reads_through_int16 (Some "Uparr") ["t0"] ["s0"] fresh_library
           round_trip_calls filled_library [0; 0; 1]%Z [0; 0; 3]%Z [1; 1; 2]%Q).
  - reflexivity.
  - by vm_compute.
  - by vm_compute.
  - reflexivity.
  - reflexivity.
  - reflexivity.
  - repeat constructor; by vm_compute.
  - repeat constructor; by vm_compute.
Defined.

(** ** stack_all and stack *)

Lemma stack_single_closed a (t p : nat) r s slip :
  ndarray.wf a -> (t < ndarray.dim0 a)%nat -> (p < ndarray.dim1 a)%nat ->
  valid_index (ndarray.dim2 a) r -> valid_index (ndarray.dim3 a) s ->
  (rows ← ndarray.getitem a (Z.of_nat t) [Z.of_nat p] [r] [s];
   rows ← reshape2 1 (ndarray.dim4 a) rows;
   Ok (T_dot (ndarray.dim4 a) rows [slip]))
  = Ok ((fun j => (ndarray.row a t p (norm (ndarray.dim2 a) r) (norm (ndarray.dim3 a) s) !!! j
                   * slip + 0)%Q) <$> seq 0 (ndarray.dim4 a)).
Proof.
  intros Ha Ht Hp Hr Hs. unfold ndarray.getitem.
  rewrite positions_single by done. cbn [mbind result_bind].
  rewrite norm_index_nat by done. cbn [mbind result_bind fmap list_fmap fst snd].
  rewrite reshape2_id; [|done|].
  - cbn [mbind result_bind]. done.
  - apply Forall_singleton. apply row_length; try done; by apply norm_lt.
Qed.

(** C2, as stated, fails: on the library of the round trip, sized and
    filled but without [init_optimization], [stack_all] raises; and the
    patch indexes the library keeps are 16 bit integers, so that for 32769
    patches the index kept for patch 32768 is -32768, which numpy reads as
    patch 1: on the library of 32769 patches, sized, filled and prepared by
    [init_optimization], [stack_all] with the slips that single out the
    last patch returns a matrix of one entry, equal to 1 (the trace of
    patch 1), where the sum over the patches of slip times selected trace
    is 0. *)
Lemma stack_all_needs_init_optimization :
  (stack_all [0; 0; 0]%Z [0; 0; 0]%Z [1; 1; 1]%Q (run fresh_library round_trip_calls)).1
    = Raise GFLibraryError /\
  arange_int16 32769 !! Z.to_nat 32768 = Some (-32768)%Z /\
  norm_index (Z.to_nat 32769) (-32768) = Ok 1%nat /\
  let a := gf_array (run fresh_library wide_calls) in
  exists y,
    stack_all zero_indexes zero_indexes last_patch_slips wide_library
      = (Ok [ [y] ], wide_library) /\
    (y == 1)%Q /\
    (Qsum ((fun p => (last_patch_slips !!! p
                      * (trace a zero_indexes zero_indexes 0 p !!! 0%nat))%Q)
             <$> seq 0 (ndarray.dim1 a)) == 0)%Q.
Proof.
  split; [by vm_compute|]. split; [|split; [by vm_compute|exact wide_stack_all]].
  change 32769%Z with (Z.of_nat (Z.to_nat 32769)).
  rewrite arange_int16_nat, list_lookup_fmap, lookup_seq_lt by lia.
  simpl. rewrite Z2Nat.id by lia. reflexivity.
Qed.

(** C2, amended: take any library built by the constructor and a sequence
    of method calls, on which [init_optimization] then succeeds, with at
    most 32768 patches.  For one valid (risetime, starttime) index pair per
    patch and one slip per patch, [stack_all] returns a matrix of
    [ntargets] rows of [nsamples] entries (and leaves the library
    unchanged); the row of target [t] is, sample by sample, the sum over the
    patches of the slip of the patch times the stored trace selected for
    [(t, patch)]; and for every target whose index is [t] it is the
    element-wise sum, over the patches, of the results of [stack] for that
    target and the single patch with its index pair and slip. *)
Theorem stack_all_sum_over_patches component targets stations lib cs s' rs ss slips :
  SeismicGFLibrary.__init__ component targets stations = Ok lib ->
  init_optimization (run lib cs) = (Ok tt, s') ->
  let a := gf_array (run lib cs) in
  (Z.of_nat (ndarray.dim1 a) <= 32768)%Z ->
  length rs = ndarray.dim1 a -> length ss = ndarray.dim1 a -> length slips = ndarray.dim1 a ->
  Forall (valid_index (ndarray.dim2 a)) rs -> Forall (valid_index (ndarray.dim3 a)) ss ->
  exists m,
    stack_all rs ss slips s' = (Ok m, s') /\
    length m = ndarray.dim0 a /\
    forall t, (t < ndarray.dim0 a)%nat ->
      exists row,
        m !! t = Some row /\
        row = (fun j => Qsum ((fun p => (slips !!! p * (trace a rs ss t p !!! j))%Q)
                                <$> seq 0 (ndarray.dim1 a)))
                <$> seq 0 (ndarray.dim4 a) /\
        forall tg d, (target_index_mapping s').1 = Ok d -> dict_get d tg = Ok t ->
          exists vs,
            Forall2 (fun p v =>
                       (stack tg [Z.of_nat p] [rs !!! p] [ss !!! p] [slips !!! p] s').1 = Ok v)
                    (seq 0 (ndarray.dim1 a)) vs /\
            row = vsum (ndarray.dim4 a) vs.
Proof.
  intros Hlib Hinit a Hp Hrs Hss Hsl Hr Hs.
  pose proof (run_inv lib cs (init_inv _ _ _ _ Hlib)) as [Hw Hg].
  rewrite init_optimization_run in Hinit.
  destruct (_gfmatrix (run lib cs)) as [g|] eqn:Eg; [|done].
  destruct (Hg g eq_refl) as [Hlt Hpidx].
  assert (a = arrays (run lib cs) !!! g) as Ea by (unfold a, gf_array; by rewrite Eg).
  rewrite <- Ea in Hpidx.
  assert (ndarray.wf a) as Ha by (rewrite Ea; by apply wf_lookup_total).
  injection Hinit as <-.
  set (s' := set_mode _ _).
  assert (forall dim, shape_value dim s' = Ok (dim a)) as Hshape.
  { intros dim. unfold shape_value, s'. simpl. rewrite Eg.
    by rewrite lookup_total_app_l, Ea. }
  eexists. split; [|split].
  - rewrite stack_all_run. unfold stack_all_value.
    replace (_sgfmatrix s') with (Some (length (arrays (run lib cs)))) by done.
    replace (_patchidxs s') with (Some (arange_int16 (Z.of_nat (ndarray.dim1 a)))) by done.
    replace (arrays s' !!! length (arrays (run lib cs))) with a
      by (unfold s'; simpl; by rewrite list_lookup_total_middle).
    rewrite !Hshape. cbn [mbind result_bind].
    rewrite stack_all_closed by done. done.
  - by rewrite length_fmap, length_seq.
  - intros t Ht. eexists. split; [|split].
    + rewrite list_lookup_fmap, lookup_seq_lt by done. done.
    + done.
    + intros tg d Hd Htg. rewrite target_index_mapping_run in Hd. injection Hd as <-.
      exists ((fun p => (fun j => (trace a rs ss t p !!! j * slips !!! p + 0)%Q)
                          <$> seq 0 (ndarray.dim4 a)) <$> seq 0 (ndarray.dim1 a)).
      split.
      * apply Forall2_fmap_r, Forall_Forall2_diag, Forall_forall. intros p Hp'.
        apply elem_of_seq in Hp'. unfold compose. cbv beta.
        rewrite stack_fst. unfold stack_value.
        rewrite Htg. cbn [mbind result_bind].
        replace (_stack_switch s')
          with (Some ({[ "numpy" := g; "theano" := length (arrays (run lib cs)) ]}
                        : gmap string loc)) by done.
        replace (_mode s') with "theano" by done.
        unfold dict_get. rewrite lookup_insert_ne by done. rewrite lookup_singleton_eq.
        cbn [mbind result_bind].
        replace (arrays s' !!! length (arrays (run lib cs))) with a
          by (unfold s'; simpl; by rewrite list_lookup_total_middle).
        rewrite Hshape.
        assert (rs !! p = Some (rs !!! p)) as Hrp by (apply list_lookup_lookup_total_lt; lia).
        assert (ss !! p = Some (ss !!! p)) as Hsp by (apply list_lookup_lookup_total_lt; lia).
        pose proof (stack_single_closed a t p (rs !!! p) (ss !!! p) (slips !!! p) Ha Ht
                      ltac:(lia) (Forall_lookup_1 _ _ _ _ Hr Hrp) (Forall_lookup_1 _ _ _ _ Hs Hsp))
          as Hc.
        destruct (ndarray.getitem _ _ _ _ _) as [rows|]; [|done].
        cbn [mbind result_bind] in *. change (length [slips !!! p]) with 1%nat.
        destruct (reshape2 _ _ _) as [rows'|]; [|done]. cbn [mbind result_bind] in *.
        unfold trace. exact Hc.
      * rewrite (vsum_closed (fun p j => (trace a rs ss t p !!! j * slips !!! p + 0)%Q)).
        apply fmap_seq_ext. intros j Hj. f_equal. apply fmap_seq_ext. intros p Hp'.
        by rewrite Qplus_0_r_L, Qmult_comm_L.
Qed.

(** On the library of the round trip after [init_optimization], with the
    written row selected for patch 2 and a slip of 2 there: the only row of
    the result is twice the written row. *)
Lemma stack_all_sum_over_patches_witness :
  exists m,
    stack_all [0; 0; 1]%Z [0; 0; 3]%Z [1; 1; 2]%Q filled_library = (Ok m, filled_library) /\
    m !! 0%nat = Some [10 # 1; 14 # 2]%Q.
Proof.
  destruct (stack_all_sum_over_patches (Some "Uparr") ["t0"] ["s0"] fresh_library
              round_trip_calls filled_library [0; 0; 1]%Z [0; 0; 3]%Z [1; 1; 2]%Q)
    as (m & Hm & Hlen & Hrows).
  - reflexivity.
  - by vm_compute.
  - by vm_compute.
  - reflexivity.
  - reflexivity.
  - reflexivity.
  - repeat constructor; by vm_compute.
  - repeat constructor; by vm_compute.
  - exists m. split; [done|].
    destruct (Hrows 0%nat) as (row & Hrow & -> & _); [vm_compute; lia|].
    rewrite Hrow. by vm_compute.
Defined.

(** ** The two backends *)







Lemma set_stack_mode_known s g g' mode :
  _stack_switch s = Some {[ "numpy" := g; "theano" := g' ]} ->
  mode = "numpy" \/ mode = "theano" ->
  set_stack_mode mode s = (Ok tt, set_mode mode s).
Proof.
  intros Hsw Hm. unfold set_stack_mode, bind, get. simpl. rewrite Hsw.
  rewrite bool_decide_eq_true_2; [done|].
  rewrite dom_insert_L, dom_singleton_L.
  destruct Hm as [-> | ->]; [apply elem_of_union_l | apply elem_of_union_r];
    by apply elem_of_singleton.
Qed.



(** ** The round trip and repeated sizing, evaluated *)

(** C1, evaluated: on the library of the constructor, [setup] and [put]
    succeed, and [stack] for the written row then raises [AttributeError]:
    [stack] reads the array through [_stack_switch], an attribute that only
    [init_optimization] creates.  Once [init_optimization] has run, the
    same call returns the written row. *)
Theorem round_trip_without_init_optimization :
  SeismicGFLibrary.__init__ (Some "Uparr") ["t0"] ["s0"] = Ok fresh_library /\
  (setup 1 3 2 4 2 fresh_library).1 = Ok tt /\
  (put (Array2 2 [known_row]) "t0" 2 [1%Z] [3%Z] (run fresh_library [Setup 1 3 2 4 2])).1
    = Ok tt /\
  (stack "t0" [2%Z] [1%Z] [3%Z] [1%Q] (run fresh_library round_trip_calls)).1
    = Raise AttributeError /\
  (stack "t0" [2%Z] [1%Z] [3%Z] [1%Q] filled_library).1 = Ok (vec_to_list known_row).
Proof. repeat split; by vm_compute. Qed.

(** C10, evaluated: a second [setup] on the library of the round trip
    (after [init_optimization]) succeeds and leaves the array behind
    [_gfmatrix] entirely zero, but [stack] does not read that array: under
    either backend it still returns the row written before, through the
    entries of [_stack_switch] made by [init_optimization].  And before
    [init_optimization], [stack] on a freshly sized library raises. *)
Theorem stack_after_second_setup_is_stale :
  (setup 1 3 2 4 2 filled_library).1 = Ok tt /\
  ndarray.zeros 1 3 2 4 2 = Ok (gf_array (run filled_library [Setup 1 3 2 4 2])) /\
  (stack "t0" [2%Z] [1%Z] [3%Z] [1%Q] (run filled_library [Setup 1 3 2 4 2])).1
    = Ok (vec_to_list known_row) /\
  (stack "t0" [2%Z] [1%Z] [3%Z] [1%Q]
     (run filled_library [Setup 1 3 2 4 2; SetStackMode "numpy"])).1
    = Ok (vec_to_list known_row) /\
  (stack "t0" [2%Z] [1%Z] [3%Z] [1%Q] (run fresh_library [Setup 1 3 2 4 2])).1
    = Raise AttributeError.
Proof. repeat split; by vm_compute. Qed.

(** ** The round trip, in general *)

(** One position selected by three single indexes. *)
Lemma positions_one_inv a p r s pos :
  ndarray.positions a [p] [r] [s] = Ok pos ->
  valid_index (ndarray.dim1 a) p /\ valid_index (ndarray.dim2 a) r /\
  valid_index (ndarray.dim3 a) s /\
  pos = [(norm (ndarray.dim1 a) p, norm (ndarray.dim2 a) r, norm (ndarray.dim3 a) s)].
Proof.
  rewrite (positions_same_length a 1) by done.
  cbn [zip zip_with mapM mbind result_bind fst snd].
  destruct (norm_index (ndarray.dim1 a) p) as [p'|] eqn:Ep; [|done].
  destruct (norm_index (ndarray.dim2 a) r) as [r'|] eqn:Er; [|done].
  destruct (norm_index (ndarray.dim3 a) s) as [s'|] eqn:Es; [|done].
  cbn [mbind result_bind]. intros [= <-].
  apply norm_index_inv in Ep as [? ->], Er as [? ->], Es as [? ->]. done.
Qed.

(** A row written is the row read at the same place. *)
Lemma row_set_row a t p r s v :
  ndarray.wf a -> (t < ndarray.dim0 a)%nat -> (p < ndarray.dim1 a)%nat ->
  (r < ndarray.dim2 a)%nat -> (s < ndarray.dim3 a)%nat ->
  ndarray.row (ndarray.set_row a t p r s v) t p r s = v.
Proof.
  intros [H0 Hw] Ht Hp Hr Hs. unfold ndarray.row, ndarray.set_row. cbn [ndarray.data].
  assert (ndarray.data a !! t = Some (ndarray.data a !!! t)) as E0
    by (apply list_lookup_lookup_total_lt; lia).
  destruct (Forall_lookup_1 _ _ _ _ Hw E0) as [H1 Hw1].
  assert ((ndarray.data a !!! t) !! p = Some ((ndarray.data a !!! t) !!! p)) as E1
    by (apply list_lookup_lookup_total_lt; lia).
  destruct (Forall_lookup_1 _ _ _ _ Hw1 E1) as [H2 Hw2].
  assert (((ndarray.data a !!! t) !!! p) !! r = Some (((ndarray.data a !!! t) !!! p) !!! r)) as E2
    by (apply list_lookup_lookup_total_lt; lia).
  destruct (Forall_lookup_1 _ _ _ _ Hw2 E2) as [H3 Hw3].
  rewrite list_lookup_total_alter_eq by lia.
  rewrite list_lookup_total_alter_eq by lia.
  rewrite list_lookup_total_alter_eq by lia.
  rewrite list_lookup_total_insert_eq by lia.
  done.
Qed.

Lemma norm_of_nat n (t : nat) : norm n (Z.of_nat t) = t.
Proof. unfold norm. destruct (Z.leb_spec 0 (Z.of_nat t)); lia. Qed.

Lemma setitem_one a tidx p r s v a' :
  ndarray.setitem a (Z.of_nat tidx) p [r] [s] [v] = Ok a' ->
  (tidx < ndarray.dim0 a)%nat /\
  valid_index (ndarray.dim1 a) p /\ valid_index (ndarray.dim2 a) r /\
  valid_index (ndarray.dim3 a) s /\
  a' = ndarray.set_row a tidx (norm (ndarray.dim1 a) p) (norm (ndarray.dim2 a) r)
         (norm (ndarray.dim3 a) s) v.
Proof.
  unfold ndarray.setitem.
  destruct (ndarray.positions a [p] [r] [s]) as [pos|] eqn:Epos; [|done].
  apply positions_one_inv in Epos as (Hp & Hr & Hs & ->).
  cbn [mbind result_bind length]. rewrite bool_decide_eq_true_2 by done.
  cbn [mbind result_bind].
  destruct (norm_index (ndarray.dim0 a) (Z.of_nat tidx)) as [ti|] eqn:Et; [|done].
  apply norm_index_inv in Et as [Ht ->]. rewrite norm_of_nat.
  cbn [mbind result_bind zip zip_with foldl fst snd]. intros [= <-].
  repeat split; try done; unfold valid_index in *; lia.
Qed.

Lemma getitem_one a (tidx : nat) p r s :
  (tidx < ndarray.dim0 a)%nat ->
  valid_index (ndarray.dim1 a) p -> valid_index (ndarray.dim2 a) r ->
  valid_index (ndarray.dim3 a) s ->
  ndarray.getitem a (Z.of_nat tidx) [p] [r] [s]
  = Ok [ndarray.row a tidx (norm (ndarray.dim1 a) p) (norm (ndarray.dim2 a) r)
          (norm (ndarray.dim3 a) s)].
Proof.
  intros Ht Hp Hr Hs. unfold ndarray.getitem.
  rewrite (positions_same_length a 1) by done.
  cbn [zip zip_with mapM mbind result_bind fst snd].
  rewrite (norm_index_valid _ _ Hp), (norm_index_valid _ _ Hr), (norm_index_valid _ _ Hs).
  cbn [mbind result_bind].
  rewrite norm_index_nat by done.
  reflexivity.
Qed.

Lemma T_dot_one ns (v : list Q) :
  length v = ns -> T_dot ns [v] [1%Q] = v.
Proof.
  intros <-. unfold T_dot, dot. cbn [fmap list_fmap zip_with Qsum foldr].
  apply list_eq. intros j. rewrite list_lookup_fmap.
  destruct (decide (j < length v)%nat) as [Hj|Hj].
  - rewrite lookup_seq_lt by done. cbn [fmap option_fmap option_map].
    rewrite Qplus_0_r_L. rewrite Qmult_comm_L.
    rewrite (list_lookup_lookup_total_lt v j) by done. f_equal.
    destruct (v !!! j) as [n d]. unfold Qmult. simpl. by destruct n.
  - rewrite lookup_seq_ge by lia. rewrite lookup_ge_None_2 by lia. done.
Qed.

(** X5: the round trip with [init_optimization] between the writing and the
    reading.  On a library built by the constructor and any calls of its
    methods, if [put] of one row for a target, a patch and one risetime and
    one starttime index succeeds and [init_optimization] follows, then
    [stack] for the same target and indexes with the slip [1] returns the
    written row. *)
Theorem put_init_optimization_stack component targets stations lib cs ncols (row : vec Q ncols)
    tg p r s s1 s2 :
  SeismicGFLibrary.__init__ component targets stations = Ok lib ->
  put (Array2 ncols [row]) tg p [r] [s] (run lib cs) = (Ok tt, s1) ->
  init_optimization s1 = (Ok tt, s2) ->
  (stack tg [p] [r] [s] [1%Q] s2).1 = Ok (vec_to_list row).
Proof.
  intros Hlib Hput Hinit.
  pose proof (run_inv lib cs (init_inv _ _ _ _ Hlib)) as [Hw Hg].
  set (s0 := run lib cs) in *.
  rewrite put_run in Hput.
  destruct (shape_value ndarray.dim4 s0) as [ns|] eqn:Ens; [|done].
  case_bool_decide as Hn; [done|].
  assert (ncols = ns) as <- by (destruct (decide (ncols = ns)); [done|by destruct Hn]).
  cbv zeta in Hput.
  destruct (dict_get (t2i_of s0) tg) as [tidx|] eqn:Et; [|done].
  destruct (_gfmatrix s0) as [g|] eqn:Eg; [|done].
  destruct (ndarray.setitem _ _ _ _ _ _) as [a'|] eqn:Ea; [|done].
  injection Hput as <-.
  unfold shape_value in Ens. rewrite Eg in Ens. injection Ens as Ens.
  destruct (Hg g eq_refl) as [Hlt _].
  set (a := arrays s0 !!! g) in *.
  assert (ndarray.wf a) as Ha by (by apply wf_lookup_total).
  change (vec_to_list <$> [row]) with [vec_to_list row] in Ea.
  apply setitem_one in Ea as (Ht & Hp & Hr & Hs & ->).
  rewrite init_optimization_run in Hinit.
  cbn [_gfmatrix set_arrays set_target2index] in Hinit. rewrite Eg in Hinit.
  injection Hinit as <-.
  set (a' := ndarray.set_row a _ _ _ _ _).
  set (s2 := set_mode _ _).
  assert (ndarray.wf a') as Ha'.
  { apply set_row_wf; [done|]. rewrite length_vec_to_list. done. }
  rewrite stack_fst. unfold stack_value.
  replace (t2i_of s2) with (t2i_of s0) by done.
  rewrite Et. cbn [mbind result_bind].
  replace (_stack_switch s2)
    with (Some ({[ "numpy" := g; "theano" := length (<[g := a']> (arrays s0)) ]}
                  : gmap string loc)) by done.
  replace (_mode s2) with "theano" by done.
  unfold dict_get at 1. rewrite lookup_insert_ne by done. rewrite lookup_singleton_eq.
  cbn [mbind result_bind].
  replace (arrays s2 !!! length (<[g := a']> (arrays s0))) with a'.
  2:{ unfold s2. cbn [arrays set_mode set_stack_switch set_sgfmatrix set_arrays].
      rewrite list_lookup_total_middle by done.
      by rewrite list_lookup_total_insert_eq. }
  replace (shape_value ndarray.dim4 s2) with (Ok (ndarray.dim4 a) : result nat).
  2:{ unfold shape_value, s2.
      cbn [_gfmatrix arrays set_mode set_stack_switch set_sgfmatrix set_arrays set_target2index].
      rewrite Eg. rewrite lookup_total_app_l by (by rewrite length_insert).
      by rewrite list_lookup_total_insert_eq. }
  rewrite (getitem_one a') by done.
  cbn [mbind result_bind length].
  unfold a' at 1.
  change (ndarray.dim1 a') with (ndarray.dim1 a).
  change (ndarray.dim2 a') with (ndarray.dim2 a).
  change (ndarray.dim3 a') with (ndarray.dim3 a).
  rewrite row_set_row by (try done; by apply norm_lt).
  rewrite reshape2_id.
  - cbn [mbind result_bind]. rewrite T_dot_one; [done|].
    rewrite length_vec_to_list. done.
  - done.
  - apply Forall_singleton. rewrite length_vec_to_list. done.
Qed.

(** The round trip of the evaluations above. *)
Lemma put_init_optimization_stack_witness :
  (stack "t0" [2%Z] [1%Z] [3%Z] [1%Q] filled_library).1 = Ok (vec_to_list known_row).
Proof.
  apply (put_init_optimization_stack (Some "Uparr") ["t0"] ["s0"] fresh_library
           [Setup 1 3 2 4 2] 2 known_row "t0" 2 1 3
           (run fresh_library round_trip_calls) filled_library).
  - reflexivity.
  - by vm_compute.
  - by vm_compute.
Defined.

(** ** Writing after init_optimization *)


(** * Further properties *)

(** ** Fault geometry: registration and lookups *)

Lemma subfault_key_inj d c i j : subfault_key d c i = subfault_key d c j -> i = j.
Proof.
  unfold subfault_key. intros H.
  apply (inj (String.app d)) in H. apply (inj (String.app "_")) in H.
  apply (inj (String.app c)) in H. apply (inj (String.app "_")) in H.
  by apply (inj pretty) in H.
Qed.

Lemma with_sources_id fault : with_sources fault (FaultGeometry._ext_sources fault) = fault.
Proof. by destruct fault. Qed.

Lemma get_subfault_key_declared fault d c i :
  declared fault d c ->
  FaultGeometry.get_subfault_key fault i (Some d) (Some c)
  = if (FaultGeometry.nsubfaults fault - 1 <? i)%Z then Raise TypeError
    else Ok (subfault_key d c i).
Proof.
  intros [Hd Hc]. unfold FaultGeometry.get_subfault_key, FaultGeometry._check_datatype,
    FaultGeometry._check_component, FaultGeometry._check_index, str_in.
  rewrite !bool_decide_eq_true_2 by done. simpl.
  by destruct (_ <? _)%Z.
Qed.

Lemma register_lookup_other d c i srcs m key :
  (forall j, (j < length srcs)%nat -> key <> subfault_key d c (i + Z.of_nat j)) ->
  register d c i srcs m !! key = m !! key.
Proof.
  revert i m. induction srcs as [|s rest IH]; intros i m H; [done|].
  simpl. rewrite IH.
  - rewrite lookup_insert_ne; [done|]. intros E. apply (H 0%nat); [simpl; lia|].
    by rewrite Z.add_0_r.
  - intros j Hj. replace (i + 1 + Z.of_nat j)%Z with (i + Z.of_nat (S j))%Z by lia.
    apply H. simpl. lia.
Qed.

Lemma register_lookup d c i srcs m k s :
  srcs !! k = Some s ->
  register d c i srcs m !! subfault_key d c (i + Z.of_nat k) = Some s.
Proof.
  revert i m k. induction srcs as [|s0 rest IH]; intros i m k H; [done|].
  destruct k as [|k]; simpl in *.
  - injection H as ->. rewrite register_lookup_other.
    + by rewrite Z.add_0_r, lookup_insert_eq.
    + intros j _ E. apply subfault_key_inj in E. lia.
  - replace (i + Z.of_nat (S k))%Z with (i + 1 + Z.of_nat k)%Z by lia. by apply IH.
Qed.

Lemma setup_loop_spec fault d c replace i srcs fault' :
  declared fault d c ->
  (i + Z.of_nat (length srcs) <= FaultGeometry.nsubfaults fault)%Z ->
  FaultGeometry.setup_loop fault d c replace i srcs = (Ok tt, fault') <->
  (replace = true \/
   forall j, (j < length srcs)%nat ->
     FaultGeometry._ext_sources fault !! subfault_key d c (i + Z.of_nat j) = None) /\
  fault' = with_sources fault (register d c i srcs (FaultGeometry._ext_sources fault)).
Proof.
  revert fault i. induction srcs as [|s rest IH]; intros fault i Hd Hn.
  - simpl. rewrite with_sources_id. split.
    + intros [= <-]. split; [|done]. right. intros j Hj. simpl in Hj. lia.
    + by intros [_ ->].
  - cbn [FaultGeometry.setup_loop]. rewrite get_subfault_key_declared by done.
    cbn [length] in Hn.
    destruct (Z.ltb_spec (FaultGeometry.nsubfaults fault - 1) i) as [Hlt|_]; [lia|].
    set (fault1 := FaultGeometry.Build_t _ _ _ _).
    assert (declared fault1 d c) as Hd1 by done.
    assert (i + 1 + Z.of_nat (length rest) <= FaultGeometry.nsubfaults fault1)%Z as Hn1
      by (change (FaultGeometry.nsubfaults fault1) with (FaultGeometry.nsubfaults fault); lia).
    specialize (IH fault1 (i + 1)%Z Hd1 Hn1).
    change (with_sources fault1) with (with_sources fault) in IH.
    change (FaultGeometry._ext_sources fault1)
      with (<[subfault_key d c i := s]> (FaultGeometry._ext_sources fault)) in IH.
    cbn [register].
    destruct replace.
    + rewrite orb_true_r. rewrite IH. split.
      * intros [_ ->]. split; [by left|done].
      * intros [_ ->]. split; [by left|done].
    + rewrite orb_false_r. case_bool_decide as Hk.
      * rewrite IH. split.
        -- intros [[?|Hf] ->]; [done|]. split; [|done]. right. intros [|j] Hj.
           ++ by rewrite Z.add_0_r.
           ++ specialize (Hf j ltac:(simpl in Hj; lia)).
              rewrite lookup_insert_ne in Hf.
              ** by replace (i + Z.of_nat (S j))%Z with (i + 1 + Z.of_nat j)%Z by lia.
              ** intros E. apply subfault_key_inj in E. lia.
        -- intros [[?|Hf] ->]; [done|]. split; [|done]. right. intros j Hj.
           rewrite lookup_insert_ne.
           ++ replace (i + 1 + Z.of_nat j)%Z with (i + Z.of_nat (S j))%Z by lia.
              apply Hf. simpl. lia.
           ++ intros E. apply subfault_key_inj in E. lia.
      * split; [done|]. intros [[?|Hf] _]; [done|]. destruct Hk.
        specialize (Hf 0%nat ltac:(simpl; lia)). by rewrite Z.add_0_r in Hf.
Qed.

Lemma setup_subfaults_spec fault d c srcs replace fault' :
  FaultGeometry.setup_subfaults fault d c srcs replace = (Ok tt, fault') <->
  declared fault d c /\
  Z.of_nat (length srcs) = FaultGeometry.nsubfaults fault /\
  (replace = true \/
   forall j, (j < length srcs)%nat ->
     FaultGeometry._ext_sources fault !! subfault_key d c (Z.of_nat j) = None) /\
  fault' = with_sources fault (register d c 0 srcs (FaultGeometry._ext_sources fault)).
Proof.
  unfold FaultGeometry.setup_subfaults, FaultGeometry._check_datatype,
    FaultGeometry._check_component, str_in.
  case_bool_decide as Hd; [|split; [done | by intros [[? ?] _]]].
  case_bool_decide as Hc; [|split; [done | by intros [[? ?] _]]].
  case_bool_decide as Hn; [|split; [done | by intros (_ & ? & _)]].
  rewrite setup_loop_spec by (done || lia). split.
  - intros [H ->]. split; [done|]. split; [done|]. done.
  - intros (_ & _ & H & ->). done.
Qed.

Lemma iter_loop_all fault dt ct i l :
  (forall k s, l !! k = Some s ->
     FaultGeometry.get_subfault fault (i + Z.of_nat k) dt ct = Ok s) ->
  FaultGeometry.iter_loop fault dt ct (seqZ i (Z.of_nat (length l))) = (l, None).
Proof.
  revert i. induction l as [|s l IH]; intros i H; [done|].
  cbn [length]. rewrite Nat2Z.inj_succ, seqZ_cons by lia.
  replace (Z.pred (Z.succ (Z.of_nat (length l)))) with (Z.of_nat (length l)) by lia.
  cbn [FaultGeometry.iter_loop]. pose proof (H 0%nat s eq_refl) as H0.
  change (Z.of_nat 0) with 0%Z in H0. rewrite Z.add_0_r in H0. rewrite H0.
  rewrite IH; [done|]. intros k s' Hk.
  replace (Z.succ i + Z.of_nat k)%Z with (i + Z.of_nat (S k))%Z by lia. by apply H.
Qed.

(** X7: after a successful [setup_subfaults], [get_subfault] returns for every
    subfault the source given for it, [iter_subfaults] yields the sources
    given, in order, and ends without exception, the entries under all
    other keys are as before, and datatypes, components and ordering have
    not changed. *)
Theorem setup_subfaults_get_subfault fault d c srcs replace fault' :
  FaultGeometry.setup_subfaults fault d c srcs replace = (Ok tt, fault') ->
  (forall k s, srcs !! k = Some s ->
     FaultGeometry.get_subfault fault' (Z.of_nat k) (Some d) (Some c) = Ok s) /\
  FaultGeometry.iter_subfaults fault' (Some d) (Some c) = (srcs, None) /\
  (forall key, (forall j, (j < length srcs)%nat -> key <> subfault_key d c (Z.of_nat j)) ->
     FaultGeometry._ext_sources fault' !! key = FaultGeometry._ext_sources fault !! key) /\
  FaultGeometry.datatypes fault' = FaultGeometry.datatypes fault /\
  FaultGeometry.components fault' = FaultGeometry.components fault /\
  FaultGeometry.ordering fault' = FaultGeometry.ordering fault.
Proof.
  intros (Hd & Hn & _ & ->)%setup_subfaults_spec.
  assert (forall k s, srcs !! k = Some s ->
            FaultGeometry.get_subfault
              (with_sources fault (register d c 0 srcs (FaultGeometry._ext_sources fault)))
              (Z.of_nat k) (Some d) (Some c) = Ok s) as Hget.
  { intros k s Hk. pose proof (lookup_lt_Some _ _ _ Hk) as Hlt.
    unfold FaultGeometry.get_subfault. rewrite get_subfault_key_declared by done.
    change (FaultGeometry.nsubfaults (with_sources fault _))
      with (FaultGeometry.nsubfaults fault).
    destruct (Z.ltb_spec (FaultGeometry.nsubfaults fault - 1) (Z.of_nat k)); [lia|].
    cbn [mbind result_bind with_sources FaultGeometry._ext_sources].
    rewrite <- (Z.add_0_l (Z.of_nat k)). by rewrite (register_lookup _ _ _ _ _ _ s). }
  split; [done|]. split; [|split; [|done]].
  - unfold FaultGeometry.iter_subfaults.
    change (FaultGeometry.nsubfaults (with_sources fault _))
      with (FaultGeometry.nsubfaults fault).
    rewrite <- Hn. apply iter_loop_all. intros k s Hk. rewrite Z.add_0_l. by apply Hget.
  - intros key Hkey. cbn [with_sources FaultGeometry._ext_sources].
    apply register_lookup_other. intros j Hj. rewrite Z.add_0_l. by apply Hkey.
Qed.

(** On the fault of one subfault of the evaluations above. *)
Lemma setup_subfaults_get_subfault_witness :
  FaultGeometry.get_subfault one_subfault 0 (Some "seismic") (Some "Uparr") = Ok example_source.
Proof.
  destruct (setup_subfaults_get_subfault
              (FaultGeometry.__init__ ["seismic"] ["Uparr"] two_by_two)
              "seismic" "Uparr" [example_source] false one_subfault) as (H & _).
  - by vm_compute.
  - apply (H 0%nat example_source eq_refl).
Defined.

(** X8: once [setup_subfaults] has registered at least one subfault for a
    datatype and a component, registering that pair again without [replace]
    raises [FaultGeometryError], whatever sources are given, and leaves the
    fault unchanged. *)
Theorem setup_subfaults_twice fault d c srcs replace fault' srcs' :
  FaultGeometry.setup_subfaults fault d c srcs replace = (Ok tt, fault') ->
  srcs <> [] ->
  FaultGeometry.setup_subfaults fault' d c srcs' false = (Raise FaultGeometryError, fault').
Proof.
  intros (Hd & Hn & _ & ->)%setup_subfaults_spec Hne.
  set (fault' := with_sources fault _).
  assert (declared fault' d c) as [Hd' Hc'] by done.
  unfold FaultGeometry.setup_subfaults, FaultGeometry._check_datatype,
    FaultGeometry._check_component, str_in.
  rewrite !bool_decide_eq_true_2 by done.
  case_bool_decide as Hn'; [|done].
  change (FaultGeometry.nsubfaults fault') with (FaultGeometry.nsubfaults fault) in Hn'.
  destruct srcs as [|s0 srcs]; [done|]. destruct srcs' as [|s1 srcs']; [simpl in *; lia|].
  cbn [FaultGeometry.setup_loop]. rewrite get_subfault_key_declared by done.
  change (FaultGeometry.nsubfaults fault') with (FaultGeometry.nsubfaults fault).
  destruct (Z.ltb_spec (FaultGeometry.nsubfaults fault - 1) 0); [simpl in *; lia|].
  rewrite bool_decide_eq_false_2; [done|].
  unfold fault'. cbn [with_sources FaultGeometry._ext_sources].
  pose proof (register_lookup d c 0 (s0 :: srcs) (FaultGeometry._ext_sources fault) 0 s0
                eq_refl) as Hk.
  change (0 + Z.of_nat 0)%Z with 0%Z in Hk. by rewrite Hk.
Qed.

(** A second registration on the fault of one subfault. *)
Lemma setup_subfaults_twice_witness :
  FaultGeometry.setup_subfaults one_subfault "seismic" "Uparr" [source_23km] false
  = (Raise FaultGeometryError, one_subfault).
Proof.
  apply (setup_subfaults_twice
           (FaultGeometry.__init__ ["seismic"] ["Uparr"] two_by_two)
           "seismic" "Uparr" [example_source] false one_subfault [source_23km]).
  - by vm_compute.
  - done.
Defined.

(** X6: [setup_subfaults] succeeds exactly when the datatype and the
    component are declared, there is one source per subfault and, unless
    [replace] is set, none of the keys of the pair is registered yet.  An
    undeclared datatype or component is a [TypeError], a wrong number of
    sources a [FaultGeometryError], and both leave the fault as it was. *)
Theorem setup_subfaults_accepts fault d c srcs replace :
  ((FaultGeometry.setup_subfaults fault d c srcs replace).1 = Ok tt <->
   declared fault d c /\
   Z.of_nat (length srcs) = FaultGeometry.nsubfaults fault /\
   (replace = true \/
    forall j, (j < length srcs)%nat ->
      FaultGeometry._ext_sources fault !! subfault_key d c (Z.of_nat j) = None)) /\
  (~ declared fault d c ->
   FaultGeometry.setup_subfaults fault d c srcs replace = (Raise TypeError, fault)) /\
  (declared fault d c -> Z.of_nat (length srcs) <> FaultGeometry.nsubfaults fault ->
   FaultGeometry.setup_subfaults fault d c srcs replace = (Raise FaultGeometryError, fault)).
Proof.
  split; [|split].
  - destruct (FaultGeometry.setup_subfaults fault d c srcs replace) as [[[]|e] f'] eqn:E;
      cbn [fst].
    + apply setup_subfaults_spec in E as (? & ? & ? & _). done.
    + split; [done|]. intros (Hd & Hn & Hf).
      pose proof (proj2 (setup_subfaults_spec fault d c srcs replace _)
                    (conj Hd (conj Hn (conj Hf eq_refl)))) as E'.
      congruence.
  - intros Hnd. unfold FaultGeometry.setup_subfaults, FaultGeometry._check_datatype,
      FaultGeometry._check_component, str_in.
    case_bool_decide as Hd; [|done]. case_bool_decide as Hc; [|done]. by destruct Hnd.
  - intros [Hd Hc] Hn. unfold FaultGeometry.setup_subfaults, FaultGeometry._check_datatype,
      FaultGeometry._check_component, str_in.
    rewrite !bool_decide_eq_true_2 by done. by rewrite bool_decide_eq_false_2.
Qed.

Lemma list_get_nat {A} (l : list A) (i : nat) x :
  l !! i = Some x -> list_get l (Z.of_nat i) = Ok x.
Proof.
  intros H. pose proof (lookup_lt_Some _ _ _ H). unfold list_get.
  rewrite norm_index_nat by done. cbn [mbind result_bind]. by rewrite H.
Qed.

(** X9: [get_patch_indexes] reads a negative index from [-nsubfaults] on as
    the index [nsubfaults] above it: the guard lets it pass and the list of
    the ordering counts it from its end. *)
Theorem get_patch_indexes_wraps fault index :
  (- FaultGeometry.nsubfaults fault <= index < 0)%Z ->
  FaultGeometry.get_patch_indexes fault index
  = FaultGeometry.get_patch_indexes fault (index + FaultGeometry.nsubfaults fault).
Proof.
  intros H. unfold FaultGeometry.get_patch_indexes. rewrite !check_index_spec.
  rewrite !bool_decide_eq_false_2 by lia. cbn [mbind result_bind].
  unfold list_get, FaultGeometry.nsubfaults in *.
  set (l := FaultOrdering.vmap (FaultGeometry.ordering fault)) in *.
  rewrite !norm_index_valid by (unfold valid_index; lia).
  unfold norm.
  destruct (Z.leb_spec 0 index); [lia|].
  destruct (Z.leb_spec 0 (index + Z.of_nat (length l))); [|lia]. done.
Qed.

(** The index -1 on the fault of one subfault. *)
Lemma get_patch_indexes_wraps_witness :
  FaultGeometry.get_patch_indexes one_subfault (-1)
  = FaultGeometry.get_patch_indexes one_subfault 0.
Proof.
  apply (get_patch_indexes_wraps one_subfault (-1)). by vm_compute.
Defined.

Lemma get_all_patches_loop fault dt ct (k : nat) :
  forall (i : nat) ys e acc,
    (i + k)%nat = length (FaultOrdering.vmap (FaultGeometry.ordering fault)) ->
    FaultGeometry.iter_loop fault dt ct (seqZ (Z.of_nat i) (Z.of_nat k)) = (ys, e) ->
    foldM (fun patches i =>
             ps ← FaultGeometry.get_subfault_patches fault i dt ct; Ok (patches ++ ps))
          acc (seqZ (Z.of_nat i) (Z.of_nat k))
    = match e with
      | Some e => Raise e
      | None =>
          Ok (acc ++ concat (zip_with (subfault_patches dt) ys
                               (drop i (FaultOrdering.vmap (FaultGeometry.ordering fault)))))
      end.
Proof.
  induction k as [|k IH]; intros i ys e acc Hik Hy.
  - simpl in *. injection Hy as <- <-. simpl. by rewrite app_nil_r.
  - rewrite Nat2Z.inj_succ, seqZ_cons in * by lia.
    replace (Z.pred (Z.succ (Z.of_nat k))) with (Z.of_nat k) in * by lia.
    replace (Z.succ (Z.of_nat i)) with (Z.of_nat (S i)) in * by lia.
    cbn [FaultGeometry.iter_loop] in Hy. cbn [foldM].
    destruct (lookup_lt_is_Some_2 (FaultOrdering.vmap (FaultGeometry.ordering fault)) i
                ltac:(lia)) as [pm Hpm].
    unfold FaultGeometry.get_subfault_patches. rewrite check_index_spec.
    rewrite bool_decide_eq_false_2 by (unfold FaultGeometry.nsubfaults; lia).
    cbn [mbind result_bind].
    destruct (FaultGeometry.get_subfault fault (Z.of_nat i) dt ct) as [s|e0] eqn:Es.
    + destruct (FaultGeometry.iter_loop fault dt ct (seqZ (Z.of_nat (S i)) (Z.of_nat k))) as [ys' e'] eqn:Ey.
      injection Hy as <- <-.
      cbn [mbind result_bind].
      rewrite (list_get_nat _ _ _ Hpm). cbn [mbind result_bind].
      destruct (PatchMap.shp pm) as [npw npl] eqn:Eshp. cbn [mbind result_bind].
      rewrite (IH (S i) ys' e') by (done || lia).
      destruct e'; [done|].
      rewrite (drop_S _ _ _ Hpm). cbn [zip_with concat].
      unfold subfault_patches at 2. rewrite Eshp. cbn [fst snd]. by rewrite <- app_assoc.
    + injection Hy as <- <-. done.
Qed.

(** X10: [get_all_patches] ends in the exception that ends [iter_subfaults]
    for the same datatype and component, if one does; otherwise it returns
    the patches of the subfaults, in subfault order, each subfault divided
    by the counts [(npw, npl)] of its shape in the ordering. *)
Theorem get_all_patches_concat fault dt ct :
  FaultGeometry.get_all_patches fault dt ct
  = match (FaultGeometry.iter_subfaults fault dt ct).2 with
    | Some e => Raise e
    | None =>
        Ok (concat (zip_with (subfault_patches dt) (FaultGeometry.iter_subfaults fault dt ct).1
                      (FaultOrdering.vmap (FaultGeometry.ordering fault))))
    end.
Proof.
  destruct (FaultGeometry.iter_subfaults fault dt ct) as [srcs e] eqn:H. cbn [fst snd].
  unfold FaultGeometry.get_all_patches, FaultGeometry.iter_subfaults, FaultGeometry.nsubfaults in *.
  change 0%Z with (Z.of_nat 0) in *.
  by rewrite (get_all_patches_loop fault dt ct _ 0%nat srcs e []).
Qed.

(** ** discretize_sources: what is registered *)




Section ExtendClosed.

Variable extent_source : RectangularSource.t -> Q -> Q -> Q -> Q -> RectangularSource.t.
Variables (ew el pw pl : Q).


End ExtendClosed.

Section DiscretizeRegisters.

Variable extent_source : RectangularSource.t -> Q -> Q -> Q -> Q -> RectangularSource.t.
Variables (ew el pw pl : Q).



End DiscretizeRegisters.


Lemma slip_directions_keys v pm :
  slip_directions !! v = Some pm -> v = "Uparr" \/ v = "Uperp" \/ v = "Utensile".
Proof.
  unfold slip_directions. intros H.
  destruct (decide (v = "Uparr")) as [|H1]; [by left|].
  destruct (decide (v = "Uperp")) as [|H2]; [by right; left|].
  destruct (decide (v = "Utensile")) as [|H3]; [by right; right|].
  rewrite !lookup_insert_ne in H by done. rewrite lookup_singleton_ne in H by done. done.
Qed.

(** X12: when [discretize_sources] returns, a seismic datatype comes with
    square patches and at most one source, and, if there is a datatype at
    all, every variable name is one of the catalogue, [Uparr], [Uperp] or
    [Utensile]. *)
Theorem discretize_sources_accepts
    (extent_source : RectangularSource.t -> Q -> Q -> Q -> Q -> RectangularSource.t)
    (ew el pw pl : Q) sources datatypes varnames fault :
  discretize_sources extent_source ew el pw pl sources datatypes varnames = Ok fault ->
  ("seismic" ∈ datatypes -> (pl == pw)%Q /\ (length sources <= 1)%nat) /\
  (datatypes <> [] ->
   forall v, v ∈ varnames -> v = "Uparr" \/ v = "Uperp" \/ v = "Utensile").
Proof.
  unfold discretize_sources, str_in. intros H. split.
  - intros Hs. rewrite bool_decide_eq_true_2 in H by done. cbn [andb] in H.
    destruct (Qeq_bool pl pw) eqn:Eq; [|done]. cbn [negb] in H.
    case_bool_decide as Hl; [done|]. split; [by apply Qeq_bool_iff | lia].
  - intros Hne v Hv.
    destruct (_ && _); [done|]. destruct (_ && _); [done|].
    destruct (patch_counts _ _ _ _ _ _) as [[npls npws]|]; [|done]. cbn [mbind result_bind] in H.
    destruct (FaultOrdering.__init__ npls npws) as [o|]; [|done]. cbn [mbind result_bind] in H.
    destruct datatypes as [|d ds]; [done|].
    destruct (foldM_steps _ _ _ _ d H ltac:(by left)) as (f0 & f1 & Hin).
    destruct (foldM_steps _ _ _ _ v Hin Hv) as (f2 & f3 & Hstep).
    unfold register_component, dict_get in Hstep.
    destruct (slip_directions !! v) as [pm|] eqn:E; [|done].
    by apply slip_directions_keys in E.
Qed.

(** The 23 km source, for the seismic datatype. *)
Lemma discretize_sources_accepts_witness :
  exists fault,
    discretize_sources same_extent (1 # 10) (1 # 10) 5000 5000
      [source_23km] ["seismic"] ["Uparr"] = Ok fault /\
    (length [source_23km] <= 1)%nat.
Proof.
  destruct (discretize_sources same_extent (1 # 10) (1 # 10) 5000 5000
              [source_23km] ["seismic"] ["Uparr"]) as [fault|e] eqn:E;
    [|vm_compute in E; discriminate].
  destruct (discretize_sources_accepts same_extent (1 # 10) (1 # 10) 5000 5000
              [source_23km] ["seismic"] ["Uparr"] fault E) as [H _].
  exists fault. split; [done|]. apply H. by left.
Defined.

(** ** The library: targets, extents and sizes *)

Lemma enumerate_dict_snoc l x :
  enumerate_dict (l ++ [x]) = <[x := length l]> (enumerate_dict l).
Proof.
  unfold enumerate_dict. rewrite imap_app, foldl_app. simpl. by rewrite Nat.add_0_r.
Qed.

Lemma enumerate_dict_lookup l tg i :
  enumerate_dict l !! tg = Some i <->
  l !! i = Some tg /\ forall j, (i < j)%nat -> l !! j <> Some tg.
Proof.
  revert i. induction l as [|x l IH] using rev_ind; intros i.
  - unfold enumerate_dict. simpl. rewrite lookup_empty. split; [done|]. by intros [? _].
  - rewrite enumerate_dict_snoc. destruct (decide (x = tg)) as [->|Hx].
    + rewrite lookup_insert_eq. split.
      * intros [= <-]. split; [by rewrite list_lookup_middle|].
        intros j Hj. rewrite lookup_ge_None_2; [done|]. rewrite length_app. simpl. lia.
      * intros [Hi Hlast]. f_equal.
        destruct (decide (i = length l)) as [->|Hne]; [done|].
        pose proof (lookup_lt_Some _ _ _ Hi) as Hlt. rewrite length_app in Hlt. simpl in Hlt.
        destruct (Hlast (length l) ltac:(lia)). by rewrite list_lookup_middle.
    + rewrite lookup_insert_ne by done. rewrite IH. split.
      * intros [Hi Hlast]. pose proof (lookup_lt_Some _ _ _ Hi) as Hlt. split.
        -- by rewrite lookup_app_l.
        -- intros j Hj. destruct (decide (j < length l)%nat).
           ++ rewrite lookup_app_l by done. by apply Hlast.
           ++ destruct (decide (j = length l)) as [->|].
              ** rewrite list_lookup_middle by done. congruence.
              ** rewrite lookup_ge_None_2; [done|]. rewrite length_app. simpl. lia.
      * intros [Hi Hlast].
        pose proof (lookup_lt_Some _ _ _ Hi) as Hlt. rewrite length_app in Hlt. simpl in Hlt.
        destruct (decide (i = length l)) as [->|Hne].
        -- rewrite list_lookup_middle in Hi by done. congruence.
        -- rewrite lookup_app_l in Hi by lia. split; [done|].
           intros j Hj Hl. apply (Hlast j Hj).
           pose proof (lookup_lt_Some _ _ _ Hl). by rewrite lookup_app_l.
Qed.

Lemma stack_snd s target ps rs ss slips :
  (stack target ps rs ss slips s).2 = set_target2index (Some (t2i_of s)) s.
Proof.
  unfold stack. unfold bind at 1. rewrite target_index_mapping_run.
  unfold bind at 1, lift at 1. destruct (dict_get (t2i_of s) target) as [tidx|]; [|done].
  unfold bind at 1, get at 1.
  cbn [_stack_switch set_target2index].
  destruct (_stack_switch s) as [sw|]; [|done].
  unfold bind at 1, lift at 1. cbn [_mode set_target2index].
  destruct (dict_get sw (_mode s)) as [g|]; [|done].
  unfold bind at 1, deref at 1. unfold bind at 1, lift at 1.
  destruct (ndarray.getitem _ _ _ _ _) as [rows|]; [|done].
  unfold bind at 1, nsamples. rewrite shape_of_run.
  destruct (shape_value _ _) as [ns|]; [|done].
  unfold bind, lift, ret. by destruct (reshape2 _ _ _).
Qed.

Lemma set_stack_mode_run mode s :
  set_stack_mode mode s
  = match _stack_switch s with
    | None => (Raise AttributeError, s)
    | Some sw =>
        if bool_decide (mode ∈ dom sw) then (Ok tt, set_mode mode s) else (Raise TypeError, s)
    end.
Proof.
  unfold set_stack_mode, bind, get, modify, raise. simpl.
  destruct (_stack_switch s) as [sw|]; [|done]. by case_bool_decide.
Qed.

Lemma exec_target_state s c : target_state (exec s c) = target_state s.
Proof.
  destruct c as [n0 n1 n2 n3 n4| |e tg p rs ss|m|tg ps rs ss sl|rs ss sl]; cbn [exec].
  - rewrite setup_run. case_bool_decide; [done|]. by destruct (ndarray.zeros _ _ _ _ _).
  - rewrite init_optimization_run. by destruct (_gfmatrix s).
  - destruct e as [xs|ncols rows]; [done|]. rewrite put_run.
    destruct (shape_value _ s) as [ns|]; [|done]. case_bool_decide; [done|]. cbv zeta.
    destruct (dict_get _ tg) as [tidx|]; [|done].
    destruct (_gfmatrix s) as [g|]; [|done].
    by destruct (ndarray.setitem _ _ _ _ _ _).
  - rewrite set_stack_mode_run. destruct (_stack_switch s) as [sw|]; [|done].
    by case_bool_decide.
  - by rewrite stack_snd.
  - by rewrite stack_all_run.
Qed.

Lemma run_target_state s cs : target_state (run s cs) = target_state s.
Proof.
  unfold run. revert s. induction cs as [|c cs IH]; intros s; [done|].
  simpl. by rewrite IH, exec_target_state.
Qed.

(** X13: on every library built by the constructor and its methods,
    [target_index_mapping] returns the dictionary that sends a target to
    its last position in the list of targets the constructor was given. *)
Theorem target_index_is_last_position component targets stations lib cs :
  SeismicGFLibrary.__init__ component targets stations = Ok lib ->
  exists d,
    (target_index_mapping (run lib cs)).1 = Ok d /\
    forall tg i, d !! tg = Some i <->
      targets !! i = Some tg /\ forall j, (i < j)%nat -> targets !! j <> Some tg.
Proof.
  intros Hlib. exists (enumerate_dict targets). split.
  - rewrite target_index_mapping_run. cbn [fst].
    pose proof (run_target_state lib cs) as E. unfold target_state in E.
    injection E as _ _ ->. unfold SeismicGFLibrary.__init__ in Hlib.
    destruct component; [|done]. by injection Hlib as <-.
  - intros tg i. apply enumerate_dict_lookup.
Qed.

(** On the library of the round trip. *)
Lemma target_index_is_last_position_witness :
  exists d, (target_index_mapping (run fresh_library round_trip_calls)).1 = Ok d /\
            d !! "t0" = Some 0%nat.
Proof.
  destruct (target_index_is_last_position (Some "Uparr") ["t0"] ["s0"] fresh_library
              round_trip_calls eq_refl) as (d & Hd & Hlast).
  exists d. split; [done|]. apply Hlast. split; [done|].
  intros [|j] Hj; [lia | done].
Defined.

Lemma t2i_of_run component targets stations lib cs :
  SeismicGFLibrary.__init__ component targets stations = Ok lib ->
  t2i_of (run lib cs) = enumerate_dict targets.
Proof.
  intros Hlib. pose proof (run_target_state lib cs) as E. unfold target_state in E.
  injection E as _ _ ->. unfold SeismicGFLibrary.__init__ in Hlib.
  destruct component; [|done]. by injection Hlib as <-.
Qed.

Lemma enumerate_dict_unknown l tg : tg ∉ l -> dict_get (enumerate_dict l) tg = Raise KeyError.
Proof.
  intros H. unfold dict_get. destruct (enumerate_dict l !! tg) as [i|] eqn:E; [|done].
  apply enumerate_dict_lookup in E as [Hi _]. destruct H. by apply (list_elem_of_lookup_2 _ i).
Qed.

(** X14: for a target that is not among the targets of the constructor,
    [stack] raises [KeyError] in every state of the library, and so does
    [put] with entries of the sample length of a sized library. *)
Theorem unknown_target_raises_key_error component targets stations lib cs tg :
  SeismicGFLibrary.__init__ component targets stations = Ok lib ->
  tg ∉ targets ->
  (forall ps rs ss slips, (stack tg ps rs ss slips (run lib cs)).1 = Raise KeyError) /\
  (forall ncols (rows : list (vec Q ncols)) p rs ss,
     (nsamples (run lib cs)).1 = Ok ncols ->
     (put (Array2 ncols rows) tg p rs ss (run lib cs)).1 = Raise KeyError).
Proof.
  intros Hlib Htg. split.
  - intros ps rs ss slips. rewrite stack_fst. unfold stack_value.
    rewrite (t2i_of_run _ _ _ _ _ Hlib), enumerate_dict_unknown by done. done.
  - intros ncols rows p rs ss Hns. unfold nsamples in Hns. rewrite shape_of_run in Hns.
    cbn [fst] in Hns. rewrite put_run, Hns.
    rewrite bool_decide_eq_false_2 by (intros H; by apply H). cbv zeta.
    rewrite (t2i_of_run _ _ _ _ _ Hlib), enumerate_dict_unknown by done. done.
Qed.

(** A target the library of the round trip does not know. *)
Lemma unknown_target_raises_key_error_witness :
  (stack "t1" [2%Z] [1%Z] [3%Z] [1%Q] filled_library).1 = Raise KeyError.
Proof.
  destruct (unknown_target_raises_key_error (Some "Uparr") ["t0"] ["s0"] fresh_library
              (round_trip_calls ++ [InitOptimization]) "t1" eq_refl) as [H _].
  - intros Hin%list_elem_of_singleton. done.
  - apply (H [2%Z] [1%Z] [3%Z] [1%Q]).
Defined.

Lemma exec_sized_as sh s c :
  is_setup c = false -> lib_inv s -> sized_as sh s -> sized_as sh (exec s c).
Proof.
  intros Hc [Hw _] (g & Hg & Hlt & Hsh).
  destruct c as [n0 n1 n2 n3 n4| |e tg p rs ss|m|tg ps rs ss sl|rs ss sl]; cbn [exec];
    [done| | | | |].
  - rewrite init_optimization_run, Hg. exists g. cbn. split; [done|].
    rewrite length_app. split; [lia|]. by rewrite lookup_total_app_l.
  - destruct e as [xs|ncols rows]; [by exists g|]. rewrite put_run.
    destruct (shape_value _ s) as [ns|] eqn:Ens; [|by exists g].
    case_bool_decide; [by exists g|]. cbv zeta.
    destruct (dict_get _ tg) as [tidx|]; [|by exists g].
    rewrite Hg.
    destruct (ndarray.setitem _ _ _ _ _ _) as [a'|] eqn:Ea; [|by exists g].
    exists g. cbn. split; [done|]. rewrite length_insert. split; [done|].
    rewrite list_lookup_total_insert_eq by done.
    unfold shape_value in Ens. rewrite Hg in Ens. injection Ens as <-.
    apply setitem_wf in Ea as [_ ->]; [done| |].
    + by apply wf_lookup_total.
    + apply Forall_fmap, Forall_forall. intros v _. simpl. by rewrite length_vec_to_list.
  - rewrite set_stack_mode_run. destruct (_stack_switch s) as [sw|]; [|by exists g].
    case_bool_decide; by exists g.
  - rewrite stack_snd. by exists g.
  - rewrite stack_all_run. by exists g.
Qed.

Lemma run_sized_as sh s cs :
  forallb (fun c => negb (is_setup c)) cs = true ->
  lib_inv s -> sized_as sh s -> sized_as sh (run s cs).
Proof.
  unfold run. revert s. induction cs as [|c cs IH]; intros s Hcs Hs Hsz; [done|].
  simpl in *. apply andb_true_iff in Hcs as [Hc Hcs]. apply negb_true_iff in Hc.
  apply IH; [done| by apply exec_inv | by apply exec_sized_as].
Qed.

Lemma size_run s :
  size s = (match _gfmatrix s with
            | None => Raise AttributeError
            | Some g =>
                let a := arrays s !!! g in
                Ok (ndarray.dim0 a * ndarray.dim1 a * ndarray.dim2 a * ndarray.dim3 a
                    * ndarray.dim4 a)%nat
            end, s).
Proof. unfold size, bind, get, deref, ret, raise. by destruct (_gfmatrix s). Qed.

(** X16: after a successful [setup], and through any later calls other than
    [setup], the shape properties return the extents of that [setup]
    ([ntargets] being the number of stations), [size] their product and
    [filesize] eight bytes per entry in units of 1024 * 1024 bytes. *)
Theorem extents_persist component targets stations lib cs n0 n1 n2 n3 n4 s1 cs' :
  SeismicGFLibrary.__init__ component targets stations = Ok lib ->
  setup n0 n1 n2 n3 n4 (run lib cs) = (Ok tt, s1) ->
  forallb (fun c => negb (is_setup c)) cs' = true ->
  let s := run s1 cs' in
  (ntargets s).1 = Ok (length stations) /\
  (ntargets s).1 = Ok (Z.to_nat n0) /\
  (npatches s).1 = Ok (Z.to_nat n1) /\
  (nrisetimes s).1 = Ok (Z.to_nat n2) /\
  (nstarttimes s).1 = Ok (Z.to_nat n3) /\
  (nsamples s).1 = Ok (Z.to_nat n4) /\
  (size s).1 = Ok (Z.to_nat n0 * Z.to_nat n1 * Z.to_nat n2 * Z.to_nat n3 * Z.to_nat n4)%nat /\
  (filesize s).1
  = Ok (inject_Z (Z.of_nat (Z.to_nat n0 * Z.to_nat n1 * Z.to_nat n2 * Z.to_nat n3 * Z.to_nat n4))
        * 8 / (1024 * 1024))%Q.
Proof.
  intros Hlib Hsetup Hcs' s.
  pose proof (run_inv lib cs (init_inv _ _ _ _ Hlib)) as Hinv.
  assert (SeismicGFLibrary.stations (run lib cs) = stations) as Hst.
  { pose proof (run_target_state lib cs) as E. unfold target_state in E.
    injection E as _ -> _. unfold SeismicGFLibrary.__init__ in Hlib.
    destruct component; [|done]. by injection Hlib as <-. }
  pose proof (setup_inv n0 n1 n2 n3 n4 _ Hinv) as Hinv1. rewrite Hsetup in Hinv1.
  rewrite setup_run in Hsetup. case_bool_decide as H0; [done|].
  assert (n0 = Z.of_nat (length stations)) as Hn0.
  { rewrite <- Hst. destruct (decide (n0 = Z.of_nat (length (SeismicGFLibrary.stations (run lib cs)))));
      [done | by destruct H0]. }
  unfold ndarray.zeros in Hsetup. case_bool_decide as Hn; [|done].
  injection Hsetup as <-.
  set (sh := (Z.to_nat n0, Z.to_nat n1, Z.to_nat n2, Z.to_nat n3, Z.to_nat n4)).
  assert (sized_as sh s) as (g & Hg & Hlt & Hsh).
  { apply run_sized_as; [done|done|]. eexists. cbn. split; [done|].
    rewrite length_app. cbn. split; [lia|]. by rewrite list_lookup_total_middle. }
  unfold ntargets, npatches, nrisetimes, nstarttimes, nsamples, filesize, bind, ret.
  rewrite !shape_of_run, size_run. unfold shape_value. rewrite Hg. cbn [fst].
  unfold ndarray.dim0, ndarray.dim1, ndarray.dim2, ndarray.dim3, ndarray.dim4.
  rewrite Hsh. cbn [fst snd sh].
  repeat split; try done. f_equal. rewrite Hn0. lia.
Qed.

(** On the library of the round trip after [init_optimization]. *)
Lemma extents_persist_witness :
  (npatches filled_library).1 = Ok 3%nat /\ (size filled_library).1 = Ok 48%nat.
Proof.
  destruct (extents_persist (Some "Uparr") ["t0"] ["s0"] fresh_library [] 1 3 2 4 2
              (run fresh_library [Setup 1 3 2 4 2])
              [Put (Array2 2 [known_row]) "t0" 2 [1%Z] [3%Z]; InitOptimization])
    as (_ & _ & Hp & _ & _ & _ & Hs & _).
  - reflexivity.
  - by vm_compute.
  - reflexivity.
  - split; [exact Hp | exact Hs].
Defined.

(** ** The library: what put writes *)

Lemma mapM_Forall2 {A B} (f : A -> result B) l ys :
  mapM f l = Ok ys -> Forall2 (fun x y => f x = Ok y) l ys.
Proof.
  revert ys. induction l as [|x l IH]; intros ys H; simpl in H.
  - injection H as <-. constructor.
  - destruct (f x) as [y|] eqn:E; [|done]. simpl in H.
    destruct (mapM f l) as [ys'|]; [|done]. simpl in H. injection H as <-.
    constructor; [done | by apply IH].
Qed.

Lemma bcast_single {A} `{Inhabited A} n (p x : A) : x ∈ bcast n [p] -> x = p.
Proof.
  unfold bcast. case_bool_decide as Hn; intros Hx.
  - by apply list_elem_of_singleton in Hx.
  - simpl in Hx. by apply elem_of_replicate in Hx as [? _].
Qed.

Lemma positions_one_patch a p rs ss pos :
  ndarray.positions a [p] rs ss = Ok pos ->
  Forall (fun x : nat * nat * nat => norm_index (ndarray.dim1 a) p = Ok x.1.1) pos.
Proof.
  unfold ndarray.positions.
  destruct (bshape _ _) as [n1|]; [|done]. cbn [mbind result_bind].
  destruct (bshape _ _) as [n|]; [|done]. cbn [mbind result_bind].
  intros H%mapM_Forall2. apply Forall_forall. intros x Hx.
  apply list_elem_of_lookup in Hx as [k Hk].
  destruct (Forall2_lookup_r _ _ _ _ _ H Hk) as (i & Hi & Hf).
  apply lookup_zip_with_Some in Hi as (ij & s & -> & Hij & _).
  apply lookup_zip_with_Some in Hij as (pi & r & -> & Hp & _).
  apply list_elem_of_lookup_2, bcast_single in Hp as ->. cbn [fst snd] in Hf.
  destruct (norm_index (ndarray.dim1 a) p) as [p'|]; [|done]. cbn [mbind result_bind] in Hf.
  destruct (norm_index (ndarray.dim2 a) r) as [r'|]; [|done]. cbn [mbind result_bind] in Hf.
  destruct (norm_index (ndarray.dim3 a) s) as [s'|]; [|done]. cbn [mbind result_bind] in Hf.
  by injection Hf as <-.
Qed.

Lemma row_set_row_other a ti p r s v t q r' s' :
  t <> ti \/ q <> p ->
  ndarray.row (ndarray.set_row a ti p r s v) t q r' s' = ndarray.row a t q r' s'.
Proof.
  intros H. unfold ndarray.row, ndarray.set_row. cbn [ndarray.data].
  destruct (decide (t = ti)) as [->|Ht].
  - destruct H as [?|Hq]; [done|].
    rewrite !(list_lookup_total_alt _ ti), list_lookup_alter.
    rewrite decide_True by done.
    destruct (ndarray.data a !! ti) as [x|]; cbn [fmap option_fmap option_map default]; [|done].
    unfold id. by rewrite list_lookup_total_alter_ne.
  - by rewrite list_lookup_total_alter_ne.
Qed.

Lemma foldl_set_row_other ti t q r' s' (l : list ((nat * nat * nat) * list Q)) a :
  Forall (fun w => t <> ti \/ q <> w.1.1.1) l ->
  ndarray.row (foldl (fun a (w : (nat * nat * nat) * list Q) =>
                        ndarray.set_row a ti w.1.1.1 w.1.1.2 w.1.2 w.2) a l) t q r' s'
  = ndarray.row a t q r' s'.
Proof.
  revert a. induction l as [|w l IH]; intros a H; [done|].
  apply Forall_cons in H as [Hw Hl]. simpl. rewrite IH by done.
  by apply row_set_row_other.
Qed.

Lemma setitem_other a tz p rs ss rows a' t q r' s' :
  ndarray.setitem a tz p rs ss rows = Ok a' ->
  norm_index (ndarray.dim0 a) tz <> Ok t \/ norm_index (ndarray.dim1 a) p <> Ok q ->
  ndarray.row a' t q r' s' = ndarray.row a t q r' s'.
Proof.
  unfold ndarray.setitem. intros H Hne.
  destruct (ndarray.positions a [p] rs ss) as [pos|] eqn:Epos; [|done].
  cbn [mbind result_bind] in H.
  apply positions_one_patch in Epos.
  match type of H with (?m ≫= _) = _ => destruct m as [rows'|]; [|done] end.
  cbn [mbind result_bind] in H.
  destruct (norm_index (ndarray.dim0 a) tz) as [ti|] eqn:Et; [|done].
  cbn [mbind result_bind] in H. injection H as <-.
  apply foldl_set_row_other. apply Forall_forall. intros [x v] Hx.
  apply elem_of_zip_l in Hx. cbn [fst snd].
  pose proof (proj1 (Forall_forall _ _) Epos x Hx) as Hp. cbn beta in Hp.
  destruct Hne as [Hne|Hne].
  - left. intros ->. by destruct Hne.
  - right. intros ->. by destruct Hne.
Qed.

(** X17: a successful [put] leaves the trace of every other target and of
    every other patch as it was, as well as every array but the one behind
    [_gfmatrix], the patch indexes, the backend switch and the mode. *)
Theorem put_touches_one_patch ncols (rows : list (vec Q ncols)) tg p rs ss s s' :
  put (Array2 ncols rows) tg p rs ss s = (Ok tt, s') ->
  exists tidx,
    dict_get (t2i_of s) tg = Ok tidx /\
    (forall t q r s0,
       t <> tidx \/ norm_index (ndarray.dim1 (gf_array s)) p <> Ok q ->
       ndarray.row (gf_array s') t q r s0 = ndarray.row (gf_array s) t q r s0) /\
    (forall g, _gfmatrix s <> Some g -> arrays s' !!! g = arrays s !!! g) /\
    length (arrays s') = length (arrays s) /\
    _gfmatrix s' = _gfmatrix s /\ _patchidxs s' = _patchidxs s /\
    switch_state s' = switch_state s /\ _mode s' = _mode s.
Proof.
  rewrite put_run.
  destruct (shape_value _ s) as [ns|]; [|done]. case_bool_decide; [done|]. cbv zeta.
  destruct (dict_get (t2i_of s) tg) as [tidx|]; [|done].
  destruct (_gfmatrix s) as [g|] eqn:Eg; [|done].
  destruct (ndarray.setitem _ _ _ _ _ _) as [a'|] eqn:Ea; [|done].
  intros [= <-]. exists tidx. split; [done|].
  unfold gf_array. cbn [_gfmatrix arrays set_arrays set_target2index]. rewrite Eg.
  split; [|split; [|split; [|done]]].
  - intros t q r s0 Hne.
    destruct (decide (g < length (arrays s))%nat) as [Hlt|Hge].
    + rewrite list_lookup_total_insert_eq by done.
      apply (setitem_other _ _ _ _ _ _ _ _ _ _ _ Ea).
      destruct Hne as [Hne|Hne]; [left|by right].
      intros Ht. apply norm_index_inv in Ht as [_ ->]. by rewrite norm_of_nat in Hne.
    + by rewrite list_insert_ge by lia.
  - intros g0 Hg0. rewrite list_lookup_total_insert_ne; [done|]. congruence.
  - by rewrite length_insert.
Qed.

(** The put of the round trip writes patch 2: patch 1 stays zero. *)
Lemma put_touches_one_patch_witness :
  ndarray.row (gf_array (run fresh_library round_trip_calls)) 0 1 1 3 = [0; 0]%Q.
Proof.
  destruct (put_touches_one_patch 2 [known_row] "t0" 2 [1%Z] [3%Z]
              (run fresh_library [Setup 1 3 2 4 2]) (run fresh_library round_trip_calls))
    as (tidx & _ & H & _).
  - by vm_compute.
  - rewrite (H 0%nat 1%nat 1%nat 3%nat); [by vm_compute|].
    right. by vm_compute.
Defined.

(** X18: a [put] that raises leaves the arrays, the patch indexes, the backend
    switch, the mode and the target mapping as they were.  One-dimensional
    entries are a [ValueError]; entries for a library that is not sized, or
    of another sample length than the library, are a [GFLibraryError] and
    leave the library unchanged. *)
Theorem put_refusals tg p rs ss s :
  (forall e x, (put e tg p rs ss s).1 = Raise x ->
     let s' := (put e tg p rs ss s).2 in
     data_state s' = data_state s /\ switch_state s' = switch_state s /\
     _mode s' = _mode s /\ targets s' = targets s /\ t2i_of s' = t2i_of s) /\
  (forall xs, put (Array1 xs) tg p rs ss s = (Raise ValueError, s)) /\
  (forall ncols rows, _gfmatrix s = None ->
     put (Array2 ncols rows) tg p rs ss s = (Raise GFLibraryError, s)) /\
  (forall ncols rows ns, (nsamples s).1 = Ok ns -> ncols <> ns ->
     put (Array2 ncols rows) tg p rs ss s = (Raise GFLibraryError, s)).
Proof.
  split; [|split; [done|split]].
  - intros [xs|ncols rows] x; [done|]. rewrite put_run.
    destruct (shape_value _ s) as [ns|]; [|done]. case_bool_decide; [done|]. cbv zeta.
    destruct (dict_get (t2i_of s) tg) as [tidx|]; [|done].
    destruct (_gfmatrix s) as [g|]; [|done].
    by destruct (ndarray.setitem _ _ _ _ _ _) as [a'|].
  - intros ncols rows Hg. rewrite put_run. unfold shape_value. by rewrite Hg.
  - intros ncols rows ns Hns Hne. unfold nsamples in Hns. rewrite shape_of_run in Hns.
    cbn [fst] in Hns. rewrite put_run, Hns. by rewrite bool_decide_eq_true_2.
Qed.

(** ** The library: before sizing, reading, and the copy of the graph backend *)

Lemma exec_unsized s c : is_setup c = false -> unsized s -> unsized (exec s c).
Proof.
  intros Hc (Hg & Hsg & Hsw).
  destruct c as [n0 n1 n2 n3 n4| |e tg p rs ss|m|tg ps rs ss sl|rs ss sl]; cbn [exec];
    [done| | | | |].
  - by rewrite init_optimization_run, Hg.
  - destruct e as [xs|ncols rows]; [done|]. rewrite put_run. unfold shape_value.
    by rewrite Hg.
  - by rewrite set_stack_mode_run, Hsw.
  - by rewrite stack_snd.
  - by rewrite stack_all_run.
Qed.

Lemma run_unsized s cs :
  forallb (fun c => negb (is_setup c)) cs = true -> unsized s -> unsized (run s cs).
Proof.
  unfold run. revert s. induction cs as [|c cs IH]; intros s Hcs Hs; [done|].
  simpl in *. apply andb_true_iff in Hcs as [Hc Hcs]. apply negb_true_iff in Hc.
  apply IH; [done | by apply exec_unsized].
Qed.

Lemma enumerate_dict_known l tg : tg ∈ l -> exists j, enumerate_dict l !! tg = Some j.
Proof.
  induction l as [|x l IH] using rev_ind; [by intros ?%elem_of_nil|].
  rewrite enumerate_dict_snoc. destruct (decide (x = tg)) as [->|Hx].
  - rewrite lookup_insert_eq. by eexists.
  - rewrite lookup_insert_ne by done. rewrite elem_of_app, list_elem_of_singleton.
    intros [?|?]; [by apply IH | congruence].
Qed.

(** X19: as long as [setup] has not been called, whatever else has been
    called, the shape properties and [put] raise [GFLibraryError], [size],
    [filesize], [init_optimization] and [set_stack_mode] raise
    [AttributeError], [stack_all] raises [GFLibraryError] and [stack] for a
    known target raises [AttributeError]. *)
Theorem unsized_library_refuses component targets stations lib cs :
  SeismicGFLibrary.__init__ component targets stations = Ok lib ->
  forallb (fun c => negb (is_setup c)) cs = true ->
  let s := run lib cs in
  (ntargets s).1 = Raise GFLibraryError /\
  (npatches s).1 = Raise GFLibraryError /\
  (nrisetimes s).1 = Raise GFLibraryError /\
  (nstarttimes s).1 = Raise GFLibraryError /\
  (nsamples s).1 = Raise GFLibraryError /\
  (size s).1 = Raise AttributeError /\
  (filesize s).1 = Raise AttributeError /\
  (init_optimization s).1 = Raise AttributeError /\
  (forall mode, (set_stack_mode mode s).1 = Raise AttributeError) /\
  (forall rs ss slips, (stack_all rs ss slips s).1 = Raise GFLibraryError) /\
  (forall tg ps rs ss slips, tg ∈ targets ->
     (stack tg ps rs ss slips s).1 = Raise AttributeError) /\
  (forall ncols rows tg p rs ss,
     (put (Array2 ncols rows) tg p rs ss s).1 = Raise GFLibraryError).
Proof.
  intros Hlib Hcs s.
  assert (unsized s) as (Hg & Hsg & Hsw).
  { apply run_unsized; [done|]. unfold SeismicGFLibrary.__init__ in Hlib.
    destruct component; [|done]. by injection Hlib as <-. }
  unfold ntargets, npatches, nrisetimes, nstarttimes, nsamples, filesize, bind.
  rewrite !shape_of_run, size_run, init_optimization_run. unfold shape_value. rewrite Hg.
  repeat split; try done.
  - intros mode. by rewrite set_stack_mode_run, Hsw.
  - intros rs ss slips. rewrite stack_all_run. unfold stack_all_value. by rewrite Hsg.
  - intros tg ps rs ss slips Htg. rewrite stack_fst. unfold stack_value.
    unfold s. rewrite (t2i_of_run _ _ _ _ _ Hlib). unfold dict_get.
    destruct (enumerate_dict_known _ _ Htg) as [i ->].
    cbn [mbind result_bind]. fold s. by rewrite Hsw.
  - intros ncols rows tg p rs ss. rewrite put_run. unfold shape_value. by rewrite Hg.
Qed.

(** On the library of the constructor, after two calls that are not [setup]. *)
Lemma unsized_library_refuses_witness :
  (size (run fresh_library [InitOptimization; SetStackMode "numpy"])).1 = Raise AttributeError.
Proof.
  destruct (unsized_library_refuses (Some "Uparr") ["t0"] ["s0"] fresh_library
              [InitOptimization; SetStackMode "numpy"] eq_refl eq_refl)
    as (_ & _ & _ & _ & _ & H & _).
  exact H.
Defined.

(** X20: [stack_all] leaves the library exactly as it was; [stack] leaves the
    arrays, the patch indexes, the backend switch, the mode, the targets
    and the target mapping as they were (it stores the mapping in its
    cache). *)
Theorem stacking_reads_only s :
  (forall rs ss slips, (stack_all rs ss slips s).2 = s) /\
  (forall tg ps rs ss slips,
     let s' := (stack tg ps rs ss slips s).2 in
     data_state s' = data_state s /\ switch_state s' = switch_state s /\
     _mode s' = _mode s /\ target_state s' = target_state s /\
     _target2index s' = Some (t2i_of s)).
Proof.
  split.
  - intros rs ss slips. by rewrite stack_all_run.
  - intros tg ps rs ss slips. cbv zeta. by rewrite stack_snd.
Qed.

Lemma exec_switch_some s c : is_Some (_stack_switch s) -> is_Some (_stack_switch (exec s c)).
Proof.
  intros Hs. destruct (is_init c) eqn:Hc.
  - destruct c; try done. cbn [exec]. rewrite init_optimization_run.
    destruct (_gfmatrix s); [by eexists | done].
  - pose proof (exec_switch (switch_state s) s c Hc eq_refl) as E.
    unfold switch_state in E. by injection E as -> _.
Qed.

Lemma run_switch_some s cs : is_Some (_stack_switch s) -> is_Some (_stack_switch (run s cs)).
Proof.
  unfold run. revert s. induction cs as [|c cs IH]; intros s Hs; [done|].
  simpl. apply IH. by apply exec_switch_some.
Qed.

(** X21: once [init_optimization] has succeeded, and whatever has been called
    since, [set_stack_mode] accepts exactly the modes [numpy] and [theano]
    and sets the mode; any other mode is a [TypeError] and leaves the
    library unchanged. *)
Theorem set_stack_mode_after_init component targets stations lib cs s1 cs' mode :
  SeismicGFLibrary.__init__ component targets stations = Ok lib ->
  init_optimization (run lib cs) = (Ok tt, s1) ->
  let s := run s1 cs' in
  set_stack_mode mode s
  = if bool_decide (mode = "numpy" \/ mode = "theano") then (Ok tt, set_mode mode s)
    else (Raise TypeError, s).
Proof.
  intros Hlib Hinit s.
  assert (switch_known lib) as Hk0.
  { unfold SeismicGFLibrary.__init__ in Hlib. destruct component; [|done].
    injection Hlib as <-. by intros sw. }
  assert (switch_known s1) as Hk1.
  { pose proof (init_optimization_switch_known (run lib cs) (run_switch_known _ cs Hk0)) as H.
    by rewrite Hinit in H. }
  assert (is_Some (_stack_switch s1)) as Hs1.
  { rewrite init_optimization_run in Hinit. destruct (_gfmatrix (run lib cs)); [|done].
    injection Hinit as <-. by eexists. }
  destruct (run_switch_some s1 cs' Hs1) as [sw Hsw]. fold s in Hsw.
  pose proof (run_switch_known s1 cs' Hk1 sw Hsw) as Hdom.
  rewrite set_stack_mode_run, Hsw, Hdom.
  case_bool_decide as H1; case_bool_decide as H2; try done.
  - destruct H2. set_solver.
  - destruct H1. set_solver.
Qed.

(** On the library of the round trip after [init_optimization]. *)
Lemma set_stack_mode_after_init_witness :
  set_stack_mode "numpy" filled_library = (Ok tt, set_mode "numpy" filled_library).
Proof.
  apply (set_stack_mode_after_init (Some "Uparr") ["t0"] ["s0"] fresh_library
           round_trip_calls filled_library [] "numpy").
  - reflexivity.
  - by vm_compute.
Defined.

Lemma exec_graph_view s c :
  is_put_or_read c = true -> lib_inv s -> copy_apart s ->
  graph_view (exec s c) = graph_view s /\ copy_apart (exec s c).
Proof.
  intros Hc Hinv (g & g' & Hg & Hg' & Hlt & Hlt' & Hne).
  destruct c as [n0 n1 n2 n3 n4| |e tg p rs ss|m|tg ps rs ss sl|rs ss sl]; cbn [exec];
    [done|done| | | |].
  - destruct (put e tg p rs ss s) as [[[]|x] s'] eqn:Hput.
    + destruct e as [xs|ncols rows]; [done|].
      pose proof (exec_sized_as (ndarray.shape (arrays s !!! g)) s
                    (Put (Array2 ncols rows) tg p rs ss) eq_refl Hinv
                    ltac:(by exists g)) as (g0 & Hg0 & Hlt0 & Hsh0).
      pose proof (exec_target_state s (Put (Array2 ncols rows) tg p rs ss)) as Ets.
      cbn [exec] in Hg0, Hlt0, Hsh0, Ets. rewrite Hput in Hg0, Hlt0, Hsh0, Ets.
      cbn [snd] in *.
      apply put_touches_one_patch in Hput
        as (tidx & _ & _ & Hoth & Hlen & Hgf & Hpi & Hsw & Hmode).
      unfold switch_state in Hsw. injection Hsw as Hsw Hsg.
      unfold target_state in Ets. injection Ets as _ _ Et2i.
      split.
      * unfold graph_view. rewrite Hsg, Hgf, Hpi, Hsw, Et2i, Hg, Hg'.
        cbn [fmap option_fmap option_map].
        rewrite (Hoth g') by congruence.
        rewrite Hgf, Hg in Hg0. injection Hg0 as <-. by rewrite Hsh0.
      * exists g, g'. rewrite Hgf, Hsg, Hlen. done.
    + pose proof (proj1 (put_refusals tg p rs ss s) e x) as Hr.
      rewrite Hput in Hr. cbn [fst snd] in *.
      destruct (Hr eq_refl) as (Hd & Hsw & _ & _ & Et2i).
      unfold data_state in Hd. injection Hd as Ha Hgf Hpi.
      unfold switch_state in Hsw. injection Hsw as Hsw Hsg.
      split.
      * unfold graph_view. by rewrite Hsg, Hgf, Hpi, Hsw, Et2i, Ha.
      * exists g, g'. by rewrite Hgf, Hsg, Ha.
  - rewrite set_stack_mode_run. destruct (_stack_switch s) as [sw|].
    + case_bool_decide; (split; [done | by exists g, g']).
    + split; [done | by exists g, g'].
  - rewrite stack_snd. split; [done | by exists g, g'].
  - rewrite stack_all_run. split; [done | by exists g, g'].
Qed.

Lemma run_graph_view s cs :
  forallb is_put_or_read cs = true -> lib_inv s -> copy_apart s ->
  graph_view (run s cs) = graph_view s.
Proof.
  unfold run. revert s. induction cs as [|c cs IH]; intros s Hcs Hinv Hs; [done|].
  simpl in *. apply andb_true_iff in Hcs as [Hc Hcs].
  destruct (exec_graph_view s c Hc Hinv Hs) as [Hv Hs'].
  rewrite IH; [done|done| by apply exec_inv |done].
Qed.

Lemma stack_all_of_view s s' :
  graph_view s' = graph_view s ->
  forall rs ss slips, stack_all_value s' rs ss slips = stack_all_value s rs ss slips.
Proof.
  unfold graph_view. intros [= Ha Hsh Hpi Hsw Hsg Ht] rs ss slips.
  unfold stack_all_value, shape_value, ndarray.dim0, ndarray.dim1, ndarray.dim4.
  rewrite Hsg, Hpi. rewrite Hsg in Ha.
  destruct (_sgfmatrix s) as [g'|]; [|done]. cbn in Ha. injection Ha as ->.
  destruct (_patchidxs s) as [pidx|]; [|done].
  destruct (ndarray.getitem_all _ _ _ _) as [d|]; [|done]. cbn [mbind result_bind].
  destruct (_gfmatrix s') as [g1|], (_gfmatrix s) as [g2|]; try done.
  cbn in Hsh. injection Hsh as ->. done.
Qed.

(** X22: after [init_optimization], calls of [put], [stack], [stack_all] and
    [set_stack_mode] do not change what [stack_all] returns, nor what
    [stack] returns under the graph backend: rows put after
    [init_optimization] do not reach the copy it made. *)
Theorem graph_backend_keeps_its_copy component targets stations lib cs s1 cs' :
  SeismicGFLibrary.__init__ component targets stations = Ok lib ->
  init_optimization (run lib cs) = (Ok tt, s1) ->
  forallb is_put_or_read cs' = true ->
  let s := run s1 cs' in
  (forall rs ss slips, (stack_all rs ss slips s).1 = (stack_all rs ss slips s1).1) /\
  (forall tg ps rs ss slips,
     (stack tg ps rs ss slips (set_stack_mode "theano" s).2).1
     = (stack tg ps rs ss slips s1).1).
Proof.
  intros Hlib Hinit Hcs' s.
  pose proof (run_inv lib cs (init_inv _ _ _ _ Hlib)) as Hinv0.
  pose proof (init_optimization_inv _ Hinv0) as Hinv1. rewrite Hinit in Hinv1.
  rewrite init_optimization_run in Hinit.
  destruct (_gfmatrix (run lib cs)) as [g|] eqn:Eg; [|done].
  destruct Hinv0 as [_ Hg0]. destruct (Hg0 g Eg) as [Hlt _].
  injection Hinit as Hs1. cbn [snd] in Hinv1.
  set (g' := length (arrays (run lib cs))) in *.
  assert (_gfmatrix s1 = Some g /\ _sgfmatrix s1 = Some g' /\
          _stack_switch s1 = Some {[ "numpy" := g; "theano" := g' ]} /\
          _mode s1 = "theano" /\ length (arrays s1) = S g') as (Hg1 & Hsg1 & Hsw1 & Hm1 & Hl1).
  { rewrite <- Hs1. cbn. rewrite length_app. cbn. repeat split; try done. unfold g'. lia. }
  assert (copy_apart s1) as Hca.
  { exists g, g'. rewrite Hl1. repeat split; try done; lia. }
  pose proof (run_graph_view s1 cs' Hcs' Hinv1 Hca) as Hv. fold s in Hv.
  split.
  - intros rs ss slips. rewrite !stack_all_run. cbn [fst]. by apply stack_all_of_view.
  - intros tg ps rs ss slips.
    pose proof Hv as Hv'. unfold graph_view in Hv'.
    injection Hv' as Ha Hsh Hpi Hsw Hsg Ht.
    rewrite Hsw1 in Hsw. rewrite Hsg, Hsg1 in Ha. cbn in Ha.
    rewrite (set_stack_mode_known s g g' "theano") by (done || by right). cbn [snd].
    rewrite !stack_fst. unfold stack_value.
    replace (t2i_of (set_mode "theano" s)) with (t2i_of s1) by (by rewrite <- Ht).
    destruct (dict_get (t2i_of s1) tg) as [tidx|]; [|done]. cbn [mbind result_bind].
    cbn [_stack_switch _mode set_mode arrays]. rewrite Hsw, Hsw1, Hm1.
    unfold dict_get. rewrite lookup_insert_ne by done. rewrite lookup_singleton_eq.
    cbn [mbind result_bind]. injection Ha as ->.
    destruct (ndarray.getitem _ _ _ _ _) as [rows|]; [|done]. cbn [mbind result_bind].
    unfold shape_value. cbn [_gfmatrix set_mode arrays].
    rewrite Hg1 in Hsh. rewrite Hg1.
    destruct (_gfmatrix s) as [g2|]; simpl in Hsh; [|done].
    injection Hsh as Hsh. unfold ndarray.dim4. by rewrite Hsh.
Qed.

(** A row of ones put after [init_optimization] over the row of the round trip. *)
Lemma graph_backend_keeps_its_copy_witness :
  (stack "t0" [2%Z] [1%Z] [3%Z] [1%Q]
     (set_stack_mode "theano"
        (run filled_library [Put (Array2 2 [ [# 1; 1]%Q ]) "t0" 2 [1%Z] [3%Z]])).2).1
  = Ok (vec_to_list known_row).
Proof.
  destruct (graph_backend_keeps_its_copy (Some "Uparr") ["t0"] ["s0"] fresh_library
              round_trip_calls filled_library
              [Put (Array2 2 [ [# 1; 1]%Q ]) "t0" 2 [1%Z] [3%Z]]) as [_ H].
  - reflexivity.
  - by vm_compute.
  - reflexivity.
  - rewrite H. by vm_compute.
Defined.

(** ** geo_construct_gf_linear *)

Lemma broadcast2_same f u v : length u = length v -> broadcast2 f u v = Ok (zip_with f u v).
Proof. intros H. unfold broadcast2. by rewrite bool_decide_eq_true_2. Qed.

Lemma los_projection_same_length d data n :
  length d = n -> length (GeodeticDataset.los_vector data) = n ->
  length (GeodeticDataset.odw data) = n ->
  los_projection d data = Ok (los_column d data) /\ length (los_column d data) = n.
Proof.
  intros Hd Hl Hw. unfold los_projection, los_column. cbv zeta.
  do 5 (rewrite broadcast2_same by (rewrite ?length_zip_with, ?length_fmap; lia);
        cbn [mbind result_bind]).
  rewrite broadcast2_same by (rewrite ?length_zip_with, ?length_fmap; lia).
  split; [done|]. rewrite !length_zip_with, !length_fmap. lia.
Qed.

Lemma los_column_lookup d data i dr lr w :
  d !! i = Some dr -> GeodeticDataset.los_vector data !! i = Some lr ->
  GeodeticDataset.odw data !! i = Some w ->
  los_column d data !! i = Some (los_value dr lr w).
Proof.
  intros Hd Hl Hw. unfold los_column, los_value.
  rewrite !lookup_zip_with, !list_lookup_fmap, Hd, Hl, Hw. done.
Qed.

Lemma vstack_T_uniform cols n :
  cols <> [] -> Forall (fun c : list Q => length c = n) cols ->
  vstack_T cols = Ok ((fun i => (fun c' : list Q => c' !!! i) <$> cols) <$> seq 0 n).
Proof.
  intros Hne Hlen. destruct cols as [|c0 cols']; [done|].
  unfold vstack_T. pose proof (Forall_inv Hlen) as Hc0. cbn beta in Hc0.
  assert (forallb (fun c' : list Q => bool_decide (length c' = length c0)) (c0 :: cols') = true)
    as ->.
  { apply forallb_forall. intros c Hc. apply bool_decide_eq_true_2.
    apply list_elem_of_In in Hc. rewrite Hc0.
    by apply (proj1 (Forall_forall _ _) Hlen). }
  by rewrite Hc0.
Qed.

Section GeoConstructProperties.

Variable geo_synthetics : RectangularSource.t -> result (list (list (Q * Q * Q))).
Variable datasets : list GeodeticDataset.t.
Variable fault : FaultGeometry.t.


Lemma bound_after_loop varnames acc bound :
  foldM (fun (_ : option (string * list (list (list Q)))) var =>
           gfs ← var_gfs geo_synthetics datasets fault var; Ok (Some (var, gfs))) acc varnames = Ok bound ->
  Forall (fun v => is_Ok (var_gfs geo_synthetics datasets fault v)) varnames /\
  match last varnames with
  | None => bound = acc
  | Some var => exists gfs, var_gfs geo_synthetics datasets fault var = Ok gfs /\ bound = Some (var, gfs)
  end.
Proof.
  revert acc. induction varnames as [|v vs IH]; intros acc H; simpl in H.
  - injection H as <-. split; [constructor | done].
  - destruct (var_gfs geo_synthetics datasets fault v) as [gfs|] eqn:Ev; [|done]. cbn [mbind result_bind] in H.
    destruct (IH _ H) as [Hall Hlast]. split; [constructor; [by exists gfs | done]|].
    destruct vs as [|v' vs'].
    + cbn [last] in Hlast. subst bound. by exists gfs.
    + change (last (v :: v' :: vs')) with (last (v' :: vs')).
      destruct (last (v' :: vs')) eqn:E; [done|]. by apply last_None in E.
Qed.

(** X23: when the output path exists and [force] is not set,
    [geo_construct_gf_linear] dumps nothing.  Otherwise, without variable
    names it ends in a [NameError]; and when it returns, the Green's
    functions of every variable name were computed, but the dictionary it
    dumps has one entry only, that of the last variable name. *)
Theorem geo_construct_dumps_last_component path_exists force varnames :
  (path_exists = true -> force = false ->
   geo_construct_gf_linear geo_synthetics datasets fault path_exists force varnames = Ok None) /\
  (path_exists && negb force = false ->
   geo_construct_gf_linear geo_synthetics datasets fault path_exists force [] = Raise NameError) /\
  (path_exists && negb force = false ->
   forall dumped, geo_construct_gf_linear geo_synthetics datasets fault path_exists force varnames = Ok dumped ->
     exists var gfs,
       last varnames = Some var /\ var_gfs geo_synthetics datasets fault var = Ok gfs /\
       dumped = Some {[ var := gfs ]} /\
       Forall (fun v => is_Ok (var_gfs geo_synthetics datasets fault v)) varnames).
Proof.
  unfold is_Ok, geo_construct_gf_linear. split; [|split].
  - by intros -> ->.
  - by intros ->.
  - intros -> dumped H.
    match type of H with (?m ≫= _) = _ => destruct m as [bound|] eqn:Eb; [|done] end.
    cbn [mbind result_bind] in H.
    apply bound_after_loop in Eb as [Hall Hlast].
    destruct bound as [[var gfs]|]; [|done]. injection H as <-.
    destruct (last varnames) as [v|]; [|done].
    destruct Hlast as (gfs' & Hg & [= -> ->]). by exists v, gfs'.
Qed.

(** X24: the matrix of one patch, when the displacements, line-of-sight
    vectors and weights have [n] observations each: it has one row per
    observation and one column per dataset, and the entry of observation
    [i] and dataset [j] is the displacement along the line of sight,
    [d.x * los.x + d.y * los.y + d.z * los.z], times the weight. *)
Theorem patch_gfs_layout source disp n :
  geo_synthetics source = Ok disp ->
  disp <> [] -> datasets <> [] ->
  Forall (fun d : list (Q * Q * Q) => length d = n) disp ->
  Forall (fun data => length (GeodeticDataset.los_vector data) = n /\
                      length (GeodeticDataset.odw data) = n) datasets ->
  exists m,
    patch_gfs geo_synthetics datasets source = Ok m /\
    length m = n /\
    forall i row, m !! i = Some row ->
      length row = (length disp `min` length datasets)%nat /\
      forall j d data dr lr w,
        disp !! j = Some d -> datasets !! j = Some data ->
        d !! i = Some dr -> GeodeticDataset.los_vector data !! i = Some lr ->
        GeodeticDataset.odw data !! i = Some w ->
        row !! j = Some (los_value dr lr w).
Proof.
  intros Hsyn Hdisp Hdata Hd Hds. unfold patch_gfs. rewrite Hsyn. cbn [mbind result_bind].
  set (cols := (fun p : list (Q * Q * Q) * GeodeticDataset.t => los_column p.1 p.2)
                 <$> zip disp datasets).
  assert (forall p, p ∈ zip disp datasets ->
            los_projection p.1 p.2 = Ok (los_column p.1 p.2) /\
            length (los_column p.1 p.2) = n) as Hcol.
  { intros [d data] Hp. cbn [fst snd].
    pose proof (proj1 (Forall_forall _ _) Hd d (elem_of_zip_l _ _ _ _ Hp)) as Hd1.
    destruct (proj1 (Forall_forall _ _) Hds data (elem_of_zip_r _ _ _ _ Hp)) as [Hl Hw].
    by apply los_projection_same_length. }
  rewrite (mapM_ok _ (fun p => los_column p.1 p.2)) by (intros p Hp; by apply Hcol).
  cbn [mbind result_bind]. fold cols.
  assert (Forall (fun c : list Q => length c = n) cols) as Hlen.
  { apply Forall_fmap, Forall_forall. intros p Hp. by apply Hcol. }
  rewrite (vstack_T_uniform cols n); [|unfold cols; by destruct disp, datasets|done].
  eexists. split; [done|]. split; [by rewrite length_fmap, length_seq|].
  intros i row Hrow. rewrite list_lookup_fmap in Hrow.
  destruct (seq 0 n !! i) as [i'|] eqn:Ei; [|done].
  apply lookup_seq in Ei as [-> Hi]. injection Hrow as <-. cbn [Nat.add]. split.
  - unfold cols. by rewrite !length_fmap, length_zip.
  - intros j d data dr lr w Hj Hdj Hdr Hlr Hw.
    rewrite list_lookup_fmap. unfold cols. rewrite list_lookup_fmap.
    rewrite (proj2 (lookup_zip_Some disp datasets j d data)) by done.
    cbn [fmap option_fmap option_map fst snd]. f_equal.
    apply list_lookup_total_correct. by apply los_column_lookup.
Qed.

End GeoConstructProperties.

(** One dataset of two observations. *)
Lemma patch_gfs_layout_witness :
  exists m, patch_gfs unit_displacement [one_dataset] example_source = Ok m /\
            m !! 1%nat = Some [3%Q].
Proof.
  destruct (patch_gfs_layout unit_displacement [one_dataset] example_source
              [ [ (1, 2, 3)%Q; (0, 1, 0)%Q ] ] 2) as (m & Hm & Hlen & Hrows).
  - reflexivity.
  - done.
  - done.
  - repeat constructor.
  - repeat constructor.
  - exists m. split; [done|].
    destruct (lookup_lt_is_Some_2 m 1%nat ltac:(lia)) as [row Hrow].
    rewrite Hrow. f_equal.
    destruct (Hrows 1%nat row Hrow) as [Hl Hentries].
    pose proof (Hentries 0%nat _ _ _ _ _ eq_refl eq_refl eq_refl eq_refl eq_refl) as H0.
    destruct row as [|x [|y row]]; simpl in Hl; try done.
    simpl in H0. injection H0 as ->. by vm_compute.
Defined.

(** ** The library: the numpy backend after init_optimization *)

Lemma exec_gfmatrix s c : is_setup c = false -> _gfmatrix (exec s c) = _gfmatrix s.
Proof.
  intros Hc.
  destruct c as [n0 n1 n2 n3 n4| |e tg p rs ss|m|tg ps rs ss sl|rs ss sl]; cbn [exec];
    [done| | | | |].
  - rewrite init_optimization_run. destruct (_gfmatrix s) eqn:E; cbn; by rewrite ?E.
  - destruct e as [xs|ncols rows]; [done|]. rewrite put_run.
    destruct (shape_value _ s) as [ns|]; [|done]. case_bool_decide; [done|]. cbv zeta.
    destruct (dict_get _ tg) as [tidx|]; [|done].
    destruct (_gfmatrix s) as [g|] eqn:Eg; cbn; [|by rewrite ?Eg].
    destruct (ndarray.setitem _ _ _ _ _ _); cbn; by rewrite ?Eg.
  - rewrite set_stack_mode_run. destruct (_stack_switch s) as [sw|]; [|done].
    by case_bool_decide.
  - by rewrite stack_snd.
  - by rewrite stack_all_run.
Qed.

Lemma run_gfmatrix s cs :
  forallb (fun c => negb (is_setup c)) cs = true -> _gfmatrix (run s cs) = _gfmatrix s.
Proof.
  unfold run. revert s. induction cs as [|c cs IH]; intros s Hcs; [done|].
  simpl in *. apply andb_true_iff in Hcs as [Hc Hcs]. apply negb_true_iff in Hc.
  by rewrite IH, exec_gfmatrix.
Qed.

Lemma put_or_read_split cs :
  forallb is_put_or_read cs = true ->
  forallb (fun c => negb (is_setup c)) cs = true /\ forallb is_query cs = true.
Proof.
  induction cs as [|c cs IH]; [done|]. simpl. unfold is_put_or_read at 1, is_query at 1.
  intros [[H1 H2]%andb_true_iff H]%andb_true_iff. destruct (IH H) as [-> ->].
  by rewrite H1, H2.
Qed.

(** X25: after [init_optimization], and whatever has been put or read
    since, the numpy backend reads the array [put] writes: a row put for a
    target, a patch and one risetime and one starttime index is what
    [stack] under the mode [numpy] returns for them with the slip [1]. *)
Theorem numpy_backend_sees_put component targets stations lib cs s1 cs' ncols
    (row : vec Q ncols) tg p r s s2 :
  SeismicGFLibrary.__init__ component targets stations = Ok lib ->
  init_optimization (run lib cs) = (Ok tt, s1) ->
  forallb is_put_or_read cs' = true ->
  put (Array2 ncols [row]) tg p [r] [s] (run s1 cs') = (Ok tt, s2) ->
  (stack tg [p] [r] [s] [1%Q] (set_stack_mode "numpy" s2).2).1 = Ok (vec_to_list row).
Proof.
  intros Hlib Hinit Hcs' Hput.
  destruct (put_or_read_split _ Hcs') as [Hns Hq].
  pose proof (run_inv lib cs (init_inv _ _ _ _ Hlib)) as Hinv0.
  pose proof (init_optimization_inv _ Hinv0) as Hinv1. rewrite Hinit in Hinv1.
  cbn [snd] in Hinv1.
  rewrite init_optimization_run in Hinit.
  destruct (_gfmatrix (run lib cs)) as [g|] eqn:Eg0; [|done].
  injection Hinit as Hs1.
  set (g' := length (arrays (run lib cs))) in *.
  assert (_gfmatrix s1 = Some g /\
          _stack_switch s1 = Some {[ "numpy" := g; "theano" := g' ]}) as [Hg1 Hsw1]
    by (by rewrite <- Hs1).
  pose proof (run_inv s1 cs' Hinv1) as [Hw Hg].
  set (s0 := run s1 cs') in *.
  assert (_gfmatrix s0 = Some g) as Eg by (unfold s0; by rewrite run_gfmatrix).
  assert (_stack_switch s0 = Some {[ "numpy" := g; "theano" := g' ]}) as Esw.
  { pose proof (run_switch (switch_state s1) s1 cs' Hq eq_refl) as E.
    unfold switch_state in E. injection E as E _. fold s0 in E. by rewrite E. }
  rewrite put_run in Hput.
  destruct (shape_value ndarray.dim4 s0) as [ns|] eqn:Ens; [|done].
  case_bool_decide as Hn; [done|].
  assert (ncols = ns) as <- by (destruct (decide (ncols = ns)); [done|by destruct Hn]).
  cbv zeta in Hput.
  destruct (dict_get (t2i_of s0) tg) as [tidx|] eqn:Et; [|done].
  rewrite Eg in Hput.
  destruct (ndarray.setitem _ _ _ _ _ _) as [a'|] eqn:Ea; [|done].
  injection Hput as <-.
  unfold shape_value in Ens. rewrite Eg in Ens. injection Ens as Ens.
  destruct (Hg g Eg) as [Hlt _].
  set (a := arrays s0 !!! g) in *.
  assert (ndarray.wf a) as Ha by (by apply wf_lookup_total).
  change (vec_to_list <$> [row]) with [vec_to_list row] in Ea.
  apply setitem_one in Ea as (Ht & Hp & Hr & Hs & ->).
  set (a' := ndarray.set_row a _ _ _ _ _).
  set (s2 := set_arrays _ _).
  rewrite (set_stack_mode_known s2 g g' "numpy") by (done || by left). cbn [snd].
  rewrite stack_fst. unfold stack_value.
  replace (t2i_of (set_mode "numpy" s2)) with (t2i_of s0) by done.
  rewrite Et. cbn [mbind result_bind].
  replace (_stack_switch (set_mode "numpy" s2))
    with (Some ({[ "numpy" := g; "theano" := g' ]} : gmap string loc)) by done.
  replace (_mode (set_mode "numpy" s2)) with "numpy" by done.
  unfold dict_get at 1. rewrite lookup_insert_eq. cbn [mbind result_bind].
  replace (arrays (set_mode "numpy" s2) !!! g) with a'
    by (unfold s2; cbn [arrays set_mode set_arrays]; by rewrite list_lookup_total_insert_eq).
  replace (shape_value ndarray.dim4 (set_mode "numpy" s2)) with (Ok (ndarray.dim4 a) : result nat).
  2:{ unfold shape_value, s2. cbn [_gfmatrix arrays set_mode set_arrays set_target2index].
      rewrite Eg. by rewrite list_lookup_total_insert_eq. }
  rewrite (getitem_one a') by done.
  cbn [mbind result_bind length].
  unfold a' at 1.
  change (ndarray.dim1 a') with (ndarray.dim1 a).
  change (ndarray.dim2 a') with (ndarray.dim2 a).
  change (ndarray.dim3 a') with (ndarray.dim3 a).
  rewrite row_set_row by (try done; by apply norm_lt).
  rewrite reshape2_id.
  - cbn [mbind result_bind]. rewrite T_dot_one; [done|].
    rewrite length_vec_to_list. done.
  - done.
  - apply Forall_singleton. rewrite length_vec_to_list. done.
Qed.

(** A row of ones put after [init_optimization] over the row of the round
    trip. *)
Lemma numpy_backend_sees_put_witness :
  (stack "t0" [2%Z] [1%Z] [3%Z] [1%Q]
     (set_stack_mode "numpy"
        (run filled_library [Put (Array2 2 [ [# 1; 1]%Q ]) "t0" 2 [1%Z] [3%Z]])).2).1
  = Ok [1; 1]%Q.
Proof.
  apply (numpy_backend_sees_put (Some "Uparr") ["t0"] ["s0"] fresh_library
           round_trip_calls filled_library [] 2 [# 1; 1]%Q "t0" 2 1 3
           (run filled_library [Put (Array2 2 [ [# 1; 1]%Q ]) "t0" 2 [1%Z] [3%Z]])).
  - reflexivity.
  - by vm_compute.
  - reflexivity.
  - by vm_compute.
Defined.
